(** * youtube-video-downloader-v2: the stream catalog, the quality selector,
    the proxy relay and the download flow

  A shallow embedding of the TypeScript sources:
  - [Js]: the JavaScript primitives the sources rely on (truthiness of
    [x || d], template literals on numbers, [Array.prototype.sort],
    [String.prototype.includes] and friends);
  - [Video]: [src/types/video.ts];
  - [QualitySelector]: the [qualityOptions] memo of the QualitySelector
    component;
  - [InfoRoute]: the [/api/info] route ([extractVideoId], [parseFormat],
    [GET]);
  - [DownloadRoute]: the [/api/download] route;
  - [Downloader]: [downloadBlob], [mergeWithFFmpeg] and [downloadVideo] of
    [src/app/components/Downloader.tsx].

  Strings are [string]s whose characters stand for code units below 256;
  numbers that the sources use as integers (itags, heights, bitrates, HTTP
  statuses) are [Z]; a property that may be [undefined] is an [option]. *)

From Stdlib Require Import ZArith Bool Ascii DecimalString DecimalZ Lia.
From Stdlib Require Import Sorting.Sorted.
From Stdlib Require QArith Qminmax Qround.
From stdpp Require Import gmap strings list sorting.

(** ** JavaScript primitives *)

Module Js.

(** [x || d] on a number: [undefined], [0] (and [NaN]) are falsy. *)
Definition orNum (x : option Z) (d : Z) : Z :=
  match x with
  | Some v => if (v =? 0)%Z then d else v
  | None => d
  end.

(** [x || d] on a string: [undefined] and the empty string are falsy. *)
Definition orStr (x : option string) (d : string) : string :=
  match x with
  | Some "" => d
  | Some s => s
  | None => d
  end.

(** [x || false] on a boolean. *)
Definition orBool (x : option bool) (d : bool) : bool :=
  match x with
  | Some true => true
  | _ => d
  end.

(** Truthiness of a string-valued property. *)
Definition truthyStr (x : option string) : bool :=
  match x with
  | Some "" => false
  | Some _ => true
  | None => false
  end.

(** [`${n}`] for an integer [n]: its decimal numeral, with a leading
    minus sign when negative. That is what JavaScript prints for every
    integer a number holds below 10^21 in absolute value; from there on
    it prints the exponent form. *)
Definition numToString (n : Z) : string :=
  NilZero.string_of_int (Z.to_int n).

(** [`${b}`] for a boolean. *)
Definition boolToString (b : bool) : string :=
  if b then "true" else "false".

Definition isLower (c : ascii) : bool :=
  let n := nat_of_ascii c in Nat.leb 97 n && Nat.leb n 122.

Definition isUpper (c : ascii) : bool :=
  let n := nat_of_ascii c in Nat.leb 65 n && Nat.leb n 90.

Definition isDigit (c : ascii) : bool :=
  let n := nat_of_ascii c in Nat.leb 48 n && Nat.leb n 57.

Definition upperChar (c : ascii) : ascii :=
  if isLower c then ascii_of_nat (nat_of_ascii c - 32) else c.

Definition lowerChar (c : ascii) : ascii :=
  if isUpper c then ascii_of_nat (nat_of_ascii c + 32) else c.

Fixpoint mapStr (f : ascii -> ascii) (s : string) : string :=
  match s with
  | EmptyString => EmptyString
  | String c s' => String (f c) (mapStr f s')
  end.

(** [toUpperCase] and [toLowerCase], on the ASCII letters (the strings
    they are applied to here, container names and sanitized titles, are
    ASCII). *)
Definition toUpperCase : string -> string := mapStr upperChar.
Definition toLowerCase : string -> string := mapStr lowerChar.

(** [s.startsWith(p)]. *)
Definition startsWith (s p : string) : bool := String.prefix p s.

(** [s.includes(p)]: [p] occurs in [s] at some position. *)
Fixpoint includes (s p : string) : bool :=
  String.prefix p s ||
  match s with
  | EmptyString => false
  | String _ s' => includes s' p
  end.

(** [Array.prototype.sort(cmp)]: a stable sort; [a] stays before [b]
    unless [cmp a b > 0]. *)
Section Sort.
Context {A : Type} (cmp : A -> A -> Z).

Fixpoint insertSorted (x : A) (l : list A) : list A :=
    match l with
    | [] => [x]
    | y :: l' =>
        if (cmp x y <=? 0)%Z then x :: y :: l' else y :: insertSorted x l'
    end.

Fixpoint sort (l : list A) : list A :=
    match l with
    | [] => []
    | x :: l' => insertSorted x (sort l')
    end.
End Sort.

(** [parseInt(s, 10)]: leading white space, an optional sign, then the
    longest run of decimal digits; [None] stands for [NaN]. The result is
    the integer the digits denote, which is what JavaScript returns as
    long as that is a safe integer (below 2^53 in absolute value); beyond,
    JavaScript rounds it to a double. *)
Definition isWhiteSpace (c : ascii) : bool :=
  let n := nat_of_ascii c in
  (Nat.leb 9 n && Nat.leb n 13) || Nat.eqb n 32 || Nat.eqb n 160.

Fixpoint skipWhiteSpace (s : string) : string :=
  match s with
  | String c s' => if isWhiteSpace c then skipWhiteSpace s' else s
  | EmptyString => s
  end.

(** The value of the longest run of digits at the start of [s], read
    after the digits of value [acc]; [None] when [s] starts with no digit
    and [started] is false. *)
Fixpoint parseDigits (started : bool) (acc : Z) (s : string) : option Z :=
  match s with
  | String c s' =>
      if isDigit c then
        parseDigits true (10 * acc + Z.of_nat (nat_of_ascii c - 48))%Z s'
      else if started then Some acc else None
  | EmptyString => if started then Some acc else None
  end.

Definition parseInt (s : string) : option Z :=
  match skipWhiteSpace s with
  | String "-" s' => Z.opp <$> parseDigits false 0 s'
  | String "+" s' => parseDigits false 0 s'
  | s' => parseDigits false 0 s'
  end.

(** [Array.prototype.find]. *)
Definition find {A} (p : A -> bool) (l : list A) : option A := List.find p l.

End Js.

(** ** src/types/video.ts *)

Module Video.

Record VideoFormat := mkVideoFormat {
  itag : Z;
  url : option string;
  mimeType : string;
  quality : string;
  qualityLabel : option string;
  container : string;
  hasVideo : bool;
  hasAudio : bool;
  videoCodec : option string;
  audioCodec : option string;
  width : option Z;
  height : option Z;
  fps : option Z;
  bitrate : option Z;
  contentLength : option string
}.

Record VideoInfo := mkVideoInfo {
  videoId : string;
  title : string;
  author : string;
  thumbnail : string;
  duration : option Z;
  durationFormatted : string;
  formats : list VideoFormat
}.

Inductive Stage := idle | fetching | downloading | merging | complete.

Inductive Group := video | audio.

Record QualityOption := mkQualityOption {
  value : string;
  label : string;
  format : VideoFormat;
  requiresMerge : bool;
  group : Group
}.

End Video.

(** ** The quality selector *)

Module QualitySelector.
Import Video.

(** [(a, b) => (b.bitrate || 0) - (a.bitrate || 0)] *)
Definition byBitrate (a b : VideoFormat) : Z :=
  (Js.orNum (bitrate b) 0 - Js.orNum (bitrate a) 0)%Z.

Definition audioFormats (formats : list VideoFormat) : list VideoFormat :=
  Js.sort byBitrate
    (List.filter (fun f => hasAudio f && negb (hasVideo f)) formats).

Definition audioOption (bestAudio : VideoFormat) : QualityOption :=
  {| value := "audio-" +:+ Js.numToString (itag bestAudio);
     label := "MP3 Audio (Best Quality)";
     format := bestAudio;
     requiresMerge := false;
     group := audio |}.

(** The comparator of the video sort. *)
Definition byHeightThenBitrate (a b : VideoFormat) : Z :=
  let aHeight := Js.orNum (height a) 0 in
  let bHeight := Js.orNum (height b) 0 in
  if negb (aHeight =? bHeight)%Z then (bHeight - aHeight)%Z
  else (Js.orNum (bitrate b) 0 - Js.orNum (bitrate a) 0)%Z.

Definition videoFormats (formats : list VideoFormat) : list VideoFormat :=
  Js.sort byHeightThenBitrate (List.filter hasVideo formats).

(** [`${format.height || 0}-${format.hasAudio}`] *)
Definition seenKey (f : VideoFormat) : string :=
  Js.numToString (Js.orNum (height f) 0) +:+ "-" +:+
  Js.boolToString (hasAudio f).

(** [`${format.height || '?'}p`] *)
Definition heightOrUnknown (f : VideoFormat) : string :=
  match height f with
  | Some h => if (h =? 0)%Z then "?" else Js.numToString h
  | None => "?"
  end.

Definition videoLabel (f : VideoFormat) : string :=
  let qualityLabel := Js.orStr (qualityLabel f) (heightOrUnknown f +:+ "p") in
  let label := qualityLabel +:+ " " +:+ Js.toUpperCase (container f) in
  if hasAudio f then label +:+ " (Video + Audio)"
  else label +:+ " (Video Only - will merge with audio)".

Definition videoOption (f : VideoFormat) : QualityOption :=
  {| value := "video-" +:+ Js.numToString (itag f);
     label := videoLabel f;
     format := f;
     requiresMerge := negb (hasAudio f);
     group := video |}.

(** One turn of the [for (const format of videoFormats)] loop, on the
    pair of the [options] array and the [seen] set. *)
Definition videoStep (st : list QualityOption * gset string) (f : VideoFormat)
  : list QualityOption * gset string :=
  let '(options, seen) := st in
  let key := seenKey f in
  if decide (key ∈ seen) then (options, seen)
  else (options ++ [videoOption f], {[ key ]} ∪ seen).

Definition qualityOptions (formats : list VideoFormat) : list QualityOption :=
  let options : list QualityOption := [] in
  let seen : gset string := ∅ in
  let options :=
    match audioFormats formats with
    | bestAudio :: _ => options ++ [audioOption bestAudio]
    | [] => options
    end in
  fst (fold_left videoStep (videoFormats formats) (options, seen)).

End QualitySelector.


(** ** The quality selector as the specification words it

    [buildOptions] follows the sentences of the specification; it is
    parameterised by the label given to a video choice, so that the label
    of the specification ([specLabel]) and the label the component
    computes ([codeLabel]) can be told apart. *)

Module SelectorSpec.
Import Video.

(** "missing values treated as 0" *)
Definition bitrateOr0 (f : VideoFormat) : Z := default 0%Z (bitrate f).
Definition heightOr0 (f : VideoFormat) : Z := default 0%Z (height f).

(** "hasAudio and not hasVideo" *)
Definition audioOnly (f : VideoFormat) : bool := hasAudio f && negb (hasVideo f).

(** The descriptor of highest bitrate: the first one that none beats. *)
Fixpoint highestBitrate (l : list VideoFormat) : option VideoFormat :=
  match l with
  | [] => None
  | x :: l' =>
      match highestBitrate l' with
      | Some y => if (bitrateOr0 x <? bitrateOr0 y)%Z then Some y else Some x
      | None => Some x
      end
  end.

(** "descending by height then descending by bitrate": [a] may stand
    before [b]. *)
Definition descending (a b : VideoFormat) : Prop :=
  (heightOr0 b < heightOr0 a)%Z ∨
  (heightOr0 a = heightOr0 b ∧ (bitrateOr0 b ≤ bitrateOr0 a)%Z).

#[export] Instance descending_dec : RelDecision descending.
Proof. intros a b. unfold descending. apply _. Defined.

Fixpoint insertDescending (x : VideoFormat) (l : list VideoFormat)
  : list VideoFormat :=
  match l with
  | [] => [x]
  | y :: l' =>
      if decide (descending x y) then x :: y :: l'
      else y :: insertDescending x l'
  end.

Fixpoint sortDescending (l : list VideoFormat) : list VideoFormat :=
  match l with
  | [] => []
  | x :: l' => insertDescending x (sortDescending l')
  end.

(** "the key (height-or-0, hasAudio)" *)
Definition dedupKey (f : VideoFormat) : Z * bool := (heightOr0 f, hasAudio f).

(** "deduplicated first-seen": a descriptor whose key was already emitted
    is skipped. *)
Fixpoint firstSeen (emitted : list (Z * bool)) (l : list VideoFormat)
  : list VideoFormat :=
  match l with
  | [] => []
  | f :: l' =>
      if decide (dedupKey f ∈ emitted) then firstSeen emitted l'
      else f :: firstSeen (dedupKey f :: emitted) l'
  end.

(** The label as the specification spells it. *)
Definition specLabel (f : VideoFormat) : string :=
  Js.orStr (qualityLabel f) (Js.numToString (heightOr0 f) +:+ "p") +:+ " " +:+
  Js.toUpperCase (container f) +:+ " " +:+
  (if hasAudio f then "(Video + Audio)"
   else "(Video Only — will merge with audio)").

(** The label as the component spells it: a hyphen in the video-only
    suffix, and [?p] when there is neither a quality label nor a non-zero
    height. *)
Definition codeLabel (f : VideoFormat) : string :=
  Js.orStr (qualityLabel f)
    ((if decide (heightOr0 f = 0%Z) then "?" else Js.numToString (heightOr0 f))
     +:+ "p") +:+ " " +:+
  Js.toUpperCase (container f) +:+ " " +:+
  (if hasAudio f then "(Video + Audio)"
   else "(Video Only - will merge with audio)").

Definition audioChoice (best : VideoFormat) : QualityOption :=
  {| value := "audio-" +:+ Js.numToString (itag best);
     label := "MP3 Audio (Best Quality)";
     format := best;
     requiresMerge := false;
     group := audio |}.

Definition videoChoice (labelOf : VideoFormat → string) (f : VideoFormat)
  : QualityOption :=
  {| value := "video-" +:+ Js.numToString (itag f);
     label := labelOf f;
     format := f;
     requiresMerge := negb (hasAudio f);
     group := video |}.

Definition buildOptions (labelOf : VideoFormat → string)
  (formats : list VideoFormat) : list QualityOption :=
  match highestBitrate (List.filter audioOnly formats) with
  | Some best => [audioChoice best]
  | None => []
  end ++
  map (videoChoice labelOf)
      (firstSeen [] (sortDescending (List.filter hasVideo formats))).

End SelectorSpec.

(** ** The info route: /api/info *)

Module InfoRoute.
Import Video.

(** A format as the resolution service ([ytdl.videoFormat]) hands it
    over; every property but the itag may be missing at run time. *)
Record YtdlFormat := mkYtdlFormat {
  y_itag : Z;
  y_url : option string;
  y_mimeType : option string;
  y_quality : option string;
  y_qualityLabel : option string;
  y_container : option string;
  y_hasVideo : option bool;
  y_hasAudio : option bool;
  y_videoCodec : option string;
  y_audioCodec : option string;
  y_width : option Z;
  y_height : option Z;
  y_fps : option Z;
  y_bitrate : option Z;
  y_contentLength : option string
}.

(** [info.videoDetails]; a thumbnail is read for its [url] only (which
    may be missing), the author for its [name] only. *)
Record VideoDetails := mkVideoDetails {
  d_videoId : string;
  d_title : string;
  d_authorName : option string;
  d_thumbnails : list (option string);
  d_lengthSeconds : option string
}.

Record YtdlInfo := mkYtdlInfo {
  videoDetails : VideoDetails;
  y_formats : list YtdlFormat
}.

(** What [ytdl.getInfo] throws. *)
Record YtdlError := mkYtdlError {
  e_message : option string;
  e_statusCode : option Z
}.

(** [VideoInfoResponse], and the response that carries it. *)
Record VideoInfoResponse := mkVideoInfoResponse {
  success : bool;
  data : option VideoInfo;
  error : option string;
  message : option string
}.

Record Response := mkResponse {
  status : Z;
  body : VideoInfoResponse
}.

Definition failure (code msg : string) (st : Z) : Response :=
  {| status := st;
     body := {| success := false; data := None;
                error := Some code; message := Some msg |} |}.

(** The alternatives of the first pattern of [extractVideoId]. *)
Definition urlPrefixes : list string :=
  ["youtube.com/watch?v="; "youtu.be/"; "youtube.com/embed/"; "youtube.com/v/"].

(** [[^&\n?#]] *)
Definition isTokenChar (c : ascii) : bool :=
  negb (Ascii.eqb c "&" || Ascii.eqb c "010" || Ascii.eqb c "?" || Ascii.eqb c "#")%char.

(** [[a-zA-Z0-9_-]] *)
Definition isIdChar (c : ascii) : bool :=
  (Js.isLower c || Js.isUpper c || Js.isDigit c ||
   Ascii.eqb c "_" || Ascii.eqb c "-")%char.

Fixpoint takeWhile (p : ascii → bool) (s : string) : string :=
  match s with
  | EmptyString => EmptyString
  | String c s' => if p c then String c (takeWhile p s') else EmptyString
  end.

Fixpoint allChars (p : ascii → bool) (s : string) : bool :=
  match s with
  | EmptyString => true
  | String c s' => p c && allChars p s'
  end.

(** [s] without its prefix [p], when [p] is a prefix of [s]. *)
Fixpoint dropPrefix (p s : string) : option string :=
  match p, s with
  | EmptyString, _ => Some s
  | String a p', String b s' => if Ascii.eqb a b then dropPrefix p' s' else None
  | String _ _, EmptyString => None
  end.

(** The first pattern matched at the very start of [s]: the alternatives
    in order, each followed by the longest non-empty run of token
    characters, which is the capture. *)
Fixpoint matchUrlAt (alternatives : list string) (s : string) : option string :=
  match alternatives with
  | [] => None
  | p :: alternatives' =>
      match dropPrefix p s with
      | Some rest =>
          match takeWhile isTokenChar rest with
          | EmptyString => matchUrlAt alternatives' s
          | token => Some token
          end
      | None => matchUrlAt alternatives' s
      end
  end.

(** [url.match(/(?:youtube\.com\/watch\?v=|...)([^&\n?#]+)/)]: the match
    at the leftmost position that has one. *)
Fixpoint matchUrl (s : string) : option string :=
  match matchUrlAt urlPrefixes s with
  | Some token => Some token
  | None =>
      match s with
      | EmptyString => None
      | String _ s' => matchUrl s'
      end
  end.

(** [/^[a-zA-Z0-9_-]{11}$/.test(s)] *)
Definition isVideoId (s : string) : bool :=
  Nat.eqb (String.length s) 11 && allChars isIdChar s.

Definition extractVideoId (url : string) : option string :=
  match matchUrl url with
  | Some token => Some token
  | None => if isVideoId url then Some url else None
  end.

(** [n.toString().padStart(2, '0')] *)
Definition pad2 (n : Z) : string :=
  let s := Js.numToString n in
  if Nat.ltb (String.length s) 2 then "0" +:+ s else s.

(** [formatDuration]; [None] stands for [NaN]. *)
Definition formatDuration (seconds : option Z) : string :=
  match seconds with
  | None => "NaN:NaN"
  | Some seconds =>
      let hours := (seconds / 3600)%Z in
      let minutes := (Z.rem seconds 3600 / 60)%Z in
      let secs := Z.rem seconds 60 in
      if (0 <? hours)%Z then
        Js.numToString hours +:+ ":" +:+ pad2 minutes +:+ ":" +:+ pad2 secs
      else Js.numToString minutes +:+ ":" +:+ pad2 secs
  end.

Definition parseFormat (format : YtdlFormat) : VideoFormat :=
  {| itag := y_itag format;
     url := y_url format;
     mimeType := Js.orStr (y_mimeType format) "";
     quality := Js.orStr (y_quality format) "unknown";
     qualityLabel := y_qualityLabel format;
     container := Js.orStr (y_container format) "mp4";
     hasVideo := Js.orBool (y_hasVideo format) false;
     hasAudio := Js.orBool (y_hasAudio format) false;
     videoCodec := y_videoCodec format;
     audioCodec := y_audioCodec format;
     width := y_width format;
     height := y_height format;
     fps := y_fps format;
     bitrate := y_bitrate format;
     contentLength := y_contentLength format |}.

(** [error.message?.includes(needle)] *)
Definition messageIncludes (e : YtdlError) (needle : string) : bool :=
  match e_message e with
  | Some m => Js.includes m needle
  | None => false
  end.

(** The predicate of the [.filter] over the parsed formats. *)
Definition isWebP (format : VideoFormat) : bool :=
  Js.includes (mimeType format) "webp" || String.eqb (container format) "webp".

Definition hasValidUrl (format : VideoFormat) : bool :=
  match url format with
  | Some u => Js.truthyStr (Some u) && Nat.ltb 0 (String.length u) &&
              Js.startsWith u "http"
  | None => false
  end.

Definition keepFormat (format : VideoFormat) : bool :=
  negb (isWebP format) && hasValidUrl format.

(** The [catch] around [ytdl.getInfo]. *)
Definition getInfoFailure (e : YtdlError) : Response :=
  if messageIncludes e "n transform" || messageIncludes e "signature" ||
     messageIncludes e "decipher" then
    failure "SIGNATURE_ERROR"
      "YouTube signature parsing failed. This may be due to a YouTube update. Please try again later or update the ytdl-core library."
      500
  else if messageIncludes e "Private video" || messageIncludes e "unavailable" then
    failure "VIDEO_UNAVAILABLE" "This video is private or unavailable" 403
  else if messageIncludes e "Sign in to confirm your age" then
    failure "AGE_RESTRICTED"
      "This video is age-restricted and cannot be downloaded" 403
  else if messageIncludes e "Video unavailable" then
    failure "VIDEO_NOT_FOUND"
      "Video not found. Please check the URL and try again" 404
  else if bool_decide (e_statusCode e = Some 429%Z) ||
          messageIncludes e "rate limit" then
    failure "RATE_LIMITED"
      "Too many requests. Please try again in a few moments" 429
  else
    failure "FETCH_ERROR"
      "Failed to fetch video information. Please try again" 500.

(** The handler. [url] is the [url] search parameter ([None] when absent)
    and [getInfo] the resolution service, which answers with the video
    information or throws. Nothing else in the body throws, so that the
    outer [catch] (INTERNAL_ERROR) has no case here. *)
Definition GET (url : option string) (getInfo : string → YtdlError + YtdlInfo)
  : Response :=
  if negb (Js.truthyStr url) then
    failure "MISSING_URL" "YouTube URL is required" 400
  else
    let url := default "" url in
    match extractVideoId url with
    | None => failure "INVALID_URL" "Invalid YouTube URL format" 400
    | Some videoId =>
        if negb (isVideoId videoId) then
          failure "INVALID_VIDEO_ID" "Invalid video ID format" 400
        else
          match getInfo videoId with
          | inl e => getInfoFailure e
          | inr info =>
              let formats :=
                List.filter keepFormat (map parseFormat (y_formats info)) in
              let thumbnail :=
                Js.orStr (mjoin (last (d_thumbnails (videoDetails info))))
                  ("https://img.youtube.com/vi/" +:+ videoId +:+
                   "/maxresdefault.jpg") in
              let duration :=
                Js.parseInt (Js.orStr (d_lengthSeconds (videoDetails info)) "0") in
              {| status := 200;
                 body :=
                   {| success := true;
                      data := Some
                        {| videoId := d_videoId (videoDetails info);
                           title := d_title (videoDetails info);
                           author :=
                             Js.orStr (d_authorName (videoDetails info)) "Unknown";
                           thumbnail := thumbnail;
                           duration := duration;
                           durationFormatted := formatDuration duration;
                           Video.formats := formats |};
                      error := None;
                      message := None |} |}
          end
    end.

End InfoRoute.

(** ** The proxy relay: /api/download *)

Module DownloadRoute.
Import InfoRoute.

Definition Bytes : Type := list Byte.byte.

(** A header object, in the order its properties are set. *)
Definition Headers : Type := list (string * string).

Definition getHeader (name : string) (hs : Headers) : option string :=
  snd <$> List.find (fun h => String.eqb (fst h) name) hs.

(** What [ytdl.downloadFromInfo] throws: [statusCode], [cause.statusCode]
    and [message] are what the handler reads. *)
Record StreamError := mkStreamError {
  s_statusCode : option Z;
  s_causeStatusCode : option Z;
  s_message : option string
}.

(** What [fetch] resolves to; the header names are lower-cased, as
    [Headers.get] looks them up. *)
Record FetchResponse := mkFetchResponse {
  f_status : Z;
  f_statusText : string;
  f_headers : gmap string string;
  f_body : Bytes
}.

(** [response.ok] *)
Definition f_ok (r : FetchResponse) : bool :=
  (200 <=? f_status r)%Z && (f_status r <=? 299)%Z.

Record Request := mkRequest {
  r_videoId : option string;
  r_itag : option string;
  r_range : option string
}.

Inductive Body :=
| Json (success : bool) (error : string) (message : string)
| Stream (bytes : Bytes).

Record Response := mkResponse {
  status : Z;
  headers : Headers;
  body : Body
}.

(** The collaborators of the handler: the two operations of the
    resolution service, the global [fetch], and the constructor of the
    framework's response where its status or headers come from data
    ([new NextResponse(stream, { status, headers })], and
    [NextResponse.json(..., { status: response.status })]); each one
    answers or throws. [nextResponse r] is what the constructor throws
    on the response [r], [None] when it returns. *)
Record Services := mkServices {
  getInfo : string → YtdlError + YtdlInfo;
  downloadFromInfo : YtdlInfo → YtdlFormat → Headers → StreamError + Bytes;
  fetch : string → Headers → option string + FetchResponse;
  nextResponse : Response → option StreamError
}.

(** The calls the handler makes to its collaborators, with the request
    headers it passes. *)
Inductive Upstream :=
| CallGetInfo (videoId : string) (headers : Headers)
| CallDownloadFromInfo (format : YtdlFormat) (headers : Headers)
| CallFetch (url : string) (headers : Headers).

Definition failure (code msg : string) (st : Z) : Response :=
  {| status := st; headers := []; body := Json false code msg |}.

Definition userAgent : string :=
  "Mozilla/5.0 (Windows NT 10.0; Win64; x64) AppleWebKit/537.36 (KHTML, like Gecko) Chrome/131.0.0.0 Safari/537.36".

Definition getInfoHeaders : Headers :=
  [("User-Agent", userAgent);
   ("Accept-Language", "en-US,en;q=0.9");
   ("Accept", "text/html,application/xhtml+xml,application/xml;q=0.9,*/*;q=0.8")].

Definition downloadFromInfoHeaders : Headers :=
  [("User-Agent", userAgent);
   ("Referer", "https://www.youtube.com/");
   ("Origin", "https://www.youtube.com");
   ("Accept", "*/*");
   ("Accept-Language", "en-US,en;q=0.9")].

Definition fetchHeaders : Headers :=
  [("User-Agent", userAgent);
   ("Referer", "https://www.youtube.com/");
   ("Origin", "https://www.youtube.com");
   ("Accept", "*/*");
   ("Accept-Language", "en-US,en;q=0.9");
   ("Accept-Encoding", "identity")].

Definition corsHeaders : Headers :=
  [("Access-Control-Allow-Origin", "*");
   ("Access-Control-Allow-Methods", "GET, HEAD, OPTIONS");
   ("Access-Control-Allow-Headers", "Range");
   ("Access-Control-Expose-Headers", "Content-Length, Content-Range, Accept-Ranges")].

(** [if (v) headers[name] = v] *)
Definition setIfTruthy (name : string) (v : option string) (hs : Headers)
  : Headers :=
  if Js.truthyStr v then hs ++ [(name, default "" v)] else hs.

(** The first operand of a chain of [||] that is truthy. *)
Definition orElse (x y : option string) : option string :=
  if Js.truthyStr x then x else y.

Definition isSignatureFailure (e : YtdlError) : bool :=
  messageIncludes e "n transform" || messageIncludes e "signature" ||
  messageIncludes e "decipher".

Definition isForbidden (e : StreamError) : bool :=
  bool_decide (s_statusCode e = Some 403%Z) ||
  bool_decide (s_causeStatusCode e = Some 403%Z) ||
  match s_message e with
  | Some m => Js.includes m "403"
  | None => false
  end.

(** [format.mimeType?.includes('webp') || format.container === 'webp'] *)
Definition isWebPFormat (format : YtdlFormat) : bool :=
  match y_mimeType format with
  | Some m => Js.includes m "webp"
  | None => false
  end || bool_decide (y_container format = Some "webp").

(** The response the primary path builds, once [downloadFromInfo] has
    handed over the stream. *)
Definition primaryResponse (format : YtdlFormat) (range : option string)
    (videoStream : Bytes) : Response :=
  let contentType := Js.orStr (y_mimeType format) "video/mp4" in
  let contentLength := y_contentLength format in
  let responseHeaders :=
    [("Content-Type", contentType); ("Accept-Ranges", "bytes")] ++ corsHeaders in
  let responseHeaders := setIfTruthy "Content-Length" contentLength responseHeaders in
  if Js.truthyStr range then
    {| status := 206;
       headers := responseHeaders ++ [("Content-Range", default "" range)];
       body := Stream videoStream |}
  else
    {| status := 200; headers := responseHeaders; body := Stream videoStream |}.

(** The response of the direct-fetch fallback to what [fetch] resolved
    to. *)
Definition fallbackResponse (format : YtdlFormat) (response : FetchResponse)
  : Response :=
  if negb (f_ok response) then
    failure "FETCH_ERROR"
      ("Failed to fetch video: " +:+ f_statusText response +:+ " (" +:+
       Js.numToString (f_status response) +:+
       "). YouTube may be blocking server-side requests. Try selecting a combined format (video+audio) which uses native browser download.")
      (f_status response)
  else
    let contentType :=
      Js.orStr (orElse (f_headers response !! "content-type") (y_mimeType format))
        "video/mp4" in
    let contentLength :=
      orElse (f_headers response !! "content-length") (y_contentLength format) in
    let acceptRanges := Js.orStr (f_headers response !! "accept-ranges") "bytes" in
    let contentRange := f_headers response !! "content-range" in
    let responseHeaders :=
      [("Content-Type", contentType); ("Accept-Ranges", acceptRanges)] ++
      corsHeaders in
    let responseHeaders := setIfTruthy "Content-Length" contentLength responseHeaders in
    let responseHeaders := setIfTruthy "Content-Range" contentRange responseHeaders in
    let status := if (f_status response =? 206)%Z then 206%Z else 200%Z in
    {| status := status; headers := responseHeaders;
       body := Stream (f_body response) |}.

(** The constructor on [response]: the response, or what it throws. *)
Definition constructed (svc : Services) (response : Response)
  : StreamError + Response :=
  match nextResponse svc response with
  | Some thrown => inl thrown
  | None => inr response
  end.

(** The outer [catch]. *)
Definition internalError (message : option string) : Response :=
  failure "INTERNAL_ERROR"
    (Js.orStr message "An unexpected error occurred while downloading the video")
    500.

(** The inner [try]: the stream is asked for and the response is built
    on it; either step may throw. *)
Definition primaryAttempt (svc : Services) (info : YtdlInfo) (format : YtdlFormat)
    (range : option string) : StreamError + Response :=
  match downloadFromInfo svc info format downloadFromInfoHeaders with
  | inl streamError => inl streamError
  | inr videoStream => constructed svc (primaryResponse format range videoStream)
  end.

(** The handler: the response, and the calls made to the collaborators
    on the way. *)
Definition GET (request : Request) (svc : Services) : Response * list Upstream :=
  if negb (Js.truthyStr (r_videoId request)) || negb (Js.truthyStr (r_itag request))
  then (failure "MISSING_PARAMS" "Video ID and itag are required" 400, [])
  else
    let videoId := default "" (r_videoId request) in
    let itag := default "" (r_itag request) in
    let range := r_range request in
    let calls := [CallGetInfo videoId getInfoHeaders] in
    match getInfo svc videoId with
    | inl e =>
        if isSignatureFailure e then
          (failure "SIGNATURE_ERROR"
             "YouTube signature parsing failed. Please try fetching the video info again or select a different format."
             500, calls)
        else
          (failure "FETCH_ERROR" "Failed to fetch video information" 500, calls)
    | inr info =>
        match Js.find (fun f => bool_decide (Some (y_itag f) = Js.parseInt itag))
                (y_formats info) with
        | None =>
            (failure "FORMAT_NOT_FOUND"
               "Requested format not found. It may have been filtered out (e.g., WebP formats are excluded)."
               404, calls)
        | Some format =>
            if negb (Js.truthyStr (y_url format)) then
              (failure "NO_URL"
                 "Format URL not available. This format may require signature decryption which failed. Please try a different format or fetch the video info again."
                 404, calls)
            else if isWebPFormat format then
              (failure "WEBP_NOT_SUPPORTED"
                 "WebP formats are not supported. Please select an MP4 format."
                 400, calls)
            else
              let calls := calls ++ [CallDownloadFromInfo format downloadFromInfoHeaders] in
              match primaryAttempt svc info format range with
              | inr response => (response, calls)
              | inl streamError =>
                  if isForbidden streamError then
                    (failure "ACCESS_DENIED"
                       "YouTube is blocking this request (403 Forbidden). This may be due to YouTube's anti-bot measures. Please try: 1) Selecting a combined format (video+audio) which uses native browser download, 2) Waiting a few minutes and trying again, or 3) The ytdl-core library may need an update to handle YouTube's latest changes."
                       403, calls)
                  else if Js.truthyStr (y_url format) then
                    let headers := fetchHeaders in
                    let headers :=
                      if Js.truthyStr range
                      then headers ++ [("Range", default "" range)]
                      else headers in
                    let url := default "" (y_url format) in
                    let calls := calls ++ [CallFetch url headers] in
                    match fetch svc url headers with
                    | inr response =>
                        match constructed svc (fallbackResponse format response) with
                        | inr relayed => (relayed, calls)
                        | inl thrown => (internalError (s_message thrown), calls)
                        end
                    | inl thrown => (internalError thrown, calls)
                    end
                  else
                    (failure "DOWNLOAD_FAILED"
                       ("Download failed: " +:+
                        Js.orStr (s_message streamError) "Unknown error" +:+
                        ". This format may not be available. Please try selecting a combined format (video+audio) or a different quality.")
                       500, calls)
              end
        end
    end.

End DownloadRoute.

(** ** The downloader component *)

Module Downloader.
Import Video.

Definition Blob : Type := list Byte.byte.

(** A thrown value: its [name] and its [message]. *)
Record JsError := mkJsError {
  name : string;
  message : string
}.

(** [new Error(msg)] and [new DOMException('Aborted', 'AbortError')] *)
Definition newError (msg : string) : JsError :=
  {| name := "Error"; message := msg |}.
Definition abortError : JsError :=
  {| name := "AbortError"; message := "Aborted" |}.

(** A progress value is the rational number the double stands for. *)
Definition num (n : Z) : QArith_base.Q := QArith_base.inject_Z n.

(** [DownloadProgress] *)
Record DownloadProgress := mkProgress {
  stage : Stage;
  progress : QArith_base.Q;
  p_message : option string
}.

(** The file name of a download:
    [`${title.replace(/[^a-z0-9]/gi, '_').toLowerCase()}.${container}`] *)
Definition isAlnum (c : ascii) : bool :=
  Js.isLower c || Js.isUpper c || Js.isDigit c.

Definition replaceNonAlnum (s : string) : string :=
  Js.mapStr (fun c => if isAlnum c then c else "_"%char) s.

Definition filename (title container : string) : string :=
  Js.toLowerCase (replaceNonAlnum title) +:+ "." +:+ container.

(** The codec engine: an instance in state [E] answers each call, or
    throws, and moves to a new state. *)
Record Engine (E : Type) := mkEngine {
  load : E → option JsError * E;
  writeFile : string → Blob → E → option JsError * E;
  exec : list string → E → option JsError * E;
  readFile : string → E → (JsError + Blob) * E;
  deleteFile : string → E → option JsError * E
}.
Arguments load {E}.
Arguments writeFile {E}.
Arguments exec {E}.
Arguments readFile {E}.
Arguments deleteFile {E}.

Inductive EngineCall :=
| Load
| WriteFile (path : string)
| Exec (args : list string)
| ReadFile (path : string)
| DeleteFile (path : string).

(** The transfers a download starts: a call of [downloadBlob] sends an
    XHR to [url]; its fallback fetches
    [/api/download?videoId=...&itag=...]. *)
Inductive NetworkCall :=
| DownloadBlob (url : option string) (filename : string)
    (videoId : string) (itag : Z)
| ProxyFetch (videoId : string) (itag : Z).

(** A click on a download anchor: on the address of a format, or on the
    object URL of a merged blob. *)
Inductive Save :=
| SaveUrl (href : option string) (download : string)
| SaveBlob (blob : Blob) (download : string).

(** The promise of [downloadBlob]. *)
Inductive Transfer :=
| XhrPending
| ProxyPending
| Settled (outcome : JsError + Blob).

(** What reaches a transfer in flight. *)
Inductive TransferEvent :=
| XhrProgress (lengthComputable : bool) (loaded total : Z)
| XhrLoad (status : Z) (statusText : string) (response : Blob)
| XhrError
| ProxyResponse (status : Z) (statusText : string) (blob : Blob)
| ProxyFailure (e : JsError).

Inductive Event :=
| OnTransfer (ev : TransferEvent)
| Cancel.

Section Component.
Context {E : Type} (eng : Engine E).

(** The state of the component, and what it has done so far. *)
Record Component := mkComponent {
  c_progress : DownloadProgress;
  c_error : option string;
  abortControllerRef : bool;
  ffmpegRef : bool;
  engine : E;
  engineCalls : list EngineCall;
  networkCalls : list NetworkCall;
  saves : list Save
}.

(** An [async] body: it runs on the component and returns or throws. *)
Definition M (A : Type) : Type := Component → (JsError + A) * Component.

#[local] Instance M_ret : MRet M := λ A x st, (inr x, st).
#[local] Instance M_bind : MBind M := λ A B f m st,
  match m st with
  | (inr x, st') => f x st'
  | (inl e, st') => (inl e, st')
  end.

Definition throw {A} (e : JsError) : M A := λ st, (inl e, st).

Definition setProgress (s : Stage) (p : QArith_base.Q) (msg : option string) : M unit :=
  λ st, (inr (),
         mkComponent (mkProgress s p msg) (c_error st) (abortControllerRef st)
           (ffmpegRef st) (engine st) (engineCalls st) (networkCalls st)
           (saves st)).

Definition setError (e : option string) : M unit :=
  λ st, (inr (),
         mkComponent (c_progress st) e (abortControllerRef st) (ffmpegRef st)
           (engine st) (engineCalls st) (networkCalls st) (saves st)).

Definition setAbortController (b : bool) : M unit :=
  λ st, (inr (),
         mkComponent (c_progress st) (c_error st) b (ffmpegRef st) (engine st)
           (engineCalls st) (networkCalls st) (saves st)).

Definition setFfmpegRef (b : bool) : M unit :=
  λ st, (inr (),
         mkComponent (c_progress st) (c_error st) (abortControllerRef st) b
           (engine st) (engineCalls st) (networkCalls st) (saves st)).

Definition logNetwork (c : NetworkCall) : M unit :=
  λ st, (inr (),
         mkComponent (c_progress st) (c_error st) (abortControllerRef st)
           (ffmpegRef st) (engine st) (engineCalls st) (networkCalls st ++ [c])
           (saves st)).

Definition clickSave (s : Save) : M unit :=
  λ st, (inr (),
         mkComponent (c_progress st) (c_error st) (abortControllerRef st)
           (ffmpegRef st) (engine st) (engineCalls st) (networkCalls st)
           (saves st ++ [s])).

(** A call to the engine: it is issued, then answered. *)
Definition callEngine {A} (c : EngineCall) (op : E → (JsError + A) * E) : M A :=
  λ st,
    let '(r, e') := op (engine st) in
    (r, mkComponent (c_progress st) (c_error st) (abortControllerRef st)
          (ffmpegRef st) e' (engineCalls st ++ [c]) (networkCalls st)
          (saves st)).

Definition unitResult (r : option JsError * E) : (JsError + unit) * E :=
  (match r.1 with Some e => inl e | None => inr () end, r.2).

Definition initFFmpeg : M unit :=
  λ st,
    if ffmpegRef st then (inr (), st)
    else
      (setProgress merging (num 0) (Some "Loading FFmpeg...") ;;
       setFfmpegRef true ;;
       callEngine Load (λ e, unitResult (load eng e))) st.

Definition execArgs : list string :=
  ["-i"; "video.mp4"; "-i"; "audio.mp4"; "-c:v"; "copy"; "-c:a"; "aac";
   "-strict"; "experimental"; "-shortest"; "output.mp4"].

Definition mergeWithFFmpeg (videoBlob audioBlob : Blob) (outputFilename : string)
  : M unit :=
  initFFmpeg ;;
  setProgress merging (num 10) (Some "Preparing files...") ;;
  callEngine (WriteFile "video.mp4")
    (λ e, unitResult (writeFile eng "video.mp4" videoBlob e)) ;;
  setProgress merging (num 30) (Some "Processing video...") ;;
  callEngine (WriteFile "audio.mp4")
    (λ e, unitResult (writeFile eng "audio.mp4" audioBlob e)) ;;
  setProgress merging (num 50) (Some "Merging streams...") ;;
  callEngine (Exec execArgs) (λ e, unitResult (exec eng execArgs e)) ;;
  setProgress merging (num 90) (Some "Finalizing...") ;;
  data ← callEngine (ReadFile "output.mp4") (readFile eng "output.mp4") ;
  callEngine (DeleteFile "video.mp4")
    (λ e, unitResult (deleteFile eng "video.mp4" e)) ;;
  callEngine (DeleteFile "audio.mp4")
    (λ e, unitResult (deleteFile eng "audio.mp4" e)) ;;
  callEngine (DeleteFile "output.mp4")
    (λ e, unitResult (deleteFile eng "output.mp4" e)) ;;
  clickSave (SaveBlob data outputFilename) ;;
  setProgress complete (num 100) (Some "Download complete!").

(** [(a, b) => (b.bitrate || 0) - (a.bitrate || 0)] *)
Definition byBitrate (a b : VideoFormat) : Z :=
  (Js.orNum (bitrate b) 0 - Js.orNum (bitrate a) 0)%Z.

(** [downloadBlob] up to [xhr.send()]: the promise is pending on the
    XHR. *)
Definition downloadBlob (url : option string) (filename : string)
    (videoId : string) (itag : Z) : M Transfer :=
  logNetwork (DownloadBlob url filename videoId itag) ;; mret XhrPending.

(** [!videoId || !itag] *)
Definition noProxyKey (videoId : string) (itag : Z) : bool :=
  negb (Js.truthyStr (Some videoId)) || (itag =? 0)%Z.

(** [xhr.onload] and [xhr.onerror] past the success case: the fallback
    to the server proxy. *)
Definition proxyFallback (what : string) (videoId : string) (itag : Z)
  : M Transfer :=
  if noProxyKey videoId itag then
    mret (Settled (inl (newError
      (what +:+ ": Video ID and itag are required for server proxy fallback."))))
  else logNetwork (ProxyFetch videoId itag) ;; mret ProxyPending.

Definition statusLine (statusText : string) (status : Z) : string :=
  statusText +:+ " (" +:+ Js.numToString status +:+ ")".

(** The handlers of [downloadBlob], on the promise [t]. *)
Definition transferStep (onProgress : QArith_base.Q → M unit)
    (videoId : string) (itag : Z) (t : Transfer) (ev : TransferEvent)
  : M Transfer :=
  match t, ev with
  | XhrPending, XhrProgress lengthComputable loaded total =>
      if lengthComputable && (0 <? total)%Z then
        onProgress (QArith_base.Qmult
                      (QArith_base.Qmake loaded (Z.to_pos total)) (num 100)) ;;
        mret XhrPending
      else mret XhrPending
  | XhrPending, XhrLoad status statusText response =>
      if (200 <=? status)%Z && (status <? 300)%Z then
        mret (Settled (inr response))
      else if (status =? 0)%Z then proxyFallback "CORS error" videoId itag
      else
        mret (Settled (inl (newError
          ("Failed to download: " +:+ statusLine statusText status))))
  | XhrPending, XhrError => proxyFallback "Network error" videoId itag
  | ProxyPending, ProxyResponse status statusText blob =>
      if (200 <=? status)%Z && (status <=? 299)%Z then mret (Settled (inr blob))
      else
        mret (Settled (inl (newError
          ("Server proxy failed: " +:+ statusLine statusText status))))
  | ProxyPending, ProxyFailure e => mret (Settled (inl e))
  | _, _ => mret t
  end.

(** The listener of the signal's [abort] event. *)
Definition abortTransfer (t : Transfer) : Transfer :=
  match t with
  | Settled _ => t
  | _ => Settled (inl abortError)
  end.

(** Where [downloadVideo] stands: finished, or suspended on the promise
    of the video transfer or of the audio transfer ([signal] tells
    whether the transfer was given a signal). *)
Inductive Flow :=
| Done
| AwaitVideo (signal : bool) (t : Transfer) (format : VideoFormat)
    (bestAudio : option VideoFormat) (videoInfo : VideoInfo) (filename : string)
| AwaitAudio (signal : bool) (t : Transfer) (format : VideoFormat)
    (bestAudio : VideoFormat) (videoInfo : VideoInfo) (filename : string)
    (videoBlob : Blob).

Definition nl2 : string := String "010" (String "010" "").

(** The [catch] of [downloadVideo]. *)
Definition catchDownload (selectedFormat : option VideoFormat) (err : JsError)
  : M unit :=
  (if String.eqb (name err) "AbortError" then
     setError (Some "Download cancelled")
   else
     let errorMsg :=
       Js.orStr (Some (message err)) "Failed to download video. Please try again." in
     if Js.includes errorMsg "403" || Js.includes errorMsg "ACCESS_DENIED" ||
        Js.includes errorMsg "forbidden" then
       if match selectedFormat with
          | Some f => negb (hasAudio f)
          | None => false
          end
       then
         setError (Some (errorMsg +:+ nl2 +:+
           "💡 Tip: YouTube is blocking server-side downloads for formats requiring merging. Please select a combined format (video+audio) which uses native browser download and works reliably."))
       else
         setError (Some (errorMsg +:+ nl2 +:+
           "💡 Tip: YouTube may be blocking this request. Try selecting a different format or wait a few minutes."))
     else if Js.includes errorMsg "SIGNATURE_ERROR" ||
             Js.includes errorMsg "n transform" ||
             Js.includes errorMsg "decipher" then
       setError (Some (errorMsg +:+ nl2 +:+
         "💡 Tip: YouTube has updated their security. The ytdl-core library may need an update. Try selecting a combined format (video+audio) which works more reliably."))
     else if Js.includes errorMsg "NO_URL" ||
             Js.includes errorMsg "FORMAT_NOT_FOUND" then
       setError (Some (errorMsg +:+ nl2 +:+
         "💡 Tip: This format is not available. Please select a different format. Combined formats (video+audio) are usually more reliable."))
     else setError (Some errorMsg)) ;;
  setProgress idle (num 0) None.

(** [try { body } catch (err) { ... }] around a stretch of
    [downloadVideo]. *)
Definition tryCatch (selectedFormat : option VideoFormat) (body : M Flow)
  : M Flow :=
  λ st,
    match body st with
    | (inl err, st') => (catchDownload selectedFormat err ;; mret Done) st'
    | r => r
    end.

(** [await] on a settled promise. *)
Definition await (outcome : JsError + Blob) : M Blob :=
  match outcome with
  | inl e => throw e
  | inr blob => mret blob
  end.

Definition nativeSave (format : VideoFormat) (filename : string) : M Flow :=
  setProgress downloading (num 0) (Some "Starting download...") ;;
  clickSave (SaveUrl (url format) filename) ;;
  setProgress complete (num 100)
    (Some "Download started! Check your downloads folder.") ;;
  mret Done.

(** [downloadVideo], up to its first [await]. *)
Definition downloadVideo (selectedFormat : option VideoFormat)
    (videoInfo : option VideoInfo) : M Flow :=
  match selectedFormat, videoInfo with
  | Some format, Some videoInfo =>
      setError None ;;
      setProgress downloading (num 0) (Some "Starting download...") ;;
      setAbortController true ;;
      tryCatch selectedFormat
        (let filename := filename (title videoInfo) (container format) in
         if hasVideo format && hasAudio format then nativeSave format filename
         else if hasVideo format && negb (hasAudio format) then
           setProgress downloading (num 0) (Some "Downloading video stream...") ;;
           let audioFormats :=
             List.filter (λ f, hasAudio f && negb (hasVideo f)) (formats videoInfo) in
           if Nat.eqb (length audioFormats) 0 then
             throw (newError "No audio stream available for merging")
           else
             let bestAudio := head (Js.sort byBitrate audioFormats) in
             signal ← (λ st, (inr (abortControllerRef st), st)) ;
             t ← downloadBlob (url format) "video" (videoId videoInfo) (itag format) ;
             mret (AwaitVideo signal t format bestAudio videoInfo filename)
         else if hasAudio format && negb (hasVideo format) then
           nativeSave format filename
         else mret Done)
  | _, _ => setError (Some "Please select a quality/format") ;; mret Done
  end.

(** [downloadVideo] after the video transfer has settled. *)
Definition afterVideo (format : VideoFormat) (bestAudio : option VideoFormat)
    (videoInfo : VideoInfo) (filename : string) (outcome : JsError + Blob)
  : M Flow :=
  tryCatch (Some format)
    (videoBlob ← await outcome ;
     setProgress downloading (num 50) (Some "Downloading audio stream...") ;;
     match bestAudio with
     | Some bestAudio =>
         signal ← (λ st, (inr (abortControllerRef st), st)) ;
         t ← downloadBlob (url bestAudio) "audio" (videoId videoInfo)
               (itag bestAudio) ;
         mret (AwaitAudio signal t format bestAudio videoInfo filename videoBlob)
     | None =>
         throw {| name := "TypeError";
                  message := "Cannot read properties of undefined (reading 'url')" |}
     end).

(** [downloadVideo] after the audio transfer has settled. *)
Definition afterAudio (format : VideoFormat) (filename : string)
    (videoBlob : Blob) (outcome : JsError + Blob) : M Flow :=
  tryCatch (Some format)
    (audioBlob ← await outcome ;
     mergeWithFFmpeg videoBlob audioBlob filename ;;
     mret Done).

Definition half : QArith_base.Q := QArith_base.Qmake 1 2.

Definition onVideoProgress (p : QArith_base.Q) : M unit :=
  setProgress downloading (QArith_base.Qmult p half)
    (Some "Downloading video stream...").

Definition onAudioProgress (p : QArith_base.Q) : M unit :=
  setProgress downloading (QArith_base.Qplus (num 50) (QArith_base.Qmult p half))
    (Some "Downloading audio stream...").

(** An event of the transfer in flight reaches its handler; once the
    promise settles, [downloadVideo] goes on. *)
Definition deliver (flow : Flow) (ev : TransferEvent) : M Flow :=
  match flow with
  | Done => mret Done
  | AwaitVideo signal t format bestAudio videoInfo filename =>
      t' ← transferStep onVideoProgress (videoId videoInfo) (itag format) t ev ;
      match t' with
      | Settled outcome => afterVideo format bestAudio videoInfo filename outcome
      | _ => mret (AwaitVideo signal t' format bestAudio videoInfo filename)
      end
  | AwaitAudio signal t format bestAudio videoInfo filename videoBlob =>
      t' ← transferStep onAudioProgress (videoId videoInfo) (itag bestAudio) t ev ;
      match t' with
      | Settled outcome => afterAudio format filename videoBlob outcome
      | _ => mret (AwaitAudio signal t' format bestAudio videoInfo filename videoBlob)
      end
  end.

(** [abortController.abort()]: the listener of a transfer that was given
    the signal rejects its promise, and [downloadVideo] goes on. *)
Definition abortFlow (flow : Flow) : M Flow :=
  match flow with
  | Done => mret Done
  | AwaitVideo signal t format bestAudio videoInfo filename =>
      match (if signal then abortTransfer t else t) with
      | Settled outcome => afterVideo format bestAudio videoInfo filename outcome
      | _ => mret flow
      end
  | AwaitAudio signal t format bestAudio videoInfo filename videoBlob =>
      match (if signal then abortTransfer t else t) with
      | Settled outcome => afterAudio format filename videoBlob outcome
      | _ => mret flow
      end
  end.

(** [cancelDownload]; the continuation of a rejected promise runs once
    the click handler has returned. *)
Definition cancelDownload (flow : Flow) : M Flow :=
  λ st,
    let aborted := abortControllerRef st in
    ((if aborted then setAbortController false else mret ()) ;;
     setProgress idle (num 0) None ;;
     if aborted then abortFlow flow else mret flow) st.

Definition step (flow : Flow) (ev : Event) : M Flow :=
  match ev with
  | OnTransfer ev => deliver flow ev
  | Cancel => cancelDownload flow
  end.

Fixpoint run (flow : Flow) (evs : list Event) : M Flow :=
  match evs with
  | [] => mret flow
  | ev :: evs' => flow' ← step flow ev ; run flow' evs'
  end.

(** A download from the click on, through the events [evs]. *)
Definition download (selectedFormat : option VideoFormat)
    (videoInfo : option VideoInfo) (evs : list Event) : M Flow :=
  flow ← downloadVideo selectedFormat videoInfo ; run flow evs.

End Component.

#[export] Existing Instance M_ret.
#[export] Existing Instance M_bind.

End Downloader.

(** ** The catalog filters and the file name as the specification words
       them *)

Module CatalogSpec.
Import Video.

(** "container or MIME type indicates WebP" *)
Definition indicatesWebP (d : VideoFormat) : Prop :=
  (∃ before after, mimeType d = before +:+ "webp" +:+ after) ∨
  container d = "webp".

(** "playable address is present, non-empty, and starts with http" *)
Definition playable (d : VideoFormat) : Prop :=
  ∃ address, url d = Some address ∧ address ≠ "" ∧
             ∃ rest, address = "http" +:+ rest.

(** "at least one of hasVideo and hasAudio is true" *)
Definition carriesMedia (d : VideoFormat) : Prop :=
  hasVideo d = true ∨ hasAudio d = true.

(** "the title lower-cased with every maximal run of non-alphanumeric
    characters collapsed to a single underscore"; [inRun] tells that the
    previous character was not alphanumeric. *)
Fixpoint collapseRuns (inRun : bool) (s : string) : string :=
  match s with
  | EmptyString => EmptyString
  | String c s' =>
      if Downloader.isAlnum c then String (Js.lowerChar c) (collapseRuns false s')
      else if inRun then collapseRuns true s'
      else String "_" (collapseRuns true s')
  end.

Definition specFilename (title container : string) : string :=
  collapseRuns false title +:+ "." +:+ container.

(** The title lower-cased with every non-alphanumeric character replaced
    by an underscore of its own. *)
Definition underscored (title : string) : string :=
  Js.mapStr (λ c, if Downloader.isAlnum c then Js.lowerChar c else "_"%char) title.

End CatalogSpec.

(** ** What a suspended download relies on *)

Module FlowSpec.
Import Downloader.

(** The promise of a transfer is not settled yet. *)
Definition pending (t : Transfer) : Prop :=
  match t with
  | Settled _ => False
  | _ => True
  end.

(** A download suspended on a transfer gave it the signal of the
    controller the component still holds. *)
Definition wellFormed {E} (flow : Flow) (st : Component (E := E)) : Prop :=
  match flow with
  | Done => True
  | AwaitVideo signal t _ _ _ _ =>
      signal = true ∧ abortControllerRef st = true ∧ pending t
  | AwaitAudio signal t _ _ _ _ _ =>
      signal = true ∧ abortControllerRef st = true ∧ pending t
  end.

Definition isDelete (c : EngineCall) : bool :=
  match c with
  | DeleteFile _ => true
  | _ => false
  end.

End FlowSpec.

(** ** Sample inputs *)

Module Samples.
Import Video InfoRoute.

Definition sampleFormat (i : Z) (v a : bool) (h b : option Z) : VideoFormat :=
  {| itag := i; url := Some "https://r1.example/videoplayback";
     mimeType := "video/mp4"; quality := "hd"; qualityLabel := None;
     container := "mp4"; hasVideo := v; hasAudio := a;
     videoCodec := None; audioCodec := None; width := None; height := h;
     fps := None; bitrate := b; contentLength := None |}.

(** Two audio-only descriptors and three video descriptors: 1080p with
    audio, 1080p without, 720p with audio. *)
Definition audio128 : VideoFormat := sampleFormat 140 false true None (Some 128000%Z).
Definition audio64 : VideoFormat := sampleFormat 139 false true None (Some 64000%Z).
Definition muxed1080 : VideoFormat :=
  sampleFormat 37 true true (Some 1080%Z) (Some 4000000%Z).
Definition videoOnly1080 : VideoFormat :=
  sampleFormat 137 true false (Some 1080%Z) (Some 3000000%Z).
Definition muxed720 : VideoFormat :=
  sampleFormat 22 true true (Some 720%Z) (Some 2000000%Z).

Definition catalog : list VideoFormat :=
  [audio128; audio64; muxed1080; videoOnly1080; muxed720].

(** A muxed descriptor with neither a height nor a quality label, next to
    a video-only one. *)
Definition unlabelled : list VideoFormat :=
  [sampleFormat 137 true false (Some 1080%Z) (Some 3000000%Z);
   sampleFormat 5 true true None None].

(** Streams as the resolution service returns them. *)
Definition sampleStream (i : Z) (u m c : option string) (v a : option bool)
  : YtdlFormat :=
  {| y_itag := i; y_url := u; y_mimeType := m; y_quality := Some "medium";
     y_qualityLabel := None; y_container := c; y_hasVideo := v; y_hasAudio := a;
     y_videoCodec := None; y_audioCodec := None; y_width := None;
     y_height := None; y_fps := None; y_bitrate := None;
     y_contentLength := None |}.

Definition muxedStream : YtdlFormat :=
  sampleStream 18 (Some "https://r1.example/videoplayback?itag=18")
    (Some "video/mp4; codecs=avc1") (Some "mp4") (Some true) (Some true).

Definition webpStream : YtdlFormat :=
  sampleStream 600 (Some "https://r1.example/storyboard.webp")
    (Some "image/webp") (Some "webp") (Some true) None.

Definition unresolvedStream : YtdlFormat :=
  sampleStream 137 (Some "") (Some "video/mp4") (Some "mp4") (Some true) (Some false).

(** A stream that carries neither video nor audio. *)
Definition emptyStream : YtdlFormat :=
  sampleStream 999 (Some "https://r1.example/videoplayback?itag=999")
    (Some "application/octet-stream") (Some "mp4") (Some false) None.

Definition sampleDetails : VideoDetails :=
  {| d_videoId := "dQw4w9WgXcQ"; d_title := "Sample"; d_authorName := None;
     d_thumbnails := []; d_lengthSeconds := Some "3661" |}.

Definition sampleInfo (streams : list YtdlFormat) : YtdlInfo :=
  {| videoDetails := sampleDetails; y_formats := streams |}.

(** A resolution service that answers every identifier with the given
    streams, and one that is down. *)
Definition serviceWith (streams : list YtdlFormat) (videoId : string)
  : YtdlError + YtdlInfo :=
  inr (sampleInfo streams).

Definition serviceDown (videoId : string) : YtdlError + YtdlInfo :=
  inl {| e_message := Some "connect ETIMEDOUT"; e_statusCode := None |}.

(** A relay request for the first two bytes of the muxed stream, and two
    settings of the collaborators: one where the service hands over a
    stream of four bytes, one where it throws and the direct fetch is
    answered with a plain 200. *)
Definition rangeRequest : DownloadRoute.Request :=
  {| DownloadRoute.r_videoId := Some "dQw4w9WgXcQ";
     DownloadRoute.r_itag := Some "18";
     DownloadRoute.r_range := Some "bytes=0-1" |}.

Definition streamingServices : DownloadRoute.Services :=
  {| DownloadRoute.getInfo := serviceWith [muxedStream];
     DownloadRoute.downloadFromInfo := λ _ _ _,
       inr [Byte.x01; Byte.x02; Byte.x03; Byte.x04];
     DownloadRoute.fetch := λ _ _, inl (Some "fetch failed");
     DownloadRoute.nextResponse := λ _, None |}.

Definition plainResponse : DownloadRoute.FetchResponse :=
  {| DownloadRoute.f_status := 200;
     DownloadRoute.f_statusText := "OK";
     DownloadRoute.f_headers := {[ "content-type" := "video/mp4" ]};
     DownloadRoute.f_body := [] |}.

Definition fallbackServices : DownloadRoute.Services :=
  {| DownloadRoute.getInfo := serviceWith [muxedStream];
     DownloadRoute.downloadFromInfo := λ _ _ _,
       inl {| DownloadRoute.s_statusCode := None;
              DownloadRoute.s_causeStatusCode := None;
              DownloadRoute.s_message := Some "stream setup failed" |};
     DownloadRoute.fetch := λ _ _, inr plainResponse;
     DownloadRoute.nextResponse := λ _, None |}.

(** An in-memory codec engine: a virtual file system from names to
    payloads, whose combine step throws [e]. *)
Definition failingEngine (e : Downloader.JsError)
  : Downloader.Engine (gmap string Downloader.Blob) :=
  {| Downloader.load := λ fs, (None, fs);
     Downloader.writeFile := λ path data fs, (None, <[path := data]> fs);
     Downloader.exec := λ _ fs, (Some e, fs);
     Downloader.readFile := λ path fs,
       (match fs !! path with
        | Some data => inr data
        | None => inl (Downloader.newError "ENOENT")
        end, fs);
     Downloader.deleteFile := λ path fs,
       (match fs !! path with
        | Some _ => None
        | None => Some (Downloader.newError "ENOENT")
        end, delete path fs) |}.

(** The component before any download. *)
Definition freshComponent {E} (e : E) : Downloader.Component (E := E) :=
  {| Downloader.c_progress :=
       {| Downloader.stage := idle; Downloader.progress := Downloader.num 0;
          Downloader.p_message := None |};
     Downloader.c_error := None;
     Downloader.abortControllerRef := false;
     Downloader.ffmpegRef := false;
     Downloader.engine := e;
     Downloader.engineCalls := [];
     Downloader.networkCalls := [];
     Downloader.saves := [] |}.

Definition sampleVideoInfo (fs : list VideoFormat) : VideoInfo :=
  {| videoId := "dQw4w9WgXcQ"; title := "Sample  Title!"; author := "Unknown";
     thumbnail := ""; duration := Some 61%Z; durationFormatted := "1:01";
     formats := fs |}.

End Samples.

(** ** The rest of the quality selector: what is shown as selected, and
       what a change of the selection hands over *)

Module SelectorView.
Import Video.

(** The early return of the component: "No formats available". *)
Definition noFormatsAvailable (qualityOptions : list QualityOption) : bool :=
  Nat.eqb (length qualityOptions) 0.

(** [selectedValue] *)
Definition selectedValue (selectedFormat : option VideoFormat)
    (qualityOptions : list QualityOption) : string :=
  match selectedFormat with
  | None => ""
  | Some selectedFormat =>
      let option :=
        Js.find (λ opt, (itag (format opt) =? itag selectedFormat)%Z)
          qualityOptions in
      Js.orStr (value <$> option) ""
  end.

(** The [onChange] of the select: the format handed to [onSelectFormat],
    if any. *)
Definition onChange (targetValue : string) (qualityOptions : list QualityOption)
  : option VideoFormat :=
  format <$> Js.find (λ opt, String.eqb (value opt) targetValue) qualityOptions.

End SelectorView.

(** ** Shapes of the inputs of the routes *)

Module RouteSpec.
Import InfoRoute.

(** What may follow a captured identifier: nothing, or a character that
    ends the capture. *)
Definition stopped (rest : string) : Prop :=
  match rest with
  | EmptyString => True
  | String c _ => isTokenChar c = false
  end.

(** [Number.isSafeInteger]: the integers a JavaScript number holds
    exactly, on which the decimal numeral and [parseInt] are exact. *)
Definition safeInteger (n : Z) : Prop := (- 2 ^ 53 < n < 2 ^ 53)%Z.

(** The request the fallback of [downloadBlob] sends to the relay,
    [fetch(`/api/download?videoId=${encodeURIComponent(videoId)}&itag=${itag}`,
    { signal })], as the relay reads it: the two parameters of the query,
    and no Range header. *)
Definition proxyRequest (videoId : string) (itag : Z) : DownloadRoute.Request :=
  {| DownloadRoute.r_videoId := Some videoId;
     DownloadRoute.r_itag := Some (Js.numToString itag);
     DownloadRoute.r_range := None |}.

End RouteSpec.

(** ** More sample inputs *)

Module MoreSamples.
Import InfoRoute.

(** A service that answers well-formed identifiers as [getInfo] does, and
    is down for anything else. *)
Definition guarded (getInfo : string → YtdlError + YtdlInfo) (videoId : string)
  : YtdlError + YtdlInfo :=
  if isVideoId videoId then getInfo videoId else Samples.serviceDown videoId.

(** An in-memory codec engine whose combine step writes the output
    file. *)
Definition workingEngine (output : Downloader.Blob)
  : Downloader.Engine (gmap string Downloader.Blob) :=
  {| Downloader.load := λ fs, (None, fs);
     Downloader.writeFile := λ path data fs, (None, <[path := data]> fs);
     Downloader.exec := λ _ fs, (None, <["output.mp4" := output]> fs);
     Downloader.readFile := λ path fs,
       (match fs !! path with
        | Some data => inr data
        | None => inl (Downloader.newError "ENOENT")
        end, fs);
     Downloader.deleteFile := λ path fs,
       (match fs !! path with
        | Some _ => None
        | None => Some (Downloader.newError "ENOENT")
        end, delete path fs) |}.

(** A merge on each engine, from a fresh component. *)
Definition failedMerge :=
  Downloader.mergeWithFFmpeg
    (Samples.failingEngine (Downloader.newError "Conversion failed"))
    [Byte.x01] [Byte.x02] "out.mp4"
    (Samples.freshComponent (∅ : gmap string Downloader.Blob)).

Definition workingMerge :=
  Downloader.mergeWithFFmpeg (workingEngine [Byte.x03])
    [Byte.x01] [Byte.x02] "out.mp4"
    (Samples.freshComponent (∅ : gmap string Downloader.Blob)).

(** A download of the video-only sample whose video has arrived. *)
Definition audioInFlight :=
  Downloader.download
    (Samples.failingEngine (Downloader.newError "Conversion failed"))
    (Some Samples.videoOnly1080) (Some (Samples.sampleVideoInfo Samples.catalog))
    [Downloader.OnTransfer (Downloader.XhrLoad 200 "OK" [Byte.x01])]
    (Samples.freshComponent (∅ : gmap string Downloader.Blob)).

End MoreSamples.

(** ** The progress bar *)

Module ProgressBar.

(** [Math.min(100, Math.max(0, progress))] *)
Definition clampedProgress (progress : QArith_base.Q) : QArith_base.Q :=
  Qminmax.Qmin (Downloader.num 100) (Qminmax.Qmax (Downloader.num 0) progress).

(** [Math.round(x)]: the integer nearest to [x], the upper one on a
    tie. *)
Definition round (x : QArith_base.Q) : Z :=
  Qround.Qfloor (QArith_base.Qplus x (QArith_base.Qmake 1 2)).

(** The percentage written under the bar. *)
Definition shownPercent (progress : QArith_base.Q) : Z :=
  round (clampedProgress progress).

End ProgressBar.

(** ** The panel of the downloader that fetches the video information *)

Module InfoPanel.
Import Video.

(** The state [fetchVideoInfo] reads and sets. *)
Record Panel := mkPanel {
  p_url : string;
  p_videoInfo : option VideoInfo;
  p_selectedFormat : option VideoFormat;
  p_progress : Downloader.DownloadProgress;
  p_error : option string;
  p_isLoading : bool
}.

(** What [axios.get] settles to, as far as [fetchVideoInfo] reads it: the
    body of the response, or a rejection with [err.response?.data?.message]
    and [err.message]. *)
Inductive AxiosResult :=
| Resolved (data : InfoRoute.VideoInfoResponse)
| Rejected (responseMessage : option string) (message : option string).

(** [!url.trim()]: nothing but white space. *)
Definition isBlank (s : string) : bool := InfoRoute.allChars Js.isWhiteSpace s.

Definition idleProgress : Downloader.DownloadProgress :=
  {| Downloader.stage := idle; Downloader.progress := Downloader.num 0;
     Downloader.p_message := None |}.

(** [fetchVideoInfo]; [axiosGet] answers the request for
    [/api/info?url=...] that carries the given address. The result is the
    panel while the request is in flight (if one is made), the panel once
    the promise has settled, and the addresses requested. *)
Definition fetchVideoInfo (axiosGet : string → AxiosResult) (st : Panel)
  : option Panel * Panel * list string :=
  if isBlank (p_url st) then
    (None,
     {| p_url := p_url st; p_videoInfo := p_videoInfo st;
        p_selectedFormat := p_selectedFormat st; p_progress := p_progress st;
        p_error := Some "Please enter a YouTube URL";
        p_isLoading := p_isLoading st |}, [])
  else
    let pending :=
      {| p_url := p_url st; p_videoInfo := None; p_selectedFormat := None;
         p_progress :=
           {| Downloader.stage := fetching; Downloader.progress := Downloader.num 0;
              Downloader.p_message := Some "Fetching video information..." |};
         p_error := None; p_isLoading := true |} in
    let failed (errorMessage : string) :=
      {| p_url := p_url st; p_videoInfo := None; p_selectedFormat := None;
         p_progress := idleProgress; p_error := Some errorMessage;
         p_isLoading := false |} in
    match axiosGet (p_url st) with
    | Resolved data =>
        match InfoRoute.success data, InfoRoute.data data with
        | true, Some info =>
            (Some pending,
             {| p_url := p_url st; p_videoInfo := Some info;
                p_selectedFormat := None; p_progress := idleProgress;
                p_error := None; p_isLoading := false |}, [p_url st])
        | _, _ =>
            let thrown :=
              Js.orStr (InfoRoute.message data) "Failed to fetch video information" in
            (Some pending,
             failed
               (Js.orStr (Some thrown)
                  "Failed to fetch video information. Please check the URL and try again."),
             [p_url st])
        end
    | Rejected responseMessage message =>
        (Some pending,
         failed
           (Js.orStr (DownloadRoute.orElse responseMessage message)
              "Failed to fetch video information. Please check the URL and try again."),
         [p_url st])
    end.

(** The transport between the panel and the route: [axios] resolves an
    answer with a success status to its body, and rejects any other with
    the body in [err.response.data] and a message of its own. *)
Definition axiosOver (route : option string → InfoRoute.Response) (address : string)
  : AxiosResult :=
  let response := route (Some address) in
  if (200 <=? InfoRoute.status response)%Z && (InfoRoute.status response <? 300)%Z
  then Resolved (InfoRoute.body response)
  else Rejected (InfoRoute.message (InfoRoute.body response))
         (Some ("Request failed with status code " +:+
                Js.numToString (InfoRoute.status response))).

End InfoPanel.

(** ** What the calls of a download are counted by *)

Module Observers.
Import Downloader.

Definition isLoad (c : EngineCall) : bool :=
  match c with
  | Load => true
  | _ => false
  end.

Definition isProxyFetch (c : NetworkCall) : bool :=
  match c with
  | ProxyFetch _ _ => true
  | _ => false
  end.

Definition isDownloadBlob (c : NetworkCall) : bool :=
  match c with
  | DownloadBlob _ _ _ _ => true
  | _ => false
  end.

(** [[a-z0-9_]] *)
Definition safeChar (c : ascii) : bool :=
  Js.isLower c || Js.isDigit c || Ascii.eqb c "_".

(** How many direct requests, and how many requests to the proxy, a
    download suspended at [flow] may still make. *)
Definition directBudget (flow : Flow) : nat :=
  match flow with
  | AwaitVideo _ _ _ _ _ _ => 1
  | _ => 0
  end.

Definition proxyBudget (flow : Flow) : nat :=
  match flow with
  | Done => 0
  | AwaitVideo _ ProxyPending _ _ _ _ => 1
  | AwaitVideo _ _ _ _ _ _ => 2
  | AwaitAudio _ XhrPending _ _ _ _ _ => 1
  | AwaitAudio _ _ _ _ _ _ _ => 0
  end.

(** The engine and the saves are as they were. *)
Definition untouched {E} (st st' : Component (E := E)) : Prop :=
  engineCalls st' = engineCalls st ∧ saves st' = saves st ∧
  engine st' = engine st ∧ ffmpegRef st' = ffmpegRef st.

(** The messages the [catch] of [downloadVideo] appends a tip to. *)
Definition hinted (errorMsg : string) : bool :=
  Js.includes errorMsg "403" || Js.includes errorMsg "ACCESS_DENIED" ||
  Js.includes errorMsg "forbidden" || Js.includes errorMsg "SIGNATURE_ERROR" ||
  Js.includes errorMsg "n transform" || Js.includes errorMsg "decipher" ||
  Js.includes errorMsg "NO_URL" || Js.includes errorMsg "FORMAT_NOT_FOUND".

(** The calls of a merge that goes through, after the load. *)
Definition mergeCalls : list EngineCall :=
  [WriteFile "video.mp4"; WriteFile "audio.mp4"; Exec execArgs;
   ReadFile "output.mp4"; DeleteFile "video.mp4"; DeleteFile "audio.mp4";
   DeleteFile "output.mp4"].

End Observers.

(** * Facts *)

(** ** JavaScript primitives *)

Module JsFacts.
Import Js.

Lemma orNum_default (x : option Z) : orNum x 0 = default 0%Z x.
Proof.
  destruct x as [v|]; simpl; [|done].
  destruct (Z.eqb_spec v 0); congruence.
Qed.

Lemma to_int_not_nil (n : Z) :
  Z.to_int n ≠ Decimal.Pos Decimal.Nil ∧ Z.to_int n ≠ Decimal.Neg Decimal.Nil.
Proof.
  assert (Hn : Decimal.norm (Z.to_int n) = Z.to_int n)
    by (rewrite <- DecimalZ.to_of, DecimalZ.of_to; reflexivity).
  split; intros E; rewrite E in Hn; discriminate Hn.
Qed.

Lemma numToString_inj (m n : Z) : numToString m = numToString n → m = n.
Proof.
  unfold numToString. intros E.
  apply DecimalZ.to_int_inj.
  destruct (to_int_not_nil m) as [Hm1 Hm2], (to_int_not_nil n) as [Hn1 Hn2].
  pose proof (NilZero.isi _ Hm1 Hm2) as Pm.
  pose proof (NilZero.isi _ Hn1 Hn2) as Pn.
  rewrite E in Pm. congruence.
Qed.

Lemma append_length (s t : string) :
  String.length (s +:+ t) = String.length s + String.length t.
Proof. induction s as [|c s IH]; simpl; [done | by rewrite IH]. Qed.

Lemma append_inv_tail (s1 s2 t : string) : s1 +:+ t = s2 +:+ t → s1 = s2.
Proof.
  revert s2. induction s1 as [|c s1 IH]; intros [|d s2] E; simpl in E.
  - done.
  - apply (f_equal String.length) in E.
    change (String.length t = S (String.length (s2 +:+ t))) in E.
    rewrite append_length in E. lia.
  - apply (f_equal String.length) in E.
    change (S (String.length (s1 +:+ t)) = String.length t) in E.
    rewrite append_length in E. lia.
  - injection E as -> E. f_equal. by apply IH.
Qed.

Lemma append_inv_head (s t1 t2 : string) : s +:+ t1 = s +:+ t2 → t1 = t2.
Proof. induction s as [|c s IH]; simpl; [done|]. intros [= E]. by apply IH. Qed.

Section SortFacts.
Context {A : Type} (cmp : A → A → Z).

Lemma insertSorted_Permutation (x : A) (l : list A) :
  insertSorted cmp x l ≡ₚ x :: l.
Proof.
  induction l as [|y l IH]; simpl; [done|].
  destruct (cmp x y <=? 0)%Z; [done|].
  rewrite IH. apply Permutation_swap.
Qed.

Lemma sort_Permutation (l : list A) : sort cmp l ≡ₚ l.
Proof.
  induction l as [|x l IH]; simpl; [done|].
  by rewrite insertSorted_Permutation, IH.
Qed.

Lemma sort_length (l : list A) : length (sort cmp l) = length l.
Proof. apply Permutation_length, sort_Permutation. Qed.

(** What [sort] returns for a comparator that decides a relation
    [before]: the insertion sort along that relation. *)
Lemma head_insertSorted (x : A) (l : list A) :
  head (insertSorted cmp x l) =
  match head l with
  | Some y => if (cmp x y <=? 0)%Z then Some x else Some y
  | None => Some x
  end.
Proof. destruct l as [|y l]; simpl; [done|]. by destruct (cmp x y <=? 0)%Z. Qed.

End SortFacts.

End JsFacts.

(** ** The quality selector *)

Module SelectorFacts.
Import Video QualitySelector SelectorSpec JsFacts.

Lemma byBitrate_le (x y : VideoFormat) :
  (byBitrate x y <=? 0)%Z = negb (bitrateOr0 x <? bitrateOr0 y)%Z.
Proof.
  unfold byBitrate, bitrateOr0. rewrite !orNum_default.
  set (bx := default 0%Z (bitrate x)). set (b_y := default 0%Z (bitrate y)).
  destruct (Z.leb_spec (b_y - bx) 0), (Z.ltb_spec bx b_y); simpl; (done || lia).
Qed.

(** The head of the bitrate sort is the descriptor of highest bitrate. *)
Lemma head_sort_byBitrate (l : list VideoFormat) :
  head (Js.sort byBitrate l) = highestBitrate l.
Proof.
  induction l as [|x l IH]; simpl; [done|].
  rewrite head_insertSorted, IH.
  destruct (highestBitrate l) as [y|]; [|done].
  rewrite byBitrate_le. by destruct (bitrateOr0 x <? bitrateOr0 y)%Z.
Qed.

Lemma byHeightThenBitrate_le (x y : VideoFormat) :
  (byHeightThenBitrate x y <=? 0)%Z = bool_decide (descending x y).
Proof.
  unfold byHeightThenBitrate, descending, bitrateOr0, heightOr0.
  rewrite !orNum_default.
  set (hx := default 0%Z (height x)). set (hy := default 0%Z (height y)).
  set (bx := default 0%Z (bitrate x)). set (b_y := default 0%Z (bitrate y)).
  destruct (Z.eqb_spec hx hy) as [E|E]; simpl.
  - destruct (Z.leb_spec (b_y - bx) 0).
    + symmetry. apply bool_decide_eq_true. right. split; [done | lia].
    + symmetry. apply bool_decide_eq_false. intros [?|[_ ?]]; lia.
  - destruct (Z.leb_spec (hy - hx) 0).
    + symmetry. apply bool_decide_eq_true. left. lia.
    + symmetry. apply bool_decide_eq_false. intros [?|[? _]]; lia.
Qed.

Lemma insertSorted_descending (x : VideoFormat) (l : list VideoFormat) :
  Js.insertSorted byHeightThenBitrate x l = insertDescending x l.
Proof.
  induction l as [|y l IH]; simpl; [done|].
  rewrite byHeightThenBitrate_le, IH.
  case_bool_decide; case_decide; done.
Qed.

Lemma sort_descending (l : list VideoFormat) :
  Js.sort byHeightThenBitrate l = sortDescending l.
Proof.
  induction l as [|x l IH]; simpl; [done|].
  by rewrite IH, insertSorted_descending.
Qed.

(** [descending] is a total preorder, so that the insertion sort along it
    sorts. *)
Lemma descending_total (a b : VideoFormat) : descending a b ∨ descending b a.
Proof. unfold descending. lia. Qed.

Lemma descending_trans (a b c : VideoFormat) :
  descending a b → descending b c → descending a c.
Proof. unfold descending. lia. Qed.

Lemma insertDescending_Permutation (x : VideoFormat) (l : list VideoFormat) :
  insertDescending x l ≡ₚ x :: l.
Proof.
  induction l as [|y l IH]; simpl; [done|].
  destruct (decide (descending x y)); [done|].
  rewrite IH. apply Permutation_swap.
Qed.

Lemma sortDescending_Permutation (l : list VideoFormat) : sortDescending l ≡ₚ l.
Proof.
  induction l as [|x l IH]; simpl; [done|].
  by rewrite insertDescending_Permutation, IH.
Qed.

Lemma insertDescending_sorted (x : VideoFormat) (l : list VideoFormat) :
  StronglySorted descending l → StronglySorted descending (insertDescending x l).
Proof.
  induction l as [|y l IH]; simpl; intros Hs.
  - repeat constructor.
  - apply StronglySorted_inv in Hs as [Hl Hy].
    destruct (decide (descending x y)) as [Hxy|Hxy].
    + constructor; [by constructor|].
      constructor; [done|].
      eapply Forall_impl; [exact Hy|].
      intros z Hz. by eapply descending_trans.
    + constructor; [by apply IH|].
      rewrite insertDescending_Permutation. constructor; [|done].
      by destruct (descending_total x y).
Qed.

Lemma sortDescending_sorted (l : list VideoFormat) :
  StronglySorted descending (sortDescending l).
Proof.
  induction l as [|x l IH]; simpl; [constructor|].
  by apply insertDescending_sorted.
Qed.

(** The descriptor [highestBitrate] picks is in the list and none beats it. *)
Lemma highestBitrate_None (l : list VideoFormat) :
  highestBitrate l = None ↔ l = [].
Proof.
  split; [|by intros ->].
  destruct l as [|x l]; [done|]. simpl.
  destruct (highestBitrate l) as [y|]; [|done].
  by destruct (bitrateOr0 x <? bitrateOr0 y)%Z.
Qed.

Lemma highestBitrate_Some (l : list VideoFormat) (best : VideoFormat) :
  highestBitrate l = Some best →
  best ∈ l ∧ ∀ f, f ∈ l → (bitrateOr0 f ≤ bitrateOr0 best)%Z.
Proof.
  revert best. induction l as [|x l IH]; intros best; simpl; [done|].
  destruct (highestBitrate l) as [y|] eqn:Ey.
  - destruct (IH y eq_refl) as [Hy Hmax].
    destruct (Z.ltb_spec (bitrateOr0 x) (bitrateOr0 y)); intros [= <-].
    + split; [by right|].
      intros f [->|Hf]%elem_of_cons; [lia | by apply Hmax].
    + split; [by left|].
      intros f [->|Hf]%elem_of_cons; [lia|].
      specialize (Hmax f Hf). lia.
  - apply highestBitrate_None in Ey as ->. intros [= <-].
    split; [by left|].
    intros f [->|Hf]%elem_of_cons; [lia | by apply elem_of_nil in Hf].
Qed.

(** The string key of the [seen] set identifies the pair
    (height-or-0, hasAudio). *)
Lemma append_true_false (s1 s2 : string) : s1 +:+ "-true" ≠ s2 +:+ "-false".
Proof.
  revert s2. induction s1 as [|c s1 IH]; intros [|d s2] E; simpl in E.
  - discriminate E.
  - apply (f_equal String.length) in E.
    change (5 = S (String.length (s2 +:+ "-false"))) in E.
    rewrite append_length in E. simpl in E. lia.
  - injection E as _ E. destruct s1 as [|c1 s1]; [discriminate E|].
    apply (f_equal String.length) in E.
    change (S (String.length (s1 +:+ "-true")) = 5) in E.
    rewrite append_length in E. simpl in E. lia.
  - injection E as _ E. by apply (IH s2).
Qed.

Lemma seenKey_inj (f g : VideoFormat) :
  seenKey f = seenKey g ↔ dedupKey f = dedupKey g.
Proof.
  unfold seenKey, dedupKey, heightOr0. rewrite !orNum_default. split.
  - destruct (hasAudio f), (hasAudio g); simpl; intros E.
    + by apply append_inv_tail, numToString_inj in E as ->.
    + by apply append_true_false in E.
    + symmetry in E. by apply append_true_false in E.
    + by apply append_inv_tail, numToString_inj in E as ->.
  - by intros [= -> ->].
Qed.

(** The loop over the sorted video formats emits the first-seen
    descriptors, as long as the [seen] set holds the keys already
    emitted. *)
Lemma fold_videoStep (l : list VideoFormat) (options : list QualityOption)
    (seen : gset string) (emitted : list (Z * bool)) :
  (∀ f, seenKey f ∈ seen ↔ dedupKey f ∈ emitted) →
  fst (fold_left videoStep l (options, seen)) =
  options ++ map videoOption (firstSeen emitted l).
Proof.
  revert options seen emitted.
  induction l as [|f l IH]; intros options seen emitted Hrel; simpl.
  - by rewrite app_nil_r.
  - destruct (decide (seenKey f ∈ seen)) as [Hin|Hin];
      destruct (decide (dedupKey f ∈ emitted)) as [Hin'|Hin'];
      try (exfalso; apply Hrel in Hin || apply Hrel in Hin'; done).
    + by apply IH.
    + rewrite (IH _ _ (dedupKey f :: emitted)).
      * by rewrite <- app_assoc.
      * intros g. rewrite elem_of_union, elem_of_singleton, elem_of_cons.
        by rewrite seenKey_inj, Hrel.
Qed.

Lemma append_assoc (s t u : string) : (s +:+ t) +:+ u = s +:+ t +:+ u.
Proof.
  induction s as [|c s IH]; [done|].
  change (String c ((s +:+ t) +:+ u) = String c (s +:+ t +:+ u)). by f_equal.
Qed.

Lemma videoLabel_codeLabel (f : VideoFormat) : videoLabel f = codeLabel f.
Proof.
  unfold videoLabel, codeLabel, heightOrUnknown, heightOr0.
  assert (E : match height f with
              | Some h => if (h =? 0)%Z then "?" else Js.numToString h
              | None => "?"
              end =
              if decide (default 0%Z (height f) = 0%Z) then "?"
              else Js.numToString (default 0%Z (height f))).
  { destruct (height f) as [h|]; simpl; [|done].
    destruct (Z.eqb_spec h 0); case_decide; done. }
  rewrite E. destruct (hasAudio f); by rewrite !append_assoc.
Qed.

Lemma videoOption_videoChoice (f : VideoFormat) :
  videoOption f = videoChoice codeLabel f.
Proof. unfold videoOption, videoChoice. by rewrite videoLabel_codeLabel. Qed.

(** The component computes the options of the specification, with the
    label as the component spells it. *)
Lemma qualityOptions_buildOptions (formats : list VideoFormat) :
  qualityOptions formats = buildOptions codeLabel formats.
Proof.
  unfold qualityOptions, buildOptions, audioFormats, videoFormats.
  rewrite (fold_videoStep _ _ _ []) by set_solver.
  rewrite sort_descending. f_equal.
  - rewrite <- head_sort_byBitrate.
    by destruct (Js.sort byBitrate _).
  - apply map_ext. intros f. apply videoOption_videoChoice.
Qed.

(** What is kept by a filter, and by the first-seen pass, is a
    sub-list. *)
Lemma filter_sublist {A} (p : A → bool) (l : list A) :
  List.filter p l `sublist_of` l.
Proof.
  induction l as [|x l IH]; simpl; [done|].
  destruct (p x); by constructor.
Qed.

Lemma elem_of_filter {A} (p : A → bool) (l : list A) (x : A) :
  x ∈ List.filter p l ↔ x ∈ l ∧ p x = true.
Proof. rewrite !list_elem_of_In. apply filter_In. Qed.

Lemma firstSeen_sublist (emitted : list (Z * bool)) (l : list VideoFormat) :
  firstSeen emitted l `sublist_of` l.
Proof.
  revert emitted. induction l as [|f l IH]; intros emitted; simpl; [done|].
  case_decide; constructor; apply IH.
Qed.

(** The first-seen pass emits every key once, and a descriptor for every
    key it meets. *)
Lemma firstSeen_keys (emitted : list (Z * bool)) (l : list VideoFormat) :
  NoDup emitted →
  NoDup (map dedupKey (firstSeen emitted l) ++ emitted) ∧
  ∀ f, f ∈ l → dedupKey f ∈ map dedupKey (firstSeen emitted l) ++ emitted.
Proof.
  revert emitted. induction l as [|f l IH]; intros emitted Hnd; simpl.
  - split; [done|]. intros f Hf. by apply elem_of_nil in Hf.
  - case_decide as Hin.
    + destruct (IH emitted Hnd) as [IH1 IH2]. split; [done|].
      intros g [->|Hg]%elem_of_cons; [|by apply IH2].
      apply elem_of_app. by right.
    + assert (Hnd' : NoDup (dedupKey f :: emitted)) by by constructor.
      destruct (IH _ Hnd') as [IH1 IH2]. simpl. split.
      * apply NoDup_cons. split.
        -- apply NoDup_app in IH1 as (_ & Hdisj & _).
           rewrite elem_of_app. intros [Hf|Hf]; [|done].
           apply (Hdisj _ Hf). by left.
        -- apply NoDup_app in IH1 as (H1 & Hdisj & H2).
           apply NoDup_app. split_and!; [done| |by apply NoDup_cons in H2 as [_ ?]].
           intros k Hk Hk'. apply (Hdisj k Hk). by right.
      * intros g [->|Hg]%elem_of_cons; [by left|].
        specialize (IH2 g Hg). rewrite elem_of_app, elem_of_cons in IH2.
        rewrite elem_of_cons, elem_of_app. tauto.
Qed.

(** C2 (as amended). For every catalog the selector returns the options
    of the specification, in its order, with the labels as the component
    spells them: first, when some descriptor is audio-only, one audio
    option on the audio-only descriptor of highest bitrate (a member of
    the catalog that no audio-only descriptor beats, a missing bitrate
    counting as 0), and none when no descriptor is audio-only; then the
    descriptors with video, sorted descending by height then bitrate (a
    sorted permutation of them), deduplicated first-seen by the key
    (height-or-0, hasAudio) (the sorted order kept, every key met emitted
    once), each with [requiresMerge] equal to not
    hasAudio and with the label [codeLabel]: the quality label, or the
    height followed by p, or ?p when there is neither a label nor a
    non-zero height, then the upper-cased container, then
    (Video + Audio) or (Video Only - will merge with audio), the latter
    spelt with a hyphen. *)
Theorem C2_qualityOptions_order (formats : list VideoFormat) :
  qualityOptions formats = buildOptions codeLabel formats ∧
  (∀ best, highestBitrate (List.filter audioOnly formats) = Some best →
     best ∈ formats ∧ audioOnly best = true ∧
     ∀ f, f ∈ formats → audioOnly f = true → (bitrateOr0 f ≤ bitrateOr0 best)%Z) ∧
  (highestBitrate (List.filter audioOnly formats) = None ↔
     ∀ f, f ∈ formats → audioOnly f = false) ∧
  sortDescending (List.filter hasVideo formats) ≡ₚ List.filter hasVideo formats ∧
  StronglySorted descending (sortDescending (List.filter hasVideo formats)) ∧
  firstSeen [] (sortDescending (List.filter hasVideo formats))
    `sublist_of` sortDescending (List.filter hasVideo formats) ∧
  NoDup (map dedupKey
           (firstSeen [] (sortDescending (List.filter hasVideo formats)))) ∧
  (∀ f, f ∈ formats → hasVideo f = true →
     dedupKey f ∈ map dedupKey
       (firstSeen [] (sortDescending (List.filter hasVideo formats)))).
Proof.
  split_and!.
  - apply qualityOptions_buildOptions.
  - intros best Hbest. apply highestBitrate_Some in Hbest as [Hin Hmax].
    apply elem_of_filter in Hin as [Hin Haudio]. split_and!; [done..|].
    intros f Hf Hfa. apply Hmax, elem_of_filter. done.
  - rewrite highestBitrate_None. split.
    + intros Hnil f Hf. destruct (audioOnly f) eqn:Ef; [|done].
      assert (Hin : f ∈ List.filter audioOnly formats) by by apply elem_of_filter.
      rewrite Hnil in Hin. by apply elem_of_nil in Hin.
    + intros Hall. destruct (List.filter audioOnly formats) as [|x l] eqn:El; [done|].
      assert (Hin : x ∈ List.filter audioOnly formats) by (rewrite El; left).
      apply elem_of_filter in Hin as [Hin Hx]. by rewrite (Hall x Hin) in Hx.
  - apply sortDescending_Permutation.
  - apply sortDescending_sorted.
  - apply firstSeen_sublist.
  - destruct (firstSeen_keys [] (sortDescending (List.filter hasVideo formats)))
      as [Hnd _]; [constructor|]. by rewrite app_nil_r in Hnd.
  - intros f Hf Hv.
    destruct (firstSeen_keys [] (sortDescending (List.filter hasVideo formats)))
      as [_ Hall]; [constructor|].
    rewrite <- (app_nil_r (map dedupKey _)). apply Hall.
    rewrite sortDescending_Permutation. by apply elem_of_filter.
Qed.

Lemma C2_qualityOptions_order_witness :
  qualityOptions Samples.catalog = buildOptions codeLabel Samples.catalog ∧
  highestBitrate (List.filter audioOnly Samples.catalog) = Some Samples.audio128 ∧
  (bitrateOr0 Samples.audio64 ≤ bitrateOr0 Samples.audio128)%Z.
Proof.
  destruct (C2_qualityOptions_order Samples.catalog) as (Heq & Hbest & _).
  split; [exact Heq|]. split; [reflexivity|].
  apply (Hbest Samples.audio128); [reflexivity| |reflexivity].
  apply elem_of_cons; right; apply elem_of_cons; left; reflexivity.
Defined.

(** C2 (as stated) fails: on a catalog with a video-only descriptor and a
    muxed one without height or quality label, the labels the selector
    computes are not those of the specification (a hyphen, not a dash,
    in the video-only suffix; ?p, not 0p). *)
Lemma C2_label_counterexample :
  qualityOptions Samples.unlabelled ≠ buildOptions specLabel Samples.unlabelled ∧
  map label (qualityOptions Samples.unlabelled) =
    ["1080p MP4 (Video Only - will merge with audio)"; "?p MP4 (Video + Audio)"].
Proof. split; [intros E; vm_compute in E; discriminate E | vm_compute; reflexivity]. Qed.

(** Closes a goal [k ∉ [k1; ...; kn]] on keys that differ by
    computation. *)
Ltac distinct_keys :=
  let Hin := fresh "Hin" in
  intros Hin;
  repeat (apply elem_of_cons in Hin as [Hin|Hin]; [discriminate Hin|]);
  by apply elem_of_nil in Hin.

(** C1 (as amended). On a catalog of two audio-only descriptors of
    bitrates 128000 and 64000 and three video descriptors (1080p with
    audio, 1080p without audio, 720p with audio) the selector returns
    exactly four options: the audio option on the 128000 descriptor, the
    two 1080p options (the one of higher bitrate first, the one with audio
    first when the bitrates tie), then the 720p option. The 1080p
    descriptor without audio keeps its option, since its key differs from
    that of the 1080p descriptor with audio. *)
Theorem C1_sample_catalog (a1 a2 v1 v2 v3 : VideoFormat) :
  audioOnly a1 = true → bitrate a1 = Some 128000%Z →
  audioOnly a2 = true → bitrate a2 = Some 64000%Z →
  hasVideo v1 = true → hasAudio v1 = true → height v1 = Some 1080%Z →
  hasVideo v2 = true → hasAudio v2 = false → height v2 = Some 1080%Z →
  hasVideo v3 = true → hasAudio v3 = true → height v3 = Some 720%Z →
  qualityOptions [a1; a2; v1; v2; v3] =
  audioOption a1 ::
  (if (bitrateOr0 v1 <? bitrateOr0 v2)%Z
   then [videoOption v2; videoOption v1]
   else [videoOption v1; videoOption v2]) ++ [videoOption v3].
Proof.
  intros Ha1 Hb1 Ha2 Hb2 Hv1 Hx1 Hh1 Hv2 Hx2 Hh2 Hv3 Hx3 Hh3.
  rewrite qualityOptions_buildOptions. unfold buildOptions.
  assert (Hn1 : hasVideo a1 = false)
    by (unfold audioOnly in Ha1; destruct (hasVideo a1), (hasAudio a1); done).
  assert (Hn2 : hasVideo a2 = false)
    by (unfold audioOnly in Ha2; destruct (hasVideo a2), (hasAudio a2); done).
  assert (Hf1 : audioOnly v1 = false) by (unfold audioOnly; by rewrite Hv1, Hx1).
  assert (Hf2 : audioOnly v2 = false) by (unfold audioOnly; by rewrite Hv2, Hx2).
  assert (Hf3 : audioOnly v3 = false) by (unfold audioOnly; by rewrite Hv3, Hx3).
  cbn [List.filter].
  rewrite Ha1, Ha2, Hf1, Hf2, Hf3, Hn1, Hn2, Hv1, Hv2, Hv3.
  assert (Hbest : highestBitrate [a1; a2] = Some a1).
  { cbn [highestBitrate]. unfold bitrateOr0. by rewrite Hb1, Hb2. }
  rewrite Hbest.
  assert (Hd23 : descending v2 v3) by (left; unfold heightOr0; rewrite Hh2, Hh3; done).
  assert (Hd13 : descending v1 v3) by (left; unfold heightOr0; rewrite Hh1, Hh3; done).
  assert (Hk1 : dedupKey v1 = (1080%Z, true))
    by (unfold dedupKey, heightOr0; by rewrite Hh1, Hx1).
  assert (Hk2 : dedupKey v2 = (1080%Z, false))
    by (unfold dedupKey, heightOr0; by rewrite Hh2, Hx2).
  assert (Hk3 : dedupKey v3 = (720%Z, true))
    by (unfold dedupKey, heightOr0; by rewrite Hh3, Hx3).
  cbn [sortDescending insertDescending].
  rewrite (decide_True _ _ Hd23). cbn [insertDescending].
  change (audioChoice a1) with (audioOption a1).
  rewrite !videoOption_videoChoice.
  destruct (Z.ltb_spec (bitrateOr0 v1) (bitrateOr0 v2)) as [Hlt|Hge].
  - rewrite decide_False
      by (unfold descending, heightOr0; rewrite Hh1, Hh2; simpl; lia).
    cbn [insertDescending]. rewrite (decide_True _ _ Hd13).
    cbn [firstSeen]. rewrite Hk1, Hk2, Hk3.
    rewrite !decide_False; [done|..]; distinct_keys.
  - rewrite decide_True
      by (right; unfold heightOr0; rewrite Hh1, Hh2; simpl; lia).
    cbn [firstSeen]. rewrite Hk1, Hk2, Hk3.
    rewrite !decide_False; [done|..]; distinct_keys.
Qed.

Lemma C1_sample_catalog_witness :
  qualityOptions Samples.catalog =
  [audioOption Samples.audio128; videoOption Samples.muxed1080;
   videoOption Samples.videoOnly1080; videoOption Samples.muxed720].
Proof.
  exact (C1_sample_catalog Samples.audio128 Samples.audio64 Samples.muxed1080
           Samples.videoOnly1080 Samples.muxed720
           eq_refl eq_refl eq_refl eq_refl eq_refl eq_refl eq_refl eq_refl
           eq_refl eq_refl eq_refl eq_refl eq_refl).
Defined.

(** C1 (as stated) fails: on the sample catalog the selector does not
    return the three options of the claim; the 1080p descriptor without
    audio has an option of its own. *)
Lemma C1_three_options_counterexample :
  qualityOptions Samples.catalog ≠
    [audioOption Samples.audio128; videoOption Samples.muxed1080;
     videoOption Samples.muxed720] ∧
  length (qualityOptions Samples.catalog) = 4 ∧
  videoOption Samples.videoOnly1080 ∈ qualityOptions Samples.catalog.
Proof.
  split; [intros E; vm_compute in E; discriminate E|].
  split; [vm_compute; reflexivity|].
  vm_compute. do 2 right. left.
Qed.

(** The descriptors behind the video options: a sub-list of a
    permutation of the catalog's descriptors with video. *)
Lemma videoChoices_itags (formats : list VideoFormat) :
  NoDup (itag <$> formats) →
  NoDup (itag <$> firstSeen [] (sortDescending (List.filter hasVideo formats))).
Proof.
  intros Hnd.
  eapply sublist_NoDup; [|apply fmap_sublist, firstSeen_sublist].
  rewrite sortDescending_Permutation.
  eapply sublist_NoDup; [exact Hnd|]. apply fmap_sublist, filter_sublist.
Qed.

Lemma videoChoices_hasVideo (formats : list VideoFormat) (f : VideoFormat) :
  f ∈ firstSeen [] (sortDescending (List.filter hasVideo formats)) →
  f ∈ formats ∧ hasVideo f = true.
Proof.
  intros Hf. apply (λ H, elem_of_sublist _ _ _ H (firstSeen_sublist _ _)) in Hf.
  rewrite sortDescending_Permutation in Hf. by apply elem_of_filter in Hf.
Qed.

Lemma itag_inj_on (formats : list VideoFormat) (f g : VideoFormat) :
  NoDup (itag <$> formats) → f ∈ formats → g ∈ formats → itag f = itag g → f = g.
Proof.
  induction formats as [|x l IH]; intros Hnd Hf Hg E.
  - by apply elem_of_nil in Hf.
  - rewrite fmap_cons in Hnd. apply NoDup_cons in Hnd as [Hx Hnd].
    apply elem_of_cons in Hf as [->|Hf]; apply elem_of_cons in Hg as [->|Hg].
    + done.
    + exfalso. apply Hx. rewrite E. by apply list_elem_of_fmap_2.
    + exfalso. apply Hx. rewrite <- E. by apply list_elem_of_fmap_2.
    + by apply IH.
Qed.

Lemma video_value_inj : Inj eq eq (λ i, "video-" +:+ Js.numToString i).
Proof. intros i j E. by apply append_inv_head, numToString_inj in E. Qed.

(** C10. When the descriptors of a catalog have pairwise distinct itags,
    the options of the selector have pairwise distinct value keys, the
    key of the audio option being audio- followed by the itag and the key
    of a video option video- followed by the itag, and the descriptors of
    the options have pairwise distinct itags: an option is found by its
    value key, or by the itag of its descriptor, without ambiguity. *)
Theorem C10_value_keys_distinct (formats : list VideoFormat) :
  NoDup (map itag formats) →
  NoDup (map value (qualityOptions formats)) ∧
  NoDup (map (λ o, itag (format o)) (qualityOptions formats)) ∧
  ∀ o, o ∈ qualityOptions formats →
    value o = (match group o with audio => "audio-" | video => "video-" end)
              +:+ Js.numToString (itag (format o)).
Proof.
  intros Hnd. change (NoDup (itag <$> formats)) in Hnd.
  rewrite qualityOptions_buildOptions. unfold buildOptions.
  set (vs := firstSeen [] (sortDescending (List.filter hasVideo formats))).
  pose proof (videoChoices_itags formats Hnd) as Hvs. fold vs in Hvs.
  assert (Hvalues : map value (map (videoChoice codeLabel) vs) =
                    (λ i, "video-" +:+ Js.numToString i) <$> (itag <$> vs)).
  { rewrite <- list_fmap_compose. by rewrite map_map. }
  assert (Hitags : map (λ o, itag (format o)) (map (videoChoice codeLabel) vs) =
                   itag <$> vs) by by rewrite map_map.
  assert (Hgroups : ∀ o, o ∈ map (videoChoice codeLabel) vs →
            value o = (match group o with audio => "audio-" | video => "video-" end)
                      +:+ Js.numToString (itag (format o))).
  { intros o Ho. change (o ∈ videoChoice codeLabel <$> vs) in Ho.
    apply list_elem_of_fmap in Ho as (f & -> & _). done. }
  destruct (highestBitrate (List.filter audioOnly formats)) as [best|] eqn:Eb;
    simpl.
  - apply highestBitrate_Some in Eb as [Hbest _].
    apply elem_of_filter in Hbest as [Hbest Haudio].
    rewrite Hvalues, Hitags. split_and!.
    + apply NoDup_cons. split; [|by apply (@NoDup_fmap_2 _ _ _ video_value_inj)].
      intros Hin. apply list_elem_of_fmap in Hin as (i & E & _). discriminate E.
    + apply NoDup_cons. split; [|done].
      intros Hin. apply list_elem_of_fmap in Hin as (f & E & Hf).
      apply videoChoices_hasVideo in Hf as [Hf Hv].
      apply (itag_inj_on formats _ _ Hnd Hbest Hf) in E. subst f.
      unfold audioOnly in Haudio. rewrite Hv in Haudio.
      by destruct (hasAudio best).
    + intros o [->|Ho]%elem_of_cons; [done | by apply Hgroups].
  - rewrite Hvalues, Hitags.
    split_and!; [by apply (@NoDup_fmap_2 _ _ _ video_value_inj)|done|done].
Qed.

Lemma C10_value_keys_distinct_witness :
  NoDup (map value (qualityOptions Samples.catalog)).
Proof.
  apply (C10_value_keys_distinct Samples.catalog).
  simpl. repeat (apply NoDup_cons; split; [distinct_keys|]). apply NoDup_nil_2.
Defined.

End SelectorFacts.

(** ** The info route *)

Module InfoFacts.
Import Video InfoRoute CatalogSpec JsFacts.

Lemma prefix_spec (p s : string) :
  String.prefix p s = true ↔ ∃ rest, s = p +:+ rest.
Proof.
  revert s. induction p as [|a p IH]; intros [|b s]; simpl.
  - split; [by exists "" | done].
  - split; [by exists (String b s) | done].
  - split; [done | by intros [rest ?]].
  - destruct (Ascii.ascii_dec a b) as [->|Hne].
    + rewrite IH. split; intros [rest E]; exists rest.
      * by rewrite E.
      * by injection E.
    + split; [done|]. intros [rest E]. injection E as E1 E2. congruence.
Qed.

Lemma includes_spec (s p : string) :
  Js.includes s p = true ↔ ∃ before after, s = before +:+ p +:+ after.
Proof.
  induction s as [|c s IH]; cbn [Js.includes].
  - rewrite orb_false_r, prefix_spec. split.
    + intros [rest E]. by exists "", rest.
    + intros ([|d before] & after & E); [by exists after | discriminate E].
  - rewrite orb_true_iff, IH, prefix_spec. split.
    + intros [[rest E]|(before & after & E)].
      * by exists "", rest.
      * exists (String c before), after. by rewrite E.
    + intros ([|d before] & after & E).
      * left. by exists after.
      * right. injection E as _ E. by exists before, after.
Qed.

Lemma isWebP_spec (d : VideoFormat) : isWebP d = true ↔ indicatesWebP d.
Proof.
  unfold isWebP, indicatesWebP.
  by rewrite orb_true_iff, includes_spec, String.eqb_eq.
Qed.

Lemma hasValidUrl_spec (d : VideoFormat) : hasValidUrl d = true ↔ playable d.
Proof.
  unfold hasValidUrl, playable, Js.startsWith. destruct (url d) as [u|].
  - rewrite !andb_true_iff, prefix_spec. split.
    + intros [[Ht _] Hp]. exists u. split_and!; [done| |done].
      intros ->. discriminate Ht.
    + intros (address & [= <-] & Hne & Hp). destruct u as [|c u]; done.
  - split; [done | by intros (? & ? & _)].
Qed.

Lemma keepFormat_spec (d : VideoFormat) :
  keepFormat d = true ↔ ¬ indicatesWebP d ∧ playable d.
Proof.
  unfold keepFormat.
  rewrite andb_true_iff, negb_true_iff, <- hasValidUrl_spec, <- isWebP_spec.
  by rewrite not_true_iff_false.
Qed.

(** Past the validation of the address and with an answer of the
    resolution service, the handler succeeds. *)
Lemma GET_success (address videoId : string)
    (getInfo : string → YtdlError + YtdlInfo) (info : YtdlInfo) :
  Js.truthyStr (Some address) = true →
  extractVideoId address = Some videoId →
  isVideoId videoId = true →
  getInfo videoId = inr info →
  ∃ catalog,
    GET (Some address) getInfo =
      {| status := 200;
         body := {| success := true; data := Some catalog;
                    error := None; message := None |} |} ∧
    formats catalog = List.filter keepFormat (map parseFormat (y_formats info)).
Proof.
  intros Ht He Hv Hi. unfold GET. rewrite Ht. simpl. rewrite He, Hv. simpl.
  rewrite Hi. eexists. split; reflexivity.
Qed.

(** C3. Whenever the resolution service answers, the formats list the
    info endpoint returns holds exactly the normalized descriptors whose
    container and MIME type do not indicate WebP and whose playable
    address is present, non-empty and starts with http, in the order of
    the service; and when no descriptor survives the endpoint still
    answers with success (status 200) and an empty formats list. *)
Theorem C3_catalog_filters (address videoId : string)
    (getInfo : string → YtdlError + YtdlInfo) (info : YtdlInfo) :
  Js.truthyStr (Some address) = true →
  extractVideoId address = Some videoId →
  isVideoId videoId = true →
  getInfo videoId = inr info →
  ∃ catalog,
    GET (Some address) getInfo =
      {| status := 200;
         body := {| success := true; data := Some catalog;
                    error := None; message := None |} |} ∧
    (∀ d, d ∈ formats catalog ↔
          d ∈ map parseFormat (y_formats info) ∧ ¬ indicatesWebP d ∧ playable d) ∧
    formats catalog `sublist_of` map parseFormat (y_formats info) ∧
    ((∀ d, d ∈ map parseFormat (y_formats info) → indicatesWebP d ∨ ¬ playable d) →
     formats catalog = []).
Proof.
  intros Ht He Hv Hi.
  destruct (GET_success _ _ _ _ Ht He Hv Hi) as (catalog & HG & Hf).
  exists catalog. split; [done|]. rewrite Hf. split_and!.
  - intros d. by rewrite SelectorFacts.elem_of_filter, keepFormat_spec.
  - apply SelectorFacts.filter_sublist.
  - intros Hnone.
    destruct (List.filter keepFormat _) as [|d l] eqn:El; [done|].
    assert (Hd : d ∈ List.filter keepFormat (map parseFormat (y_formats info)))
      by (rewrite El; left).
    apply SelectorFacts.elem_of_filter in Hd as [Hd Hk].
    apply keepFormat_spec in Hk as [Hw Hp].
    destruct (Hnone d Hd); done.
Qed.

Lemma C3_catalog_filters_witness :
  ∃ catalog,
    GET (Some "https://youtu.be/dQw4w9WgXcQ")
        (Samples.serviceWith [Samples.webpStream; Samples.unresolvedStream]) =
      {| status := 200;
         body := {| success := true; data := Some catalog;
                    error := None; message := None |} |} ∧
    formats catalog = [].
Proof.
  destruct (C3_catalog_filters "https://youtu.be/dQw4w9WgXcQ" "dQw4w9WgXcQ"
              (Samples.serviceWith [Samples.webpStream; Samples.unresolvedStream])
              (Samples.sampleInfo [Samples.webpStream; Samples.unresolvedStream])
              eq_refl eq_refl eq_refl eq_refl) as (catalog & HG & _ & _ & Hempty).
  exists catalog. split; [exact HG|]. apply Hempty.
  intros d Hd. vm_compute in Hd.
  apply elem_of_cons in Hd as [->|Hd].
  - left. right. reflexivity.
  - apply elem_of_cons in Hd as [->|Hd]; [|by apply elem_of_nil in Hd].
    right. intros (a & [= <-] & Hne & _). by apply Hne.
Defined.

(** C8 (as amended). The catalog builder copies hasVideo and hasAudio from
    the stream of the resolution service, a missing flag counting as
    false, and filters on WebP and on the playable address only: a stream
    that passes these two filters is in the formats list whatever its
    flags, so that every descriptor of the list carries video or audio
    exactly when every surviving stream of the service does. *)
Theorem C8_flags_copied (address videoId : string)
    (getInfo : string → YtdlError + YtdlInfo) (info : YtdlInfo) :
  Js.truthyStr (Some address) = true →
  extractVideoId address = Some videoId →
  isVideoId videoId = true →
  getInfo videoId = inr info →
  ∃ catalog,
    data (body (GET (Some address) getInfo)) = Some catalog ∧
    (∀ stream, stream ∈ y_formats info →
       hasVideo (parseFormat stream) = Js.orBool (y_hasVideo stream) false ∧
       hasAudio (parseFormat stream) = Js.orBool (y_hasAudio stream) false ∧
       (keepFormat (parseFormat stream) = true →
        parseFormat stream ∈ formats catalog)) ∧
    ((∀ d, d ∈ formats catalog → carriesMedia d) ↔
     (∀ stream, stream ∈ y_formats info → keepFormat (parseFormat stream) = true →
        y_hasVideo stream = Some true ∨ y_hasAudio stream = Some true)).
Proof.
  intros Ht He Hv Hi.
  destruct (GET_success _ _ _ _ Ht He Hv Hi) as (catalog & HG & Hf).
  exists catalog. rewrite HG, Hf. split; [done|].
  assert (Hflags : ∀ stream, carriesMedia (parseFormat stream) ↔
            y_hasVideo stream = Some true ∨ y_hasAudio stream = Some true).
  { intros stream. unfold carriesMedia. simpl.
    destruct (y_hasVideo stream) as [[]|], (y_hasAudio stream) as [[]|];
      simpl; split; intros [H|H]; try discriminate H;
      first [by left | by right]. }
  split.
  - intros stream Hs. split_and!; [done..|]. intros Hk.
    apply SelectorFacts.elem_of_filter. split; [|done].
    change (parseFormat stream ∈ parseFormat <$> y_formats info).
    by apply list_elem_of_fmap_2.
  - split.
    + intros Hall stream Hs Hk. apply Hflags, Hall.
      apply SelectorFacts.elem_of_filter. split; [|done].
      change (parseFormat stream ∈ parseFormat <$> y_formats info).
      by apply list_elem_of_fmap_2.
    + intros Hall d Hd. apply SelectorFacts.elem_of_filter in Hd as [Hd Hk].
      change (d ∈ parseFormat <$> y_formats info) in Hd.
      apply list_elem_of_fmap in Hd as (stream & -> & Hs).
      by apply Hflags, Hall.
Qed.

Lemma C8_flags_copied_witness :
  ∃ catalog,
    data (body (GET (Some "dQw4w9WgXcQ")
                  (Samples.serviceWith [Samples.muxedStream; Samples.emptyStream]))) =
      Some catalog ∧
    parseFormat Samples.emptyStream ∈ formats catalog.
Proof.
  destruct (C8_flags_copied "dQw4w9WgXcQ" "dQw4w9WgXcQ"
              (Samples.serviceWith [Samples.muxedStream; Samples.emptyStream])
              (Samples.sampleInfo [Samples.muxedStream; Samples.emptyStream])
              eq_refl eq_refl eq_refl eq_refl) as (catalog & HG & Hin & _).
  exists catalog. split; [exact HG|].
  apply (Hin Samples.emptyStream); [|reflexivity].
  apply elem_of_cons; right; apply elem_of_cons; left; reflexivity.
Defined.

(** C8 (as stated) fails: a stream with a playable address that carries
    neither video nor audio is in the formats list the endpoint
    returns. *)
Lemma C8_neither_flag_counterexample :
  ∃ catalog d,
    data (body (GET (Some "dQw4w9WgXcQ")
                  (Samples.serviceWith [Samples.muxedStream; Samples.emptyStream]))) =
      Some catalog ∧
    d ∈ formats catalog ∧ ¬ carriesMedia d.
Proof.
  eexists _, (parseFormat Samples.emptyStream). split; [reflexivity|]. split.
  - vm_compute. right. left.
  - intros [H|H]; discriminate H.
Qed.

(** The error codes of a failed call to the resolution service. *)
Lemma getInfoFailure_error (e : YtdlError) :
  error (body (getInfoFailure e)) ≠ Some "INVALID_VIDEO_ID".
Proof.
  unfold getInfoFailure.
  repeat match goal with
         | |- context [if ?b then _ else _] => destruct b
         end; discriminate.
Qed.

(** C7 (as amended). An input that matches no URL pattern and is not
    itself an 11-character identifier fails with INVALID_URL: a bare
    token that deviates from [a-zA-Z0-9_-]{11} matches no pattern, so it
    fails with INVALID_URL too. INVALID_VIDEO_ID is the answer exactly
    when a URL pattern matches and the token it captures deviates from
    [a-zA-Z0-9_-]{11}. *)
Theorem C7_resolution_errors (input : string)
    (getInfo : string → YtdlError + YtdlInfo) :
  Js.truthyStr (Some input) = true →
  (matchUrl input = None → isVideoId input = false →
     status (GET (Some input) getInfo) = 400%Z ∧
     error (body (GET (Some input) getInfo)) = Some "INVALID_URL") ∧
  (error (body (GET (Some input) getInfo)) = Some "INVALID_VIDEO_ID" ↔
     ∃ token, matchUrl input = Some token ∧ isVideoId token = false).
Proof.
  intros Ht. unfold GET, extractVideoId. rewrite Ht. simpl. split.
  - intros -> ->. done.
  - destruct (matchUrl input) as [token|] eqn:Em.
    + destruct (isVideoId token) eqn:Ev; simpl.
      * split; [|by intros (? & [= <-] & ?); congruence].
        destruct (getInfo token) as [e|info]; [|done].
        intros E. by apply getInfoFailure_error in E.
      * split; [by exists token | done].
    + split; [|by intros (? & ? & _)].
      destruct (isVideoId input) eqn:Ev; [|done]. rewrite Ev. simpl.
      destruct (getInfo input) as [e|info]; [|done].
      intros E. by apply getInfoFailure_error in E.
Qed.

Lemma C7_resolution_errors_witness :
  error (body (GET (Some "not a url") Samples.serviceDown)) = Some "INVALID_URL" ∧
  error (body (GET (Some "https://youtu.be/short") Samples.serviceDown)) =
    Some "INVALID_VIDEO_ID".
Proof.
  split.
  - apply (C7_resolution_errors "not a url" Samples.serviceDown eq_refl);
      reflexivity.
  - apply (C7_resolution_errors "https://youtu.be/short" Samples.serviceDown
             eq_refl).
    exists "short". split; reflexivity.
Defined.

(** C7 (as stated) fails: the bare token short, which matches no URL
    pattern, fails with INVALID_URL and not with INVALID_VIDEO_ID. *)
Lemma C7_short_counterexample :
  extractVideoId "short" = None ∧
  error (body (GET (Some "short") Samples.serviceDown)) = Some "INVALID_URL" ∧
  error (body (GET (Some "short") Samples.serviceDown)) ≠ Some "INVALID_VIDEO_ID".
Proof. split_and!; [reflexivity | reflexivity | discriminate]. Qed.

End InfoFacts.

(** ** The proxy relay *)

Module RelayFacts.
Import InfoRoute DownloadRoute.

(** The headers a response is given before [Content-Length] and
    [Content-Range] hold neither. *)
Lemma getHeader_app (name : string) (hs hs' : Headers) :
  getHeader name (hs ++ hs') =
  match getHeader name hs with
  | Some v => Some v
  | None => getHeader name hs'
  end.
Proof.
  unfold getHeader. induction hs as [|[n v] hs IH]; simpl; [done|].
  by destruct (String.eqb n name).
Qed.

Lemma getHeader_setIfTruthy_other (name other : string) (v : option string)
    (hs : Headers) :
  String.eqb other name = false →
  getHeader name (setIfTruthy other v hs) = getHeader name hs.
Proof.
  intros Hne. unfold setIfTruthy. destruct (Js.truthyStr v); [|done].
  rewrite getHeader_app. destruct (getHeader name hs); [done|].
  unfold getHeader. simpl. by rewrite Hne.
Qed.

Lemma getHeader_setIfTruthy (name : string) (v : option string) (hs : Headers) :
  getHeader name hs = None →
  getHeader name (setIfTruthy name v hs) = if Js.truthyStr v then v else None.
Proof.
  intros Hnone. unfold setIfTruthy. destruct v as [[|c v]|]; simpl; try done.
  rewrite getHeader_app, Hnone. unfold getHeader. simpl.
  by rewrite String.eqb_refl.
Qed.

(** What the constructor and the inner [try] have done when they return,
    and when they throw. *)
Lemma constructed_inr (svc : Services) (response built : Response) :
  constructed svc response = inr built ↔
  built = response ∧ nextResponse svc response = None.
Proof.
  unfold constructed. destruct (nextResponse svc response); split;
    first [by intros [= ->] | by intros [-> [=]] | by intros [-> _] | done].
Qed.

Lemma primaryAttempt_inr (svc : Services) (info : YtdlInfo) (format : YtdlFormat)
    (range : option string) (response : Response) :
  primaryAttempt svc info format range = inr response ↔
  ∃ videoStream,
    downloadFromInfo svc info format downloadFromInfoHeaders = inr videoStream ∧
    response = primaryResponse format range videoStream ∧
    nextResponse svc response = None.
Proof.
  unfold primaryAttempt.
  destruct (downloadFromInfo svc info format downloadFromInfoHeaders)
    as [streamError|videoStream].
  - split; [done|]. by intros (? & [=] & _).
  - rewrite constructed_inr. split.
    + intros [-> Hn]. by exists videoStream.
    + intros (? & [= <-] & -> & Hn). done.
Qed.

Lemma primaryAttempt_inl (svc : Services) (info : YtdlInfo) (format : YtdlFormat)
    (range : option string) (streamError : StreamError) :
  primaryAttempt svc info format range = inl streamError ↔
  downloadFromInfo svc info format downloadFromInfoHeaders = inl streamError ∨
  ∃ videoStream,
    downloadFromInfo svc info format downloadFromInfoHeaders = inr videoStream ∧
    nextResponse svc (primaryResponse format range videoStream) = Some streamError.
Proof.
  unfold primaryAttempt, constructed.
  destruct (downloadFromInfo svc info format downloadFromInfoHeaders)
    as [thrown|videoStream].
  - split; [intros [= ->]; by left|]. intros [[= ->]|(? & [=] & _)]. done.
  - destruct (nextResponse svc (primaryResponse format range videoStream))
      as [thrown|] eqn:Hn; split.
    + intros [= ->]. right. by exists videoStream.
    + intros [[=]|(? & [= <-] & Hn')]. congruence.
    + done.
    + intros [[=]|(? & [= <-] & Hn')]. congruence.
Qed.

(** A request with both parameters, for a stream the service resolves to
    a usable descriptor, reaches the inner [try]. *)
Lemma GET_usable (videoId itag : string) (range : option string)
    (svc : Services) (info : YtdlInfo) (format : YtdlFormat) :
  videoId ≠ "" → itag ≠ "" →
  getInfo svc videoId = inr info →
  Js.find (λ f, bool_decide (Some (y_itag f) = Js.parseInt itag)) (y_formats info)
    = Some format →
  Js.truthyStr (y_url format) = true →
  isWebPFormat format = false →
  GET {| r_videoId := Some videoId; r_itag := Some itag; r_range := range |} svc =
  let calls := [CallGetInfo videoId getInfoHeaders;
                CallDownloadFromInfo format downloadFromInfoHeaders] in
  match primaryAttempt svc info format range with
  | inr response => (response, calls)
  | inl streamError =>
      if isForbidden streamError then
        (failure "ACCESS_DENIED"
           "YouTube is blocking this request (403 Forbidden). This may be due to YouTube's anti-bot measures. Please try: 1) Selecting a combined format (video+audio) which uses native browser download, 2) Waiting a few minutes and trying again, or 3) The ytdl-core library may need an update to handle YouTube's latest changes."
           403, calls)
      else
        let headers :=
          if Js.truthyStr range then fetchHeaders ++ [("Range", default "" range)]
          else fetchHeaders in
        let url := default "" (y_url format) in
        match fetch svc url headers with
        | inr response =>
            match constructed svc (fallbackResponse format response) with
            | inr relayed => (relayed, calls ++ [CallFetch url headers])
            | inl thrown =>
                (internalError (s_message thrown), calls ++ [CallFetch url headers])
            end
        | inl thrown => (internalError thrown, calls ++ [CallFetch url headers])
        end
  end.
Proof.
  intros Hv Hi Hinfo Hfind Hurl Hwebp. unfold GET. simpl.
  destruct videoId as [|c videoId]; [done|].
  destruct itag as [|c' itag]; [done|]. simpl.
  rewrite Hinfo, Hfind, Hurl, Hwebp. simpl.
  destruct (primaryAttempt svc info format range) as [streamError|response];
    [|done].
  by destruct (isForbidden streamError).
Qed.

(** On the primary path the collaborators are called with the fixed
    headers of the handler, none of which is a Range header; the Range
    header of the request only sets the status and comes back as the
    Content-Range of the response, on the whole stream. *)
Lemma primary_path_calls (videoId itag : string) (range : option string)
    (svc : Services) (info : YtdlInfo) (format : YtdlFormat) (videoStream : Bytes) :
  videoId ≠ "" → itag ≠ "" →
  getInfo svc videoId = inr info →
  Js.find (λ f, bool_decide (Some (y_itag f) = Js.parseInt itag)) (y_formats info)
    = Some format →
  Js.truthyStr (y_url format) = true →
  isWebPFormat format = false →
  downloadFromInfo svc info format downloadFromInfoHeaders = inr videoStream →
  nextResponse svc (primaryResponse format range videoStream) = None →
  let r := GET {| r_videoId := Some videoId; r_itag := Some itag;
                  r_range := range |} svc in
  r.2 = [CallGetInfo videoId getInfoHeaders;
         CallDownloadFromInfo format downloadFromInfoHeaders] ∧
  getHeader "Range" getInfoHeaders = None ∧
  getHeader "Range" downloadFromInfoHeaders = None ∧
  status r.1 = (if Js.truthyStr range then 206 else 200)%Z ∧
  getHeader "Content-Range" (headers r.1) =
    (if Js.truthyStr range then range else None) ∧
  body r.1 = Stream videoStream.
Proof.
  intros Hv Hi Hinfo Hfind Hurl Hwebp Hstream Hbuilt r. subst r.
  rewrite (GET_usable _ _ range _ _ _ Hv Hi Hinfo Hfind Hurl Hwebp). cbv zeta.
  assert (Hp : primaryAttempt svc info format range =
               inr (primaryResponse format range videoStream)).
  { apply primaryAttempt_inr. by exists videoStream. }
  rewrite Hp. cbn [fst snd]. split_and!; [done..| | |].
  - unfold primaryResponse. by destruct (Js.truthyStr range).
  - unfold primaryResponse. destruct (Js.truthyStr range) eqn:Hr; simpl.
    + rewrite getHeader_app, getHeader_setIfTruthy_other by done.
      simpl. destruct range as [[|c r]|]; done.
    + by rewrite getHeader_setIfTruthy_other.
  - unfold primaryResponse. by destruct (Js.truthyStr range).
Qed.

(** On the fallback path, where the inner [try] has thrown (other than a
    403) and the direct fetch of the address is answered with a success
    status, the Range header of the request is forwarded in that fetch
    (and none is sent when the request has none); the response has status
    206 exactly when the upstream answer has, and status 200 otherwise,
    and Content-Range is set exactly when the upstream answer carries
    one. *)
Lemma fallback_path_relay (videoId itag : string) (range : option string)
    (svc : Services) (info : YtdlInfo) (format : YtdlFormat)
    (streamError : StreamError) (response : FetchResponse) :
  videoId ≠ "" → itag ≠ "" →
  getInfo svc videoId = inr info →
  Js.find (λ f, bool_decide (Some (y_itag f) = Js.parseInt itag)) (y_formats info)
    = Some format →
  Js.truthyStr (y_url format) = true →
  isWebPFormat format = false →
  primaryAttempt svc info format range = inl streamError →
  isForbidden streamError = false →
  let sent :=
    if Js.truthyStr range then fetchHeaders ++ [("Range", default "" range)]
    else fetchHeaders in
  fetch svc (default "" (y_url format)) sent = inr response →
  f_ok response = true →
  nextResponse svc (fallbackResponse format response) = None →
  let r := GET {| r_videoId := Some videoId; r_itag := Some itag;
                  r_range := range |} svc in
  last r.2 = Some (CallFetch (default "" (y_url format)) sent) ∧
  getHeader "Range" sent = (if Js.truthyStr range then range else None) ∧
  status r.1 = (if (f_status response =? 206)%Z then 206 else 200)%Z ∧
  getHeader "Content-Range" (headers r.1) =
    (if Js.truthyStr (f_headers response !! "content-range")
     then f_headers response !! "content-range" else None).
Proof.
  intros Hv Hi Hinfo Hfind Hurl Hwebp Hthrown Hforb sent Hfetch Hok Hbuilt r.
  subst r sent.
  rewrite (GET_usable _ _ range _ _ _ Hv Hi Hinfo Hfind Hurl Hwebp). cbv zeta.
  rewrite Hthrown, Hforb, Hfetch.
  rewrite (proj2 (constructed_inr svc _ _) (conj eq_refl Hbuilt)).
  unfold fallbackResponse. rewrite Hok. simpl. split_and!.
  - done.
  - destruct range as [[|c r]|]; done.
  - done.
  - rewrite getHeader_setIfTruthy; [done|].
    by rewrite getHeader_setIfTruthy_other.
Qed.

(** C5, at a request with a Range header that the primary path serves.
    The relay is asked for the first two bytes of a stream of which the
    service hands over four. The two calls it makes carry the fixed
    headers of the handler: neither holds a Range header, so the range is
    not forwarded upstream. The response has status 206 all the same, its
    Content-Range is the Range header of the request as it came, and its
    body is the whole stream. On the same request the fallback path,
    taken when the service throws, does forward the range in its fetch. *)
Theorem C5_range_not_forwarded :
  let r := GET Samples.rangeRequest Samples.streamingServices in
  let sibling := GET Samples.rangeRequest Samples.fallbackServices in
  r.2 = [CallGetInfo "dQw4w9WgXcQ" getInfoHeaders;
         CallDownloadFromInfo Samples.muxedStream downloadFromInfoHeaders] ∧
  getHeader "Range" getInfoHeaders = None ∧
  getHeader "Range" downloadFromInfoHeaders = None ∧
  status r.1 = 206%Z ∧
  getHeader "Content-Range" (headers r.1) = Some "bytes=0-1" ∧
  body r.1 = Stream [Byte.x01; Byte.x02; Byte.x03; Byte.x04] ∧
  last sibling.2 =
    Some (CallFetch "https://r1.example/videoplayback?itag=18"
            (fetchHeaders ++ [("Range", "bytes=0-1")])).
Proof. cbv zeta. split_and!; vm_compute; reflexivity. Qed.

End RelayFacts.

(** ** The downloader component *)

Module DownloaderFacts.
Import Video Downloader CatalogSpec.

Lemma lowerChar_replaced (c : ascii) :
  Js.lowerChar (if isAlnum c then c else "_"%char) =
  if isAlnum c then Js.lowerChar c else "_"%char.
Proof. by destruct (isAlnum c). Qed.

(** Replacing, then lower-casing, is lower-casing the alphanumeric
    characters and putting an underscore for each other one. *)
Lemma sanitized_underscored (title : string) :
  Js.toLowerCase (replaceNonAlnum title) = underscored title.
Proof.
  unfold Js.toLowerCase, replaceNonAlnum, underscored.
  induction title as [|c title IH]; simpl; [done|].
  by rewrite lowerChar_replaced, IH.
Qed.

Lemma underscored_length (title : string) :
  String.length (underscored title) = String.length title.
Proof. induction title as [|c title IH]; simpl; [done | by f_equal]. Qed.

Section Flow.
Context {E : Type} (eng : Engine E).
Local Abbreviation State := (Component (E := E)).

(** C9 (as amended). For every title and container, the file name of a
    save that needs no merge (a muxed or an audio-only format) is the
    title lower-cased with every non-alphanumeric character replaced by
    an underscore of its own (a run of such characters gives as many
    underscores, the name keeps the length of the title), followed by a
    dot and the container extension. *)
Theorem C9_save_filename (st : State) (format : VideoFormat) (info : VideoInfo) :
  hasAudio format = true →
  ∃ st',
    downloadVideo (Some format) (Some info) st = (inr Done, st') ∧
    saves st' =
      saves st ++
      [SaveUrl (url format)
         (underscored (title info) +:+ "." +:+ container format)] ∧
    String.length (underscored (title info)) = String.length (title info).
Proof.
  intros Ha. unfold downloadVideo, filename. rewrite sanitized_underscored, Ha.
  eexists. split; [by destruct (hasVideo format)|].
  split; [reflexivity | apply underscored_length].
Qed.

End Flow.

Lemma C9_save_filename_witness :
  ∃ st',
    downloadVideo (Some Samples.muxed720)
      (Some (Samples.sampleVideoInfo Samples.catalog))
      (Samples.freshComponent (∅ : gmap string Blob)) = (inr Done, st') ∧
    saves st' = [SaveUrl (url Samples.muxed720) "sample__title_.mp4"].
Proof.
  destruct (C9_save_filename (Samples.freshComponent (∅ : gmap string Blob))
              Samples.muxed720 (Samples.sampleVideoInfo Samples.catalog) eq_refl)
    as (st' & Hrun & Hsaves & _).
  exists st'. split; [exact Hrun | exact Hsaves].
Defined.

(** C9 (as stated) fails: in the title Sample  Title! the run of two
    spaces gives two underscores, where the specification collapses it to
    one. *)
Lemma C9_runs_counterexample :
  filename "Sample  Title!" "mp4" = "sample__title_.mp4" ∧
  specFilename "Sample  Title!" "mp4" = "sample_title_.mp4" ∧
  filename "Sample  Title!" "mp4" ≠ specFilename "Sample  Title!" "mp4".
Proof. split_and!; [reflexivity | reflexivity | discriminate]. Qed.

Section Merge.
Context {E : Type} (eng : Engine E).
Local Abbreviation State := (Component (E := E)).

(** When the engine is initialised and takes both files, a combine step
    that throws ends [mergeWithFFmpeg] there: the error goes to the caller
    as it is, and no deletion is issued. *)
Lemma merge_exec_failure (st : State) (videoBlob audioBlob : Blob)
    (outputFilename : string) (e1 e2 e3 : E) (err : JsError) :
  ffmpegRef st = true →
  writeFile eng "video.mp4" videoBlob (engine st) = (None, e1) →
  writeFile eng "audio.mp4" audioBlob e1 = (None, e2) →
  exec eng execArgs e2 = (Some err, e3) →
  ∃ st',
    mergeWithFFmpeg eng videoBlob audioBlob outputFilename st = (inl err, st') ∧
    engine st' = e3 ∧
    engineCalls st' =
      engineCalls st ++
      [WriteFile "video.mp4"; WriteFile "audio.mp4"; Exec execArgs].
Proof.
  intros Href Hv Ha Hx.
  unfold mergeWithFFmpeg, initFFmpeg, mbind, M_bind, callEngine, unitResult.
  rewrite Href. simpl. rewrite Hv. simpl. rewrite Ha. simpl. rewrite Hx. simpl.
  eexists. split; [reflexivity|]. split; [reflexivity|].
  by rewrite <- !app_assoc.
Qed.

End Merge.

Section Cancel.
Context {E : Type} (eng : Engine E).
Local Abbreviation State := (Component (E := E)).

(** Unfolds the plumbing of the [async] bodies. *)
Ltac run_body :=
  unfold mbind, M_bind, mret, M_ret, throw, setProgress, setError,
    setAbortController, logNetwork in *; simpl in *.

(** The [catch] of [downloadVideo] returns, and starts no transfer. *)
Lemma catchDownload_returns (selectedFormat : option VideoFormat)
    (err : JsError) (st : State) :
  ∃ st', catchDownload selectedFormat err st = (inr (), st') ∧
         stage (c_progress st') = idle ∧
         networkCalls st' = networkCalls st.
Proof.
  unfold catchDownload. run_body.
  repeat match goal with
         | |- context [if ?b then _ else _] => destruct b
         | |- context [match ?o with Some _ => _ | None => _ end] => destruct o
         end; simpl; eexists; split_and!; reflexivity.
Qed.

Lemma tryCatch_cases (selectedFormat : option VideoFormat) (body : M Flow)
    (st st' : State) (r : JsError + Flow) :
  tryCatch selectedFormat body st = (r, st') →
  (r = inr Done ∧ ∃ err st1, body st = (inl err, st1)) ∨
  (∃ flow, r = inr flow ∧ body st = (inr flow, st')).
Proof.
  unfold tryCatch. destruct (body st) as [[err|flow] st1] eqn:Eb.
  - destruct (catchDownload_returns selectedFormat err st1) as (st2 & Hc & _).
    unfold mbind, M_bind. rewrite Hc. simpl. intros [= <- <-].
    left. split; [done|]. by exists err, st1.
  - intros [= <- <-]. right. by exists flow.
Qed.

(** The handlers of a transfer return, and leave the controller alone. *)
Lemma transferStep_returns (onProgress : QArith_base.Q → M unit)
    (videoId : string) (itag : Z) (t : Transfer) (ev : TransferEvent) (st : State) :
  (∀ p st0, ∃ st1, onProgress p st0 = (inr (), st1) ∧
                   abortControllerRef st1 = abortControllerRef st0) →
  ∃ t' st', transferStep onProgress videoId itag t ev st = (inr t', st') ∧
            abortControllerRef st' = abortControllerRef st.
Proof.
  intros Hp. unfold transferStep, proxyFallback.
  destruct t, ev; run_body;
    repeat match goal with
           | |- context [if ?b then _ else _] => destruct b
           end;
    try (by eexists _, _);
    match goal with
    | |- context [onProgress ?p ?s] =>
        destruct (Hp p s) as (st1 & -> & Href); by eexists _, _
    end.
Qed.

Lemma onVideoProgress_returns (p : QArith_base.Q) (st0 : State) :
  ∃ st1, onVideoProgress p st0 = (inr (), st1) ∧
         abortControllerRef st1 = abortControllerRef st0.
Proof. by eexists. Qed.

Lemma onAudioProgress_returns (p : QArith_base.Q) (st0 : State) :
  ∃ st1, onAudioProgress p st0 = (inr (), st1) ∧
         abortControllerRef st1 = abortControllerRef st0.
Proof. by eexists. Qed.

(** After the video transfer, the download is finished or suspended, well
    formed, on the audio transfer. *)
Lemma afterVideo_wellFormed (format : VideoFormat) (bestAudio : option VideoFormat)
    (videoInfo : VideoInfo) (filename : string) (outcome : JsError + Blob)
    (st st' : State) (r : JsError + Flow) :
  abortControllerRef st = true →
  afterVideo format bestAudio videoInfo filename outcome st = (r, st') →
  ∃ flow, r = inr flow ∧ FlowSpec.wellFormed flow st'.
Proof.
  intros Href Hrun. unfold afterVideo in Hrun.
  apply tryCatch_cases in Hrun as [[-> _]|(flow & -> & Hbody)].
  - by exists Done.
  - exists flow. split; [done|].
    destruct outcome as [err|videoBlob]; [discriminate Hbody|].
    destruct bestAudio as [best|]; [|discriminate Hbody].
    unfold downloadBlob in Hbody. run_body.
    injection Hbody as <- <-. simpl. by rewrite Href.
Qed.

Lemma afterAudio_done (format : VideoFormat) (filename : string)
    (videoBlob : Blob) (outcome : JsError + Blob) (st st' : State)
    (r : JsError + Flow) :
  afterAudio eng format filename videoBlob outcome st = (r, st') → r = inr Done.
Proof.
  intros Hrun. unfold afterAudio in Hrun.
  apply tryCatch_cases in Hrun as [[-> _]|(flow & -> & Hbody)]; [done|].
  unfold mbind, M_bind in Hbody.
  destruct (await outcome st) as [[?|audioBlob] st1]; [discriminate Hbody|].
  destruct (mergeWithFFmpeg eng videoBlob audioBlob filename st1) as [[?|[]] st2];
    [discriminate Hbody|].
  by injection Hbody as <- <-.
Qed.

(** An aborted video transfer ends the download: the [catch] reports
    the cancellation, and the audio transfer is not started. *)
Lemma afterVideo_aborted (format : VideoFormat) (bestAudio : option VideoFormat)
    (videoInfo : VideoInfo) (filename : string) (st : State) :
  ∃ st',
    afterVideo format bestAudio videoInfo filename (inl abortError) st =
      (inr Done, st') ∧
    stage (c_progress st') = idle ∧
    c_error st' = Some "Download cancelled" ∧
    networkCalls st' = networkCalls st.
Proof. eexists. split; [reflexivity|]. by split_and!. Qed.

(** A well-formed download stays well formed through every event. *)
Lemma step_wellFormed (flow : Flow) (ev : Event) (st st' : State)
    (r : JsError + Flow) :
  FlowSpec.wellFormed flow st →
  step eng flow ev st = (r, st') →
  ∃ flow', r = inr flow' ∧ FlowSpec.wellFormed flow' st'.
Proof.
  intros Hwf Hstep. destruct ev as [ev|]; simpl in Hstep.
  - destruct flow as [|signal t format best info fn|signal t format best info fn vb];
      simpl in Hstep, Hwf.
    + injection Hstep as <- <-. by exists Done.
    + destruct Hwf as (-> & Href & Hpend).
      destruct (transferStep_returns onVideoProgress (videoId info) (itag format)
                  t ev st onVideoProgress_returns) as (t' & st1 & Ht & Href1).
      unfold mbind, M_bind in Hstep. rewrite Ht in Hstep.
      destruct t' as [| |outcome].
      * injection Hstep as <- <-. eexists. split; [done|]. simpl. by rewrite Href1.
      * injection Hstep as <- <-. eexists. split; [done|]. simpl. by rewrite Href1.
      * eapply afterVideo_wellFormed; [|exact Hstep]. by rewrite Href1.
    + destruct Hwf as (-> & Href & Hpend).
      destruct (transferStep_returns onAudioProgress (videoId info) (itag best)
                  t ev st onAudioProgress_returns) as (t' & st1 & Ht & Href1).
      unfold mbind, M_bind in Hstep. rewrite Ht in Hstep.
      destruct t' as [| |outcome].
      * injection Hstep as <- <-. eexists. split; [done|]. simpl. by rewrite Href1.
      * injection Hstep as <- <-. eexists. split; [done|]. simpl. by rewrite Href1.
      * apply afterAudio_done in Hstep as ->. by exists Done.
  - unfold cancelDownload in Hstep.
    destruct flow as [|signal t format best info fn|signal t format best info fn vb];
      simpl in Hwf.
    + destruct (abortControllerRef st); run_body;
        injection Hstep as <- <-; by exists Done.
    + destruct Hwf as (-> & Href & Hpend). rewrite Href in Hstep.
      destruct t as [| |outcome]; [| |done]; run_body;
        injection Hstep as <- <-; by exists Done.
    + destruct Hwf as (-> & Href & Hpend). rewrite Href in Hstep.
      destruct t as [| |outcome]; [| |done]; run_body;
        apply afterAudio_done in Hstep as ->; by exists Done.
Qed.

Lemma run_wellFormed (evs : list Event) (flow : Flow) (st st' : State)
    (r : JsError + Flow) :
  FlowSpec.wellFormed flow st →
  run eng flow evs st = (r, st') →
  ∃ flow', r = inr flow' ∧ FlowSpec.wellFormed flow' st'.
Proof.
  revert flow st. induction evs as [|ev evs IH]; intros flow st Hwf Hrun.
  - injection Hrun as <- <-. by exists flow.
  - simpl in Hrun. unfold mbind, M_bind in Hrun.
    destruct (step eng flow ev st) as [r1 st1] eqn:Es.
    destruct (step_wellFormed _ _ _ _ _ Hwf Es) as (flow1 & -> & Hwf1).
    by eapply IH.
Qed.

(** The click on the download button leaves a well-formed download. *)
Lemma downloadVideo_wellFormed (selectedFormat : option VideoFormat)
    (videoInfo : option VideoInfo) (st st' : State) (r : JsError + Flow) :
  downloadVideo selectedFormat videoInfo st = (r, st') →
  ∃ flow, r = inr flow ∧ FlowSpec.wellFormed flow st'.
Proof.
  unfold downloadVideo.
  destruct selectedFormat as [format|], videoInfo as [info|];
    try (intros [= <- <-]; by exists Done).
  unfold mbind at 1 2 3, M_bind at 1 2 3. simpl. intros Hrun.
  apply tryCatch_cases in Hrun as [[-> _]|(flow & -> & Hbody)]; [by exists Done|].
  exists flow. split; [done|]. unfold nativeSave, downloadBlob in Hbody.
  repeat match type of Hbody with
         | context [if ?b then _ else _] => destruct b
         end; run_body; try discriminate Hbody;
    by injection Hbody as <- <-.
Qed.

Lemma run_app (evs1 evs2 : list Event) (flow : Flow) (st : State) :
  run eng flow (evs1 ++ evs2) st =
  (flow' ← run eng flow evs1 ; run eng flow' evs2) st.
Proof.
  revert flow st. induction evs1 as [|ev evs1 IH]; intros flow st; simpl; [done|].
  unfold mbind, M_bind. destruct (step eng flow ev st) as [[err|flow1] st1]; [done|].
  apply IH.
Qed.

(** Once the download is finished, no event starts a transfer or touches
    the error, and the stage, once idle, stays idle. *)
Lemma run_Done (evs : list Event) (st : State) :
  ∃ st', run eng Done evs st = (inr Done, st') ∧
         c_error st' = c_error st ∧
         networkCalls st' = networkCalls st ∧
         (stage (c_progress st) = idle → stage (c_progress st') = idle).
Proof.
  revert st. induction evs as [|[ev|] evs IH]; intros st; simpl.
  - by exists st.
  - apply IH.
  - unfold mbind, M_bind, cancelDownload.
    destruct (abortControllerRef st); run_body.
    + edestruct IH as (st' & -> & He & Hn & Hs).
      exists st'. split_and!; [done..|]. intros _. by apply Hs.
    + edestruct IH as (st' & -> & He & Hn & Hs).
      exists st'. split_and!; [done..|]. intros _. by apply Hs.
Qed.

Lemma run_cons (ev : Event) (evs : list Event) (flow : Flow) (st : State) :
  run eng flow (ev :: evs) st =
  match step eng flow ev st with
  | (inr flow', st') => run eng flow' evs st'
  | (inl err, st') => (inl err, st')
  end.
Proof. reflexivity. Qed.

(** The cancellation of a well-formed download suspended on its video
    transfer. *)
Lemma cancel_in_flight (signal : bool) (t : Transfer) (format : VideoFormat)
    (bestAudio : option VideoFormat) (videoInfo : VideoInfo) (filename : string)
    (st : State) :
  FlowSpec.wellFormed (AwaitVideo signal t format bestAudio videoInfo filename) st →
  ∃ st',
    cancelDownload eng (AwaitVideo signal t format bestAudio videoInfo filename) st =
      (inr Done, st') ∧
    stage (c_progress st') = idle ∧
    c_error st' = Some "Download cancelled" ∧
    networkCalls st' = networkCalls st.
Proof.
  intros (-> & Href & Hpend). unfold cancelDownload. rewrite Href.
  destruct t as [| |outcome]; [| |done];
    (eexists; split; [reflexivity|]; by split_and!).
Qed.

(** C6. When a download is cancelled while its video transfer is in
    flight, whatever happened before and whatever happens afterwards, the
    download ends with stage idle and the error Download cancelled, the
    indicator of a cancellation that no failure is reported with, and no
    transfer is started from the cancellation on: the audio transfer is
    never initiated. *)
Theorem C6_cancel_during_video_fetch (format : VideoFormat) (info : VideoInfo)
    (st0 st1 : State) (before after : list Event)
    (signal : bool) (t : Transfer) (selected : VideoFormat)
    (bestAudio : option VideoFormat) (videoInfo : VideoInfo) (filename : string) :
  download eng (Some format) (Some info) before st0 =
    (inr (AwaitVideo signal t selected bestAudio videoInfo filename), st1) →
  ∃ st2,
    download eng (Some format) (Some info) (before ++ Cancel :: after) st0 =
      (inr Done, st2) ∧
    stage (c_progress st2) = idle ∧
    c_error st2 = Some "Download cancelled" ∧
    networkCalls st2 = networkCalls st1.
Proof.
  unfold download, mbind, M_bind. intros Hrun.
  destruct (downloadVideo (Some format) (Some info) st0) as [r0 sta] eqn:Ed.
  destruct (downloadVideo_wellFormed _ _ _ _ _ Ed) as (flow0 & -> & Hwf0).
  destruct (run_wellFormed _ _ _ _ _ Hwf0 Hrun) as (flow1 & [= <-] & Hwf1).
  rewrite run_app. unfold mbind, M_bind. rewrite Hrun.
  destruct (cancel_in_flight _ _ _ _ _ _ _ Hwf1) as (stc & Hc & Hstage & Herr & Hnet).
  rewrite run_cons. change (step eng ?f Cancel st1) with (cancelDownload eng f st1).
  rewrite Hc.
  destruct (run_Done after stc) as (st2 & Hdone & He & Hn & Hs).
  exists st2. split_and!; [done|by apply Hs|congruence|congruence].
Qed.

End Cancel.

Lemma C6_cancel_during_video_fetch_witness :
  let eng := Samples.failingEngine (newError "Conversion failed") in
  let info := Samples.sampleVideoInfo Samples.catalog in
  let before := [OnTransfer (XhrProgress true 50 100)] in
  let after := [OnTransfer (XhrLoad 200 "OK" [Byte.x01])] in
  ∃ st2,
    download eng (Some Samples.videoOnly1080) (Some info)
      (before ++ Cancel :: after) (Samples.freshComponent (∅ : gmap string Blob)) =
      (inr Done, st2) ∧
    stage (c_progress st2) = idle ∧
    c_error st2 = Some "Download cancelled" ∧
    networkCalls st2 =
      [DownloadBlob (url Samples.videoOnly1080) "video" "dQw4w9WgXcQ" 137].
Proof.
  intros eng info before after.
  exact (C6_cancel_during_video_fetch eng Samples.videoOnly1080 info
           (Samples.freshComponent (∅ : gmap string Blob)) _ before after
           _ _ _ _ _ _ eq_refl).
Defined.


(** C4, at a combine step that fails. On a fresh component whose engine
    throws Conversion failed in the combine step, [mergeWithFFmpeg] ends
    with that very error, and the calls it has issued to the engine are
    the load, the two writes and the combine: no deletion is issued, and
    the two input files stay in the virtual file system of the engine.
    A download that reaches the merge shows the message of the engine as
    it is, and issues no deletion either. *)
Lemma C4_failed_combine_skips_cleanup :
  let eng := Samples.failingEngine (newError "Conversion failed") in
  let r := mergeWithFFmpeg eng [Byte.x01] [Byte.x02] "out.mp4"
             (Samples.freshComponent (∅ : gmap string Blob)) in
  r.1 = inl (newError "Conversion failed") ∧
  engineCalls r.2 =
    [Load; WriteFile "video.mp4"; WriteFile "audio.mp4"; Exec execArgs] ∧
  List.filter FlowSpec.isDelete (engineCalls r.2) = [] ∧
  engine r.2 !! "video.mp4" = Some [Byte.x01] ∧
  engine r.2 !! "audio.mp4" = Some [Byte.x02] ∧
  let d := download eng (Some Samples.videoOnly1080)
             (Some (Samples.sampleVideoInfo Samples.catalog))
             [OnTransfer (XhrLoad 200 "OK" [Byte.x01]);
              OnTransfer (XhrLoad 200 "OK" [Byte.x02])]
             (Samples.freshComponent (∅ : gmap string Blob)) in
  c_error d.2 = Some "Conversion failed" ∧
  List.filter FlowSpec.isDelete (engineCalls d.2) = [].
Proof. cbv zeta. split_and!; vm_compute; reflexivity. Qed.

End DownloaderFacts.

(** * Further properties *)

(** ** More on the info route *)

Module InfoMore.
Import Video InfoRoute CatalogSpec JsFacts RouteSpec.

Lemma dropPrefix_app (p s : string) : dropPrefix p (p +:+ s) = Some s.
Proof.
  induction p as [|a p IH]; [by destruct s|].
  change (dropPrefix (String a p) (String a (p +:+ s)) = Some s).
  simpl. by rewrite Ascii.eqb_refl.
Qed.

(** A string that does not start with y starts no alternative of the
    URL pattern. *)
Lemma matchUrlAt_other (c : ascii) (s : string) :
  Ascii.eqb c "y" = false → matchUrlAt urlPrefixes (String c s) = None.
Proof.
  intros Hc%Ascii.eqb_neq. unfold urlPrefixes. cbn [matchUrlAt dropPrefix].
  destruct (Ascii.eqb_spec "y" c) as [<-|_]; done.
Qed.

Lemma matchUrl_skip (lead s : string) :
  allChars (λ c, negb (Ascii.eqb c "y")) lead = true →
  matchUrl (lead +:+ s) = matchUrl s.
Proof.
  induction lead as [|c lead IH]; [done|]. simpl. intros [Hc Hl]%andb_true_iff.
  apply negb_true_iff in Hc.
  change (matchUrl (String c (lead +:+ s)) = matchUrl s).
  cbn [matchUrl]. rewrite (matchUrlAt_other _ _ Hc). by apply IH.
Qed.

Lemma takeWhile_token (token rest : string) :
  allChars isTokenChar token = true → stopped rest →
  takeWhile isTokenChar (token +:+ rest) = token.
Proof.
  intros Ht Hr. induction token as [|c token IH].
  - destruct rest as [|c rest]; [done|]. simpl in Hr.
    change (takeWhile isTokenChar (String c rest) = ""). simpl. by rewrite Hr.
  - simpl in Ht. apply andb_true_iff in Ht as [Hc Ht].
    change (takeWhile isTokenChar (String c (token +:+ rest)) = String c token).
    simpl. rewrite Hc. f_equal. by apply IH.
Qed.

Lemma matchUrlAt_shape (p token rest : string) :
  p ∈ urlPrefixes → token ≠ "" →
  allChars isTokenChar token = true → stopped rest →
  matchUrlAt urlPrefixes (p +:+ token +:+ rest) = Some token.
Proof.
  intros Hp Hne Ht Hr. unfold urlPrefixes in *.
  pose proof (takeWhile_token token rest Ht Hr) as Htake.
  assert (Hmatch : ∀ q alts, matchUrlAt (q :: alts) (q +:+ token +:+ rest) = Some token).
  { intros q alts. cbn [matchUrlAt]. rewrite dropPrefix_app, Htake.
    by destruct token. }
  assert (Hnext : ∀ q alts s, dropPrefix q s = None →
            matchUrlAt (q :: alts) s = matchUrlAt alts s).
  { intros q alts s Hq. cbn [matchUrlAt]. by rewrite Hq. }
  repeat (apply elem_of_cons in Hp as [->|Hp]); [..|by apply elem_of_nil in Hp].
  - apply Hmatch.
  - rewrite Hnext by reflexivity. apply Hmatch.
  - rewrite !Hnext by reflexivity. apply Hmatch.
  - rewrite !Hnext by reflexivity. apply Hmatch.
Qed.

Lemma extract_after_prefix (lead p token rest : string) :
  allChars (λ c, negb (Ascii.eqb c "y")) lead = true →
  p ∈ urlPrefixes → token ≠ "" →
  allChars isTokenChar token = true → stopped rest →
  extractVideoId (lead +:+ p +:+ token +:+ rest) = Some token.
Proof.
  intros Hl Hp Hne Ht Hr. unfold extractVideoId.
  rewrite (matchUrl_skip _ _ Hl).
  destruct token as [|c token]; [done|].
  pose proof (matchUrlAt_shape p (String c token) rest Hp Hne Ht Hr) as Hm.
  destruct (p +:+ String c token +:+ rest) as [|d s] eqn:Es;
    cbn [matchUrl]; by rewrite Hm.
Qed.

(** X1. Whatever precedes it (as long as it has no letter y), the first
    of the four URL prefixes is followed by the captured identifier: the
    longest run of characters other than ampersand, newline, question mark
    and hash. *)
Theorem X1_extract_after_prefix (lead p token rest : string) :
  allChars (λ c, negb (Ascii.eqb c "y")) lead = true →
  p ∈ urlPrefixes → token ≠ "" →
  allChars isTokenChar token = true → stopped rest →
  extractVideoId (lead +:+ p +:+ token +:+ rest) = Some token.
Proof.
  exact (extract_after_prefix lead p token rest).
Qed.

Lemma X1_extract_after_prefix_witness :
  extractVideoId "https://www.youtube.com/watch?v=dQw4w9WgXcQ&t=42" =
    Some "dQw4w9WgXcQ".
Proof.
  assert (Hne : "dQw4w9WgXcQ" ≠ "") by discriminate.
  assert (Hp : "youtube.com/watch?v=" ∈ urlPrefixes) by left.
  exact (X1_extract_after_prefix "https://www." "youtube.com/watch?v="
           "dQw4w9WgXcQ" "&t=42" eq_refl Hp Hne eq_refl eq_refl).
Defined.

(** An identifier holds no character of a URL prefix that is not a
    letter: it matches no URL pattern. *)
Lemma dropPrefix_Some (p s r : string) : dropPrefix p s = Some r → s = p +:+ r.
Proof.
  revert s. induction p as [|a p IH]; intros s; simpl.
  - by intros [= ->].
  - destruct s as [|b s]; [done|].
    destruct (Ascii.eqb_spec a b) as [->|]; [|done].
    intros H%IH. by rewrite H.
Qed.

Lemma allChars_app (f : ascii → bool) (s t : string) :
  allChars f (s +:+ t) = allChars f s && allChars f t.
Proof.
  induction s as [|c s IH]; [done|].
  change (f c && allChars f (s +:+ t) = f c && allChars f s && allChars f t).
  by rewrite IH, andb_assoc.
Qed.

Lemma matchUrlAt_id (s : string) :
  allChars isIdChar s = true → matchUrlAt urlPrefixes s = None.
Proof.
  intros Hs. unfold urlPrefixes. cbn [matchUrlAt].
  repeat match goal with
         | |- context [dropPrefix ?p s] =>
             let E := fresh "E" in
             destruct (dropPrefix p s) as [?|] eqn:E;
             [apply dropPrefix_Some in E; rewrite E, allChars_app in Hs;
              discriminate Hs|]
         end.
  done.
Qed.

Lemma matchUrl_id (s : string) : allChars isIdChar s = true → matchUrl s = None.
Proof.
  induction s as [|c s IH]; intros Hs.
  - reflexivity.
  - cbn [matchUrl]. rewrite (matchUrlAt_id _ Hs).
    simpl in Hs. apply andb_true_iff in Hs as [_ Hs]. by apply IH.
Qed.

Lemma isIdChar_token (c : ascii) : isIdChar c = true → isTokenChar c = true.
Proof.
  destruct c as [[] [] [] [] [] [] [] []]; vm_compute; done.
Qed.

Lemma allChars_impl (f g : ascii → bool) (s : string) :
  (∀ c, f c = true → g c = true) → allChars f s = true → allChars g s = true.
Proof.
  intros Hfg. induction s as [|c s IH]; simpl; [done|].
  intros [Hc Hs]%andb_true_iff. by rewrite (Hfg c Hc), IH.
Qed.

(** Two inputs that carry the same identifier get the same answer. *)
Lemma GET_same_id (input1 input2 videoId : string)
    (getInfo : string → YtdlError + YtdlInfo) :
  Js.truthyStr (Some input1) = true → Js.truthyStr (Some input2) = true →
  extractVideoId input1 = Some videoId → extractVideoId input2 = Some videoId →
  GET (Some input1) getInfo = GET (Some input2) getInfo.
Proof.
  intros H1 H2 E1 E2. unfold GET. rewrite H1, H2. simpl. by rewrite E1, E2.
Qed.

(** X2. The endpoint answers a URL of any of the four shapes as it
    answers the bare identifier the URL carries: the same response,
    whatever precedes the prefix (without the letter y) and whatever
    follows the identifier after an ampersand, a question mark, a hash or
    a newline. *)
Theorem X2_same_answer_on_every_shape (lead p videoId rest : string)
    (getInfo : string → YtdlError + YtdlInfo) :
  allChars (λ c, negb (Ascii.eqb c "y")) lead = true →
  p ∈ urlPrefixes → isVideoId videoId = true → stopped rest →
  GET (Some (lead +:+ p +:+ videoId +:+ rest)) getInfo = GET (Some videoId) getInfo.
Proof.
  intros Hl Hp Hv Hr.
  pose proof Hv as Hv'. unfold isVideoId in Hv'.
  apply andb_true_iff in Hv' as [Hlen Hid].
  assert (Hne : videoId ≠ "") by (intros ->; discriminate Hlen).
  assert (Htok : allChars isTokenChar videoId = true)
    by (eapply allChars_impl; [apply isIdChar_token | done]).
  assert (Hurl : Js.truthyStr (Some (lead +:+ p +:+ videoId +:+ rest)) = true).
  { destruct lead as [|c lead]; [|done].
    unfold urlPrefixes in Hp.
    repeat (apply elem_of_cons in Hp as [->|Hp]); try done.
    by apply elem_of_nil in Hp. }
  assert (Hbare : Js.truthyStr (Some videoId) = true) by by destruct videoId.
  apply (GET_same_id _ _ videoId); [done..| |].
  - by apply extract_after_prefix.
  - unfold extractVideoId. by rewrite (matchUrl_id _ Hid), Hv.
Qed.

Lemma X2_same_answer_on_every_shape_witness :
  GET (Some "https://youtu.be/dQw4w9WgXcQ?si=abc")
      (Samples.serviceWith [Samples.muxedStream]) =
  GET (Some "dQw4w9WgXcQ") (Samples.serviceWith [Samples.muxedStream]).
Proof.
  assert (Hp : "youtu.be/" ∈ urlPrefixes) by (right; left).
  exact (X2_same_answer_on_every_shape "https://" "youtu.be/" "dQw4w9WgXcQ"
           "?si=abc" (Samples.serviceWith [Samples.muxedStream])
           eq_refl Hp eq_refl eq_refl).
Defined.

(** The token the validation lets through is the identifier the service
    is asked about. *)
Lemma GET_inputs (input : option string) (getInfo : string → YtdlError + YtdlInfo) :
  (∃ code msg, GET input getInfo = failure code msg 400 ∧
     code ∈ ["MISSING_URL"; "INVALID_URL"; "INVALID_VIDEO_ID"]) ∨
  (∃ address videoId, input = Some address ∧
     extractVideoId address = Some videoId ∧ isVideoId videoId = true ∧
     GET input getInfo =
       match getInfo videoId with
       | inl e => getInfoFailure e
       | inr info => GET input (λ _, inr info)
       end).
Proof.
  unfold GET. destruct (Js.truthyStr input) eqn:Ht; simpl.
  - destruct input as [address|]; [|done]. simpl.
    destruct (extractVideoId address) as [videoId|] eqn:Ee.
    + destruct (isVideoId videoId) eqn:Ev; simpl.
      * right. exists address, videoId. split_and!; [done..|].
        by destruct (getInfo videoId).
      * left. eexists _, _. split; [done|]. do 2 right. left.
    + left. eexists _, _. split; [done|]. right. left.
  - left. eexists _, _. split; [done|]. left.
Qed.

(** X3. The resolution service is asked about well-formed identifiers
    only: two services that agree on every 11-character identifier of
    [a-zA-Z0-9_-] get the same answer from the endpoint on every input. *)
Theorem X3_service_asked_valid_ids_only (input : option string)
    (getInfo1 getInfo2 : string → YtdlError + YtdlInfo) :
  (∀ videoId, isVideoId videoId = true → getInfo1 videoId = getInfo2 videoId) →
  GET input getInfo1 = GET input getInfo2.
Proof.
  intros Hagree. unfold GET.
  destruct (Js.truthyStr input); simpl; [|done].
  destruct (extractVideoId (default "" input)) as [videoId|]; [|done].
  destruct (isVideoId videoId) eqn:Ev; simpl; [|done].
  by rewrite (Hagree videoId Ev).
Qed.

Lemma X3_service_asked_valid_ids_only_witness :
  GET (Some "https://youtu.be/dQw4w9WgXcQ") (Samples.serviceWith [Samples.muxedStream]) =
  GET (Some "https://youtu.be/dQw4w9WgXcQ")
      (MoreSamples.guarded (Samples.serviceWith [Samples.muxedStream])).
Proof.
  apply X3_service_asked_valid_ids_only.
  intros videoId Hv. unfold MoreSamples.guarded. by rewrite Hv.
Defined.

(** A message that holds Video unavailable holds unavailable. *)
Lemma includes_unavailable (m : string) :
  Js.includes m "Video unavailable" = true → Js.includes m "unavailable" = true.
Proof.
  rewrite !InfoFacts.includes_spec. intros (before & after & ->).
  exists (before +:+ "Video "), after.
  by rewrite SelectorFacts.append_assoc.
Qed.

Lemma getInfoFailure_shape (e : YtdlError) :
  ∃ code msg st, getInfoFailure e = failure code msg st ∧ msg ≠ "" ∧
                 st ∈ [403; 429; 500]%Z ∧ code ≠ "VIDEO_NOT_FOUND".
Proof.
  unfold getInfoFailure.
  destruct (messageIncludes e "n transform" || messageIncludes e "signature" ||
            messageIncludes e "decipher").
  { eexists _, _, _. split_and!; [done|discriminate| |discriminate].
    do 2 right. left. }
  destruct (messageIncludes e "Private video" || messageIncludes e "unavailable")
    eqn:Eu.
  { eexists _, _, _. split_and!; [done|discriminate| |discriminate]. left. }
  assert (Hnot : messageIncludes e "Video unavailable" = false).
  { apply orb_false_iff in Eu as [_ Eu]. unfold messageIncludes in *.
    destruct (e_message e) as [m|]; [|done].
    destruct (Js.includes m "Video unavailable") eqn:Ev; [|done].
    apply includes_unavailable in Ev. congruence. }
  rewrite Hnot.
  destruct (messageIncludes e "Sign in to confirm your age").
  { eexists _, _, _. split_and!; [done|discriminate| |discriminate]. left. }
  destruct (bool_decide (e_statusCode e = Some 429%Z) ||
            messageIncludes e "rate limit").
  { eexists _, _, _. split_and!; [done|discriminate| |discriminate]. right. left. }
  eexists _, _, _. split_and!; [done|discriminate| |discriminate].
  do 2 right. left.
Qed.

(** X4. A failure of the resolution service is never reported as
    VIDEO_NOT_FOUND, nor with status 404: a message that holds
    Video unavailable holds unavailable, which the test for
    VIDEO_UNAVAILABLE, made first, lets through; neither is a signature
    failure ever reported as anything but SIGNATURE_ERROR. *)
Theorem X4_not_found_never_reported (e : YtdlError) :
  error (body (getInfoFailure e)) ≠ Some "VIDEO_NOT_FOUND" ∧
  status (getInfoFailure e) ≠ 404%Z ∧
  (messageIncludes e "Video unavailable" = true →
   error (body (getInfoFailure e)) = Some "SIGNATURE_ERROR" ∨
   error (body (getInfoFailure e)) = Some "VIDEO_UNAVAILABLE").
Proof.
  unfold getInfoFailure.
  destruct (messageIncludes e "n transform" || messageIncludes e "signature" ||
            messageIncludes e "decipher"); [split_and!; (done || by left)|].
  destruct (messageIncludes e "Private video" || messageIncludes e "unavailable")
    eqn:Eu; [split_and!; (done || by right)|].
  assert (Hnot : messageIncludes e "Video unavailable" = false).
  { apply orb_false_iff in Eu as [_ Eu]. unfold messageIncludes in *.
    destruct (e_message e) as [m|]; [|done].
    destruct (Js.includes m "Video unavailable") eqn:Ev; [|done].
    apply includes_unavailable in Ev. congruence. }
  rewrite Hnot.
  destruct (messageIncludes e "Sign in to confirm your age");
    [split_and!; done|].
  destruct (bool_decide (e_statusCode e = Some 429%Z) ||
            messageIncludes e "rate limit"); split_and!; done.
Qed.

Lemma X4_not_found_never_reported_witness :
  error (body (getInfoFailure
                 {| e_message := Some "Video unavailable"; e_statusCode := None |})) =
    Some "VIDEO_UNAVAILABLE".
Proof.
  destruct (X4_not_found_never_reported
              {| e_message := Some "Video unavailable"; e_statusCode := None |})
    as (_ & _ & H).
  destruct (H eq_refl) as [E|E]; [discriminate E | exact E].
Defined.

Lemma response_shape (input : option string)
    (getInfo : string → YtdlError + YtdlInfo) :
  let r := GET input getInfo in
  (success (body r) = true ∧ status r = 200%Z ∧
   (∃ info catalog,
      data (body r) = Some catalog ∧
      formats catalog = List.filter keepFormat (map parseFormat (y_formats info))) ∧
   error (body r) = None ∧ message (body r) = None) ∨
  (success (body r) = false ∧ status r ∈ [400; 403; 429; 500]%Z ∧
   data (body r) = None ∧ is_Some (error (body r)) ∧
   ∃ msg, message (body r) = Some msg ∧ msg ≠ "").
Proof.
  assert (Hfail : ∀ code msg st, msg ≠ "" → st ∈ [400; 403; 429; 500]%Z →
    success (body (failure code msg st)) = false ∧
    status (failure code msg st) ∈ [400; 403; 429; 500]%Z ∧
    data (body (failure code msg st)) = None ∧
    is_Some (error (body (failure code msg st))) ∧
    ∃ m, message (body (failure code msg st)) = Some m ∧ m ≠ "").
  { intros code msg st Hm Hs. simpl. split_and!; [done..|by eexists|by eexists]. }
  assert (H400 : 400%Z ∈ [400; 403; 429; 500]%Z) by left.
  assert (H403 : 403%Z ∈ [400; 403; 429; 500]%Z) by (right; left).
  assert (H429 : 429%Z ∈ [400; 403; 429; 500]%Z) by (do 2 right; left).
  assert (H500 : 500%Z ∈ [400; 403; 429; 500]%Z) by (do 3 right; left).
  intros r. subst r. unfold GET.
  destruct (Js.truthyStr input); cbn [negb];
    [|right; apply Hfail; [discriminate|done]].
  cbv zeta.
  destruct (extractVideoId (default "" input)) as [videoId|];
    [|right; apply Hfail; [discriminate|done]].
  destruct (isVideoId videoId); cbn [negb];
    [|right; apply Hfail; [discriminate|done]].
  destruct (getInfo videoId) as [e|info].
  - right. destruct (getInfoFailure_shape e) as (code & msg & st & -> & Hm & Hs & _).
    apply Hfail; [done|].
    repeat (apply elem_of_cons in Hs as [->|Hs]); try done.
    by apply elem_of_nil in Hs.
  - left. simpl. split_and!; [done..|by eexists _, _|done|done].
Qed.

(** X5. Every answer of the endpoint has one shape: either success, with
    status 200, the video information and no error; or a failure, with a
    status among 400, 403, 429 and 500, an error code, a message that is
    not empty and no data. *)
Theorem X5_response_shape (input : option string)
    (getInfo : string → YtdlError + YtdlInfo) :
  let r := GET input getInfo in
  (success (body r) = true ∧ status r = 200%Z ∧ is_Some (data (body r)) ∧
   error (body r) = None) ∨
  (success (body r) = false ∧ status r ∈ [400; 403; 429; 500]%Z ∧
   data (body r) = None ∧ is_Some (error (body r)) ∧
   ∃ msg, message (body r) = Some msg ∧ msg ≠ "").
Proof.
  intros r.
  destruct (response_shape input getInfo)
    as [(Hs & Hst & (info & catalog & Hd & _) & He & _)|Hfail].
  - left. subst r. rewrite Hd. split_and!; [done..|by eexists|done].
  - by right.
Qed.

(** The decimal numeral of a non-negative integer is a non-empty run of
    digits. *)
Lemma string_of_uint_digits (d : Decimal.uint) :
  allChars Js.isDigit (NilEmpty.string_of_uint d) = true.
Proof. induction d; simpl; done. Qed.

Lemma numToString_digits (n : Z) :
  (0 ≤ n)%Z → allChars Js.isDigit (Js.numToString n) = true.
Proof.
  intros Hn. unfold Js.numToString. destruct n as [|p|p]; [done| |lia].
  simpl. unfold NilZero.string_of_uint.
  destruct (Pos.to_uint p) eqn:Ep; try apply string_of_uint_digits. done.
Qed.

(** A numeral ends at the first colon. *)
Lemma split_colon (s1 s2 r1 r2 : string) :
  allChars Js.isDigit s1 = true → allChars Js.isDigit s2 = true →
  s1 +:+ ":" +:+ r1 = s2 +:+ ":" +:+ r2 → s1 = s2 ∧ r1 = r2.
Proof.
  revert s2. induction s1 as [|c s1 IH]; intros [|d s2] H1 H2 E.
  - injection E as E. by subst.
  - injection E as E _. subst d. discriminate H2.
  - injection E as E _. subst c. discriminate H1.
  - injection E as Ec E. subst d. simpl in H1, H2.
    apply andb_true_iff in H1 as [_ H1]. apply andb_true_iff in H2 as [_ H2].
    destruct (IH s2 H1 H2 E) as [-> ->]. done.
Qed.

(** The two-character fields: two digits each, which tell the value. *)
Lemma pad2_checked :
  forallb (λ n, Nat.eqb (String.length (pad2 n)) 2 &&
                allChars Js.isDigit (pad2 n) &&
                bool_decide (Js.parseInt (pad2 n) = Some n))
          (Z.of_nat <$> seq 0 60) = true.
Proof. vm_compute. reflexivity. Qed.

Lemma pad2_field (n : Z) :
  (0 ≤ n < 60)%Z →
  String.length (pad2 n) = 2 ∧ allChars Js.isDigit (pad2 n) = true ∧
  Js.parseInt (pad2 n) = Some n.
Proof.
  intros Hn. pose proof pad2_checked as Hall.
  rewrite forallb_forall in Hall.
  assert (Hin : In n (Z.of_nat <$> seq 0 60)).
  { apply list_elem_of_In, list_elem_of_fmap. exists (Z.to_nat n).
    split; [lia|]. apply list_elem_of_In, in_seq. lia. }
  specialize (Hall n Hin).
  apply andb_true_iff in Hall as [[H1 H2]%andb_true_iff H3].
  apply Nat.eqb_eq in H1. apply bool_decide_eq_true in H3. done.
Qed.

(** X6. Two different non-negative durations are never displayed alike:
    the formatted duration tells the number of seconds. *)
Theorem X6_formatDuration_injective (a b : Z) :
  (0 ≤ a)%Z → (0 ≤ b)%Z → a ≠ b →
  formatDuration (Some a) ≠ formatDuration (Some b).
Proof.
  intros Ha Hb Hne E. apply Hne. clear Hne. unfold formatDuration in E.
  rewrite !Z.rem_mod_nonneg in E by lia.
  set (ha := (a / 3600)%Z) in *. set (hb := (b / 3600)%Z) in *.
  set (ma := (a `mod` 3600 / 60)%Z) in *. set (mb := (b `mod` 3600 / 60)%Z) in *.
  set (sa := (a `mod` 60)%Z) in *. set (sb := (b `mod` 60)%Z) in *.
  assert (Hma : (0 ≤ ma < 60)%Z) by (subst ma; Z.div_mod_to_equations; lia).
  assert (Hmb : (0 ≤ mb < 60)%Z) by (subst mb; Z.div_mod_to_equations; lia).
  assert (Hsa : (0 ≤ sa < 60)%Z) by (subst sa; Z.div_mod_to_equations; lia).
  assert (Hsb : (0 ≤ sb < 60)%Z) by (subst sb; Z.div_mod_to_equations; lia).
  assert (Hha : (0 ≤ ha)%Z) by (subst ha; Z.div_mod_to_equations; lia).
  assert (Hhb : (0 ≤ hb)%Z) by (subst hb; Z.div_mod_to_equations; lia).
  assert (Hda : a = (3600 * ha + 60 * ma + sa)%Z)
    by (subst ha ma sa; Z.div_mod_to_equations; lia).
  assert (Hdb : b = (3600 * hb + 60 * mb + sb)%Z)
    by (subst hb mb sb; Z.div_mod_to_equations; lia).
  destruct (pad2_field ma Hma) as (Lma & Dma & Pma).
  destruct (pad2_field mb Hmb) as (Lmb & Dmb & Pmb).
  destruct (pad2_field sa Hsa) as (Lsa & Dsa & Psa).
  destruct (pad2_field sb Hsb) as (Lsb & Dsb & Psb).
  clearbody ha hb ma mb sa sb.
  destruct (Z.ltb_spec 0 ha) as [Hpa|Hza], (Z.ltb_spec 0 hb) as [Hpb|Hzb];
    cbv iota in E.
  - apply split_colon in E as [Eh E]; [|apply numToString_digits; lia..].
    apply split_colon in E as [Em Es]; [|done..].
    apply numToString_inj in Eh. rewrite Em in Pma. rewrite Es in Psa.
    assert (ma = mb) by congruence. assert (sa = sb) by congruence. lia.
  - apply split_colon in E as [_ E]; [|apply numToString_digits; lia..].
    apply (f_equal String.length) in E.
    rewrite !append_length, Lma, Lsa, Lsb in E. simpl in E. lia.
  - apply split_colon in E as [_ E]; [|apply numToString_digits; lia..].
    apply (f_equal String.length) in E.
    rewrite !append_length, Lmb, Lsa, Lsb in E. simpl in E. lia.
  - apply split_colon in E as [Em Es]; [|apply numToString_digits; lia..].
    apply numToString_inj in Em. rewrite Es in Psa.
    assert (sa = sb) by congruence. lia.
Qed.

Lemma X6_formatDuration_injective_witness :
  formatDuration (Some 61%Z) ≠ formatDuration (Some 3661%Z).
Proof. apply X6_formatDuration_injective; lia. Defined.

End InfoMore.

(** ** More on the JavaScript primitives *)

Module JsMore.
Import Js JsFacts.

(** Reading digits after a positive value, and from the start. *)
Lemma parseDigits_acc (d : Decimal.uint) (acc : positive) :
  parseDigits true (Z.pos acc) (NilEmpty.string_of_uint d) =
  Some (Z.pos (Pos.of_uint_acc d acc)).
Proof.
  revert acc. induction d; intros acc; simpl; [done|..];
    rewrite <- IHd; f_equal; lia.
Qed.

Lemma parseDigits_zero (d : Decimal.uint) :
  parseDigits true 0 (NilEmpty.string_of_uint d) = Some (Z.of_N (Pos.of_uint d)).
Proof.
  induction d; simpl; [done|done|..]; by rewrite <- parseDigits_acc.
Qed.

Lemma parseDigits_start (d : Decimal.uint) :
  d ≠ Decimal.Nil →
  parseDigits false 0 (NilEmpty.string_of_uint d) = Some (Z.of_N (Pos.of_uint d)).
Proof.
  intros Hd. rewrite <- parseDigits_zero. by destruct d.
Qed.

Lemma digits_not_sign (d : Decimal.uint) :
  d ≠ Decimal.Nil →
  parseInt (NilEmpty.string_of_uint d) =
  parseDigits false 0 (NilEmpty.string_of_uint d).
Proof. intros Hd. by destruct d. Qed.

Lemma parseInt_numToString (n : Z) : parseInt (numToString n) = Some n.
Proof.
  unfold numToString.
  destruct (to_int_not_nil n) as [Hpos Hneg].
  rewrite <- (DecimalZ.of_to n) at 2.
  destruct (Z.to_int n) as [d|d]; simpl.
  - assert (Hd : d ≠ Decimal.Nil) by congruence.
    unfold NilZero.string_of_uint.
    replace (match d with Decimal.Nil => "0" | _ => NilEmpty.string_of_uint d end)
      with (NilEmpty.string_of_uint d) by by destruct d.
    rewrite digits_not_sign, parseDigits_start by done. done.
  - assert (Hd : d ≠ Decimal.Nil) by congruence.
    unfold NilZero.string_of_uint.
    replace (match d with Decimal.Nil => "0" | _ => NilEmpty.string_of_uint d end)
      with (NilEmpty.string_of_uint d) by by destruct d.
    unfold parseInt. simpl. rewrite parseDigits_start by done. simpl.
    unfold Z.of_uint. by destruct (Pos.of_uint d).
Qed.

End JsMore.

(** ** More on the quality selector *)

Module SelectorMore.
Import Video QualitySelector SelectorSpec SelectorView JsFacts SelectorFacts.

(** The options, by groups: the audio option, if any, then the video
    options. *)
Lemma options_by_group (formats : list VideoFormat) :
  qualityOptions formats =
  match highestBitrate (List.filter audioOnly formats) with
  | Some best => [audioOption best]
  | None => []
  end ++
  map videoOption (firstSeen [] (sortDescending (List.filter hasVideo formats))).
Proof.
  rewrite qualityOptions_buildOptions. unfold buildOptions. f_equal.
  apply map_ext. intros f. symmetry. apply videoOption_videoChoice.
Qed.

Lemma StronglySorted_sublist {A} (R : relation A) (l1 l2 : list A) :
  l1 `sublist_of` l2 → StronglySorted R l2 → StronglySorted R l1.
Proof.
  induction 1 as [|x l1 l2 Hsub IH|x l1 l2 Hsub IH]; intros Hs.
  - done.
  - apply StronglySorted_inv in Hs as [Hs Hx]. constructor; [by apply IH|].
    eapply Forall_forall. intros y Hy. eapply Forall_forall; [exact Hx|].
    by eapply elem_of_sublist.
  - apply StronglySorted_inv in Hs as [Hs _]. by apply IH.
Qed.

Lemma firstSeen_first (f : VideoFormat) (l : list VideoFormat) :
  firstSeen [] (f :: l) = f :: firstSeen [dedupKey f] l.
Proof. cbn [firstSeen]. by rewrite decide_False by apply not_elem_of_nil. Qed.

Lemma options_from_catalog (formats : list VideoFormat) (o : QualityOption) :
  o ∈ qualityOptions formats →
  format o ∈ formats ∧
  (group o = audio ∧ hasAudio (format o) = true ∧ hasVideo (format o) = false ∧
   requiresMerge o = false ∨
   group o = video ∧ hasVideo (format o) = true ∧
   requiresMerge o = negb (hasAudio (format o))) ∧
  (requiresMerge o = true ↔
   hasVideo (format o) = true ∧ hasAudio (format o) = false).
Proof.
  rewrite options_by_group. intros [Ho|Ho]%elem_of_app.
  - destruct (highestBitrate (List.filter audioOnly formats)) as [best|] eqn:Eb;
      [|by apply elem_of_nil in Ho].
    apply list_elem_of_singleton in Ho as ->.
    apply highestBitrate_Some in Eb as [Hin _].
    apply elem_of_filter in Hin as [Hin Ha]. unfold audioOnly in Ha.
    apply andb_true_iff in Ha as [Ha Hv%negb_true_iff]. simpl.
    split_and!; [done|left; by split_and!|].
    split; [done|]. intros [? _]. congruence.
  - change (o ∈ videoOption <$> firstSeen [] (sortDescending
                                   (List.filter hasVideo formats))) in Ho.
    apply list_elem_of_fmap in Ho as (f & -> & Hf).
    apply videoChoices_hasVideo in Hf as [Hf Hv]. simpl.
    split_and!; [done|right; by split_and!|].
    split; [intros ?%negb_true_iff; done | intros [_ ->]; done].
Qed.

(** X8. Every option stands on a descriptor of the catalog: the audio
    option on a descriptor with audio and no video, without merge; a video
    option on a descriptor with video, with a merge exactly when the
    descriptor has no audio. So an option requires a merge exactly when
    its descriptor is video-only, and none stands on a descriptor that
    carries neither video nor audio. *)
Theorem X8_options_from_catalog (formats : list VideoFormat) (o : QualityOption) :
  o ∈ qualityOptions formats →
  format o ∈ formats ∧
  (group o = audio ∧ hasAudio (format o) = true ∧ hasVideo (format o) = false ∧
   requiresMerge o = false ∨
   group o = video ∧ hasVideo (format o) = true ∧
   requiresMerge o = negb (hasAudio (format o))) ∧
  (requiresMerge o = true ↔
   hasVideo (format o) = true ∧ hasAudio (format o) = false).
Proof. apply options_from_catalog. Qed.

Lemma X8_options_from_catalog_witness :
  format (videoOption Samples.videoOnly1080) ∈ Samples.catalog ∧
  (requiresMerge (videoOption Samples.videoOnly1080) = true ↔
   hasVideo Samples.videoOnly1080 = true ∧ hasAudio Samples.videoOnly1080 = false).
Proof.
  assert (Hin : videoOption Samples.videoOnly1080 ∈ qualityOptions Samples.catalog)
    by (vm_compute; do 2 right; left).
  destruct (X8_options_from_catalog Samples.catalog _ Hin) as (H1 & _ & H2).
  split; [exact H1 | exact H2].
Defined.

(** X9. The selector has nothing to offer, and shows No formats
    available, exactly when every descriptor of the catalog carries
    neither video nor audio; in particular on the empty catalog. *)
Theorem X9_no_formats_available (formats : list VideoFormat) :
  noFormatsAvailable (qualityOptions formats) = true ↔
  ∀ f, f ∈ formats → hasVideo f = false ∧ hasAudio f = false.
Proof.
  unfold noFormatsAvailable. rewrite Nat.eqb_eq, options_by_group.
  rewrite length_app, length_map. split.
  - intros Hlen f Hf.
    destruct (highestBitrate (List.filter audioOnly formats)) as [best|] eqn:Eb;
      [simpl in Hlen; lia|].
    apply highestBitrate_None in Eb.
    destruct (hasVideo f) eqn:Hv.
    + exfalso.
      assert (Hs : f ∈ sortDescending (List.filter hasVideo formats))
        by (rewrite sortDescending_Permutation; by apply elem_of_filter).
      destruct (sortDescending (List.filter hasVideo formats)) as [|x l];
        [by apply elem_of_nil in Hs|].
      rewrite firstSeen_first in Hlen. simpl in Hlen. lia.
    + split; [done|]. destruct (hasAudio f) eqn:Ha; [|done].
      assert (Hin : f ∈ List.filter audioOnly formats)
        by (apply elem_of_filter; unfold audioOnly; by rewrite Ha, Hv).
      rewrite Eb in Hin. by apply elem_of_nil in Hin.
  - intros Hall.
    assert (Ha : List.filter audioOnly formats = []).
    { destruct (List.filter audioOnly formats) as [|x l] eqn:El; [done|].
      assert (Hx : x ∈ List.filter audioOnly formats) by (rewrite El; left).
      apply elem_of_filter in Hx as [Hx Hxa]. destruct (Hall x Hx) as [_ Hna].
      unfold audioOnly in Hxa. by rewrite Hna in Hxa. }
    assert (Hv : List.filter hasVideo formats = []).
    { destruct (List.filter hasVideo formats) as [|x l] eqn:El; [done|].
      assert (Hx : x ∈ List.filter hasVideo formats) by (rewrite El; left).
      apply elem_of_filter in Hx as [Hx Hxv]. destruct (Hall x Hx) as [Hnv _].
      congruence. }
    by rewrite Ha, Hv.
Qed.

Lemma X9_no_formats_available_witness :
  noFormatsAvailable
    (qualityOptions [Samples.sampleFormat 999 false false None None]) = true.
Proof.
  apply X9_no_formats_available.
  intros f Hf. apply list_elem_of_singleton in Hf as ->. split; reflexivity.
Defined.

Lemma descending_height (a b : VideoFormat) :
  descending a b → (heightOr0 b ≤ heightOr0 a)%Z.
Proof. unfold descending. lia. Qed.

Lemma two_keys_per_height (h : Z) (l : list VideoFormat) :
  NoDup (dedupKey <$> l) →
  length (List.filter (λ f, (heightOr0 f =? h)%Z) l) ≤ 2.
Proof.
  intros Hnd.
  set (ws := List.filter (λ f, (heightOr0 f =? h)%Z) l).
  assert (Hws : NoDup (dedupKey <$> ws)).
  { eapply sublist_NoDup; [exact Hnd|]. apply fmap_sublist, filter_sublist. }
  assert (Hin : ∀ k, k ∈ dedupKey <$> ws → k ∈ [(h, true); (h, false)]).
  { intros k (f & -> & Hf)%list_elem_of_fmap.
    apply elem_of_filter in Hf as [_ Hh%Z.eqb_eq]. unfold dedupKey. rewrite Hh.
    destruct (hasAudio f); [left | right; left]. }
  pose proof (submseteq_length _ _ (NoDup_submseteq _ _ Hws Hin)) as Hlen.
  by rewrite length_fmap in Hlen.
Qed.

(** X10. The options come as the audio option, at most one, followed by
    the video options; the heights of the video options never increase
    down the list, and no height has more than two video options. *)
Theorem X10_options_order (formats : list VideoFormat) :
  ∃ audioPart videoPart,
    qualityOptions formats = audioPart ++ videoPart ∧
    length audioPart ≤ 1 ∧
    Forall (λ o, group o = audio) audioPart ∧
    Forall (λ o, group o = video) videoPart ∧
    StronglySorted (λ a b, (heightOr0 (format b) ≤ heightOr0 (format a))%Z)
      videoPart ∧
    ∀ h, length (List.filter (λ o, (heightOr0 (format o) =? h)%Z) videoPart) ≤ 2.
Proof.
  eexists _, _. split; [apply options_by_group|].
  set (vs := firstSeen [] (sortDescending (List.filter hasVideo formats))).
  split_and!.
  - destruct (highestBitrate _); simpl; lia.
  - destruct (highestBitrate _); repeat constructor.
  - apply Forall_forall. intros o Ho.
    change (o ∈ videoOption <$> vs) in Ho.
    by apply list_elem_of_fmap in Ho as (f & -> & _).
  - change (map videoOption vs) with (videoOption <$> vs).
    eapply (StronglySorted_fmap _ descending).
    + intros a b. apply descending_height.
    + eapply StronglySorted_sublist; [apply firstSeen_sublist|].
      apply sortDescending_sorted.
  - intros h. rewrite filter_map_swap, length_map. apply two_keys_per_height.
    destruct (firstSeen_keys [] (sortDescending (List.filter hasVideo formats)))
      as [Hnd _]; [constructor|]. by rewrite app_nil_r in Hnd.
Qed.

(** The value keys and the itags of the options of a catalog with
    distinct itags are distinct. *)
Lemma options_distinct (formats : list VideoFormat) :
  NoDup (itag <$> formats) →
  NoDup (value <$> qualityOptions formats) ∧
  NoDup ((λ o, itag (format o)) <$> qualityOptions formats).
Proof.
  intros Hnd. rewrite options_by_group.
  set (vs := firstSeen [] (sortDescending (List.filter hasVideo formats))).
  pose proof (videoChoices_itags formats Hnd) as Hvs. fold vs in Hvs.
  rewrite !fmap_app.
  change (map videoOption vs) with (videoOption <$> vs).
  rewrite <- !list_fmap_compose.
  assert (Hvalues : NoDup ((value ∘ videoOption) <$> vs)).
  { change (value ∘ videoOption)
      with ((λ i, "video-" +:+ Js.numToString i) ∘ itag).
    rewrite list_fmap_compose. by apply (@NoDup_fmap_2 _ _ _ video_value_inj). }
  destruct (highestBitrate (List.filter audioOnly formats)) as [best|] eqn:Eb;
    [|done].
  apply highestBitrate_Some in Eb as [Hbest _].
  apply elem_of_filter in Hbest as [Hbest Haudio]. simpl. split.
  - apply NoDup_cons. split; [|done].
    intros (f & E & _)%list_elem_of_fmap. discriminate E.
  - apply NoDup_cons. split; [|done].
    intros (f & E & Hf)%list_elem_of_fmap. simpl in E.
    apply videoChoices_hasVideo in Hf as [Hf Hv].
    apply (itag_inj_on formats _ _ Hnd Hbest Hf) in E. subst f.
    unfold audioOnly in Haudio. rewrite Hv in Haudio. by destruct (hasAudio best).
Qed.

(** In a list without two elements of the same key, [find] on the key of
    an element finds that element. *)
Lemma find_by_key {A B} (key : A → B) (eqb : B → B → bool) (l : list A) (x : A) :
  (∀ a b, eqb a b = true ↔ a = b) →
  NoDup (key <$> l) → x ∈ l →
  Js.find (λ y, eqb (key y) (key x)) l = Some x.
Proof.
  intros Heqb. unfold Js.find.
  induction l as [|y l IH]; intros Hnd Hx; [by apply elem_of_nil in Hx|].
  rewrite fmap_cons in Hnd. apply NoDup_cons in Hnd as [Hy Hnd]. simpl.
  apply elem_of_cons in Hx as [->|Hx].
  - by rewrite (proj2 (Heqb _ _) eq_refl).
  - destruct (eqb (key y) (key x)) eqn:E; [|by apply IH].
    apply Heqb in E. exfalso. apply Hy. rewrite E. by apply list_elem_of_fmap_2.
Qed.

Lemma value_not_empty (formats : list VideoFormat) (o : QualityOption) :
  o ∈ qualityOptions formats → Js.orStr (Some (value o)) "" = value o.
Proof.
  rewrite options_by_group. intros [Ho|Ho]%elem_of_app.
  - destruct (highestBitrate _); [|by apply elem_of_nil in Ho].
    by apply list_elem_of_singleton in Ho as ->.
  - change (o ∈ videoOption <$> firstSeen [] (sortDescending
                                   (List.filter hasVideo formats))) in Ho.
    by apply list_elem_of_fmap in Ho as (f & -> & _).
Qed.

(** X11. On a catalog with distinct itags the select round-trips: the
    change to the value of an option hands over the descriptor of that
    option, and the value shown as selected for that descriptor is the
    value of that option. A selected format that no option stands on (one
    that the deduplication dropped, say) shows the empty value of the
    placeholder. *)
Theorem X11_select_round_trip (formats : list VideoFormat) :
  NoDup (map itag formats) →
  (∀ o, o ∈ qualityOptions formats →
     onChange (value o) (qualityOptions formats) = Some (format o) ∧
     selectedValue (Some (format o)) (qualityOptions formats) = value o) ∧
  (∀ f, (∀ o, o ∈ qualityOptions formats → itag (format o) ≠ itag f) →
     selectedValue (Some f) (qualityOptions formats) = "").
Proof.
  intros Hnd. change (NoDup (itag <$> formats)) in Hnd.
  destruct (options_distinct formats Hnd) as [Hvalues Hitags]. split.
  - intros o Ho. unfold onChange, selectedValue. split.
    + by rewrite (find_by_key value String.eqb _ o String.eqb_eq Hvalues Ho).
    + rewrite (find_by_key (λ o, itag (format o)) Z.eqb _ o Z.eqb_eq Hitags Ho).
      simpl. by apply (value_not_empty formats).
  - intros f Hnone. unfold selectedValue, Js.find.
    destruct (find _ _) as [o|] eqn:Ef; [|done].
    apply find_some in Ef as [Ho%list_elem_of_In Hi%Z.eqb_eq].
    by destruct (Hnone o Ho).
Qed.

Lemma X11_select_round_trip_witness :
  onChange "video-137" (qualityOptions Samples.catalog) = Some Samples.videoOnly1080 ∧
  selectedValue (Some Samples.videoOnly1080) (qualityOptions Samples.catalog) =
    "video-137".
Proof.
  assert (Hnd : NoDup (map itag Samples.catalog)).
  { simpl. repeat (apply NoDup_cons; split; [distinct_keys|]). apply NoDup_nil_2. }
  assert (Hin : videoOption Samples.videoOnly1080 ∈ qualityOptions Samples.catalog)
    by (vm_compute; do 2 right; left).
  exact (proj1 (X11_select_round_trip Samples.catalog Hnd) _ Hin).
Defined.

End SelectorMore.

(** ** More on the proxy relay *)

Module RelayMore.
Import InfoRoute DownloadRoute RelayFacts RouteSpec.

(** Walks through the handler, one goal for each way out of it. *)
Ltac relay_cases request svc :=
  unfold GET;
  destruct (Js.truthyStr (r_videoId request)) eqn:Hv; cbn [negb orb];
  [destruct (Js.truthyStr (r_itag request)) eqn:Hi; cbn [negb orb];
   [cbv zeta;
    destruct (getInfo svc (default "" (r_videoId request))) as [e|info] eqn:Hinfo;
    [destruct (isSignatureFailure e) eqn:Hsig
    |destruct (Js.find _ (y_formats info)) as [format|] eqn:Hfind;
     [destruct (Js.truthyStr (y_url format)) eqn:Hurl; cbn [negb];
      [destruct (isWebPFormat format) eqn:Hwebp;
       [|destruct (primaryAttempt svc info format (r_range request))
           as [streamError|primary] eqn:Hprimary;
         [destruct (isForbidden streamError) eqn:Hforb;
          [|destruct (fetch svc (default "" (y_url format)) _)
              as [thrown|response] eqn:Hfetch;
            [|destruct (constructed svc (fallbackResponse format response))
                as [thrown|relayed] eqn:Hrelayed;
              [|apply constructed_inr in Hrelayed as [-> Hrelayed]]]]
         |apply primaryAttempt_inr in Hprimary
            as (videoStream & Hdfi & -> & Hbuilt)]]
      |]
     |]]
   |]
  |].

(** X12. The relay answers with a stream exactly when its status is a
    success status, which is then 200 or 206; every stream carries the
    permissive cross-origin header and a content type that is not empty.
    Every other answer is a JSON failure whose status is no success
    status, so that the component, which reads a stream from an answer
    that is ok only, never takes a failure for a payload. *)
Theorem X12_stream_iff_ok (request : Request) (svc : Services) :
  let r := (GET request svc).1 in
  ((∃ bytes, body r = Stream bytes) ↔ (200 ≤ status r ≤ 299)%Z) ∧
  ((∃ bytes, body r = Stream bytes) →
   status r ∈ [200; 206]%Z ∧
   getHeader "Access-Control-Allow-Origin" (headers r) = Some "*" ∧
   ∃ contentType, getHeader "Content-Type" (headers r) = Some contentType ∧
                  contentType ≠ "") ∧
  ((∀ bytes, body r ≠ Stream bytes) →
   ∃ code msg, body r = Json false code msg).
Proof.
  assert (Hjson : ∀ code msg st, ¬ (200 ≤ st ≤ 299)%Z →
    let r := failure code msg st in
    ((∃ bytes, body r = Stream bytes) ↔ (200 ≤ status r ≤ 299)%Z) ∧
    ((∃ bytes, body r = Stream bytes) →
     status r ∈ [200; 206]%Z ∧
     getHeader "Access-Control-Allow-Origin" (headers r) = Some "*" ∧
     ∃ contentType, getHeader "Content-Type" (headers r) = Some contentType ∧
                    contentType ≠ "") ∧
    ((∀ bytes, body r ≠ Stream bytes) → ∃ c m, body r = Json false c m)).
  { intros code msg st Hst. simpl. split_and!.
    - split; [by intros [? ?] | done].
    - by intros [? ?].
    - intros _. by eexists _, _. }
  assert (HorStr : ∀ x d, d ≠ "" → Js.orStr x d ≠ "").
  { intros [[|c x]|] d Hd; done. }
  assert (Hstream : ∀ (r : Response) bytes contentType,
    body r = Stream bytes → status r ∈ [200; 206]%Z →
    getHeader "Access-Control-Allow-Origin" (headers r) = Some "*" →
    getHeader "Content-Type" (headers r) = Some contentType → contentType ≠ "" →
    ((∃ bytes, body r = Stream bytes) ↔ (200 ≤ status r ≤ 299)%Z) ∧
    ((∃ bytes, body r = Stream bytes) →
     status r ∈ [200; 206]%Z ∧
     getHeader "Access-Control-Allow-Origin" (headers r) = Some "*" ∧
     ∃ contentType, getHeader "Content-Type" (headers r) = Some contentType ∧
                    contentType ≠ "") ∧
    ((∀ bytes, body r ≠ Stream bytes) → ∃ c m, body r = Json false c m)).
  { intros r bytes contentType Hb Hs Hc Ht Hne. split_and!.
    - split; [intros _|by exists bytes].
      repeat (apply elem_of_cons in Hs as [->|Hs]); try lia.
      by apply elem_of_nil in Hs.
    - intros _. split_and!; [done..|]. by exists contentType.
    - intros Hno. by destruct (Hno bytes). }
  intros r. subst r.
  relay_cases request svc; cbn [fst]; unfold internalError;
    try (apply Hjson; lia).
  - (* the direct fetch was answered *)
    unfold fallbackResponse. destruct (f_ok response) eqn:Hok; cbn [negb].
    + eapply Hstream; [reflexivity| | | |].
      * simpl. destruct (f_status response =? 206)%Z; [right; left | left].
      * simpl. rewrite !getHeader_setIfTruthy_other by done. reflexivity.
      * simpl. rewrite !getHeader_setIfTruthy_other by done. reflexivity.
      * by apply HorStr.
    + apply Hjson. unfold f_ok in Hok. lia.
  - (* the service handed over the stream *)
    unfold primaryResponse. destruct (Js.truthyStr (r_range request)).
    + eapply Hstream; [reflexivity|simpl; right; left| | |].
      * simpl. rewrite getHeader_app, getHeader_setIfTruthy_other by done.
        reflexivity.
      * simpl. rewrite getHeader_app, getHeader_setIfTruthy_other by done.
        reflexivity.
      * by apply HorStr.
    + eapply Hstream; [reflexivity|simpl; left| | |].
      * simpl. rewrite getHeader_setIfTruthy_other by done. reflexivity.
      * simpl. rewrite getHeader_setIfTruthy_other by done. reflexivity.
      * by apply HorStr.
Qed.

(** X13. DOWNLOAD_FAILED is never the answer of the relay: the handler
    has left with NO_URL before, when the address of the descriptor is
    missing or empty, so that the direct fetch is always tried once the
    service has failed to hand over the stream. *)
Theorem X13_download_failed_never (request : Request) (svc : Services)
    (msg : string) :
  body (GET request svc).1 ≠ Json false "DOWNLOAD_FAILED" msg.
Proof.
  relay_cases request svc; cbn [fst]; try discriminate.
  - unfold fallbackResponse. destruct (f_ok response); discriminate.
  - unfold primaryResponse. destruct (Js.truthyStr (r_range request)); discriminate.
Qed.

(** X14. The relay calls its collaborators at most three times, in the
    order info, stream, direct fetch. It asks for the stream of a
    descriptor of the service's answer only, one that has an address and
    is not WebP, and whose itag is the requested one whenever that is a
    safe integer. It fetches an address directly only after the inner try
    on the descriptor of that address has thrown an error that is not a
    403: the service failing to hand over the stream, or the construction
    of the response on the stream handed over. *)
Theorem X14_upstream_calls (request : Request) (svc : Services) :
  let calls := (GET request svc).2 in
  length calls ≤ 3 ∧
  (∀ i videoId hs, calls !! i = Some (CallGetInfo videoId hs) →
     i = 0 ∧ r_videoId request = Some videoId ∧ hs = getInfoHeaders) ∧
  (∀ i format hs, calls !! i = Some (CallDownloadFromInfo format hs) →
     i = 1 ∧ hs = downloadFromInfoHeaders ∧
     (∃ info, getInfo svc (default "" (r_videoId request)) = inr info ∧
              format ∈ y_formats info) ∧
     (∀ n, safeInteger n →
           Js.parseInt (default "" (r_itag request)) = Some n →
           y_itag format = n) ∧
     Js.truthyStr (y_url format) = true ∧ isWebPFormat format = false) ∧
  (∀ i address hs, calls !! i = Some (CallFetch address hs) →
     i = 2 ∧
     ∃ info format streamError,
       calls !! 1 = Some (CallDownloadFromInfo format downloadFromInfoHeaders) ∧
       y_url format = Some address ∧
       (downloadFromInfo svc info format downloadFromInfoHeaders = inl streamError ∨
        ∃ videoStream,
          downloadFromInfo svc info format downloadFromInfoHeaders =
            inr videoStream ∧
          nextResponse svc (primaryResponse format (r_range request) videoStream) =
            Some streamError) ∧
       isForbidden streamError = false).
Proof.
  intros calls. subst calls.
  relay_cases request svc; cbn [snd];
    (split; [simpl; lia|]);
    (split_and!; intros [|[|[|i]]]; intros; simplify_eq/=; try done).
  all: try (destruct (r_videoId request) as [v|]; [done | discriminate Hv]).
  all: try (apply find_some in Hfind as [Hin%list_elem_of_In Hf%bool_decide_eq_true];
            split_and!; [done..|by exists info| |done|done];
            intros n _ Hn; rewrite Hn in Hf; by injection Hf).
  all: split; [done|]; exists info, format, streamError;
       split_and!; try done;
       [destruct (y_url format) as [u|]; [done | discriminate Hurl]
       |by apply primaryAttempt_inl].
Qed.

(** The lookup of the relay, on the numeral of an integer. *)
Lemma find_by_itag (n : Z) (formats : list YtdlFormat) :
  Js.find (λ f, bool_decide (Some (y_itag f) = Js.parseInt (Js.numToString n)))
    formats =
  Js.find (λ f, bool_decide (y_itag f = n)) formats.
Proof.
  rewrite JsMore.parseInt_numToString. unfold Js.find.
  induction formats as [|f formats IH]; [done|]. cbn [List.find].
  rewrite IH. by repeat case_bool_decide; simplify_eq.
Qed.

(** X15. The relay looks the descriptor up by the itag the component has
    written into the address: for an itag that is a safe integer, it
    answers FORMAT_NOT_FOUND exactly when no stream of the service has
    that itag. *)
Theorem X15_format_not_found (videoId : string) (n : Z) (range : option string)
    (svc : Services) (answer : YtdlInfo) :
  safeInteger n →
  videoId ≠ "" →
  getInfo svc videoId = inr answer →
  let request := {| r_videoId := Some videoId;
                    r_itag := Some (Js.numToString n); r_range := range |} in
  (status (GET request svc).1 = 404%Z ∧
   ∃ msg, body (GET request svc).1 = Json false "FORMAT_NOT_FOUND" msg) ↔
  ∀ format, format ∈ y_formats answer → y_itag format ≠ n.
Proof.
  intros _ Hne Hinfo' request. subst request.
  assert (Htruthy : Js.truthyStr (Some videoId) = true) by by destruct videoId.
  assert (Hitag : Js.truthyStr (Some (Js.numToString n)) = true).
  { pose proof (JsMore.parseInt_numToString n) as Hp.
    destruct (Js.numToString n); [discriminate Hp | done]. }
  assert (Hfound : ∀ format,
    Js.find (λ f, bool_decide (Some (y_itag f) = Js.parseInt (Js.numToString n)))
      (y_formats answer) = Some format →
    ¬ ∀ f, f ∈ y_formats answer → y_itag f ≠ n).
  { intros format [Hin%list_elem_of_In Hf%bool_decide_eq_true]%find_some Hall.
    rewrite JsMore.parseInt_numToString in Hf. injection Hf as Hf.
    by apply (Hall format Hin). }
  relay_cases {| r_videoId := Some videoId; r_itag := Some (Js.numToString n);
                 r_range := range |} svc;
    cbn [fst r_videoId r_itag from_option id] in *; try congruence.
  all: rewrite Hinfo' in Hinfo; injection Hinfo as ->.
  all: try (apply Hfound in Hfind; split; [|done]; intros [_ [msg Hb]];
            try discriminate Hb).
  - unfold fallbackResponse in Hb.
    destruct (f_ok response); simpl in Hb; discriminate Hb.
  - unfold primaryResponse in Hb. cbn [r_range] in Hb.
    destruct (Js.truthyStr range); simpl in Hb; discriminate Hb.
  - split; [intros _|intros _; split; [done | by eexists]].
    intros format Hin%list_elem_of_In Hn.
    apply (find_none _ _ Hfind) in Hin. apply bool_decide_eq_false in Hin.
    apply Hin. by rewrite JsMore.parseInt_numToString, Hn.
Qed.

Lemma X15_format_not_found_witness :
  status (GET {| r_videoId := Some "dQw4w9WgXcQ";
                 r_itag := Some (Js.numToString 999); r_range := None |}
            Samples.streamingServices).1 = 404%Z.
Proof.
  assert (Hsafe : safeInteger 999) by (unfold safeInteger; lia).
  assert (Hne : "dQw4w9WgXcQ" ≠ "") by discriminate.
  assert (Hinfo : getInfo Samples.streamingServices "dQw4w9WgXcQ" =
                  inr (Samples.sampleInfo [Samples.muxedStream]))
    by reflexivity.
  apply (proj2 (X15_format_not_found "dQw4w9WgXcQ" 999 None
                  Samples.streamingServices _ Hsafe Hne Hinfo)).
  intros format Hin. apply list_elem_of_singleton in Hin as ->. discriminate.
Defined.

(** X7. What the component writes into the address of the proxy is what
    the relay reads: on the request the fallback of a transfer sends for
    a video and an itag that is a safe integer, the relay asks the
    service for the stream of a descriptor with that very itag, sends no
    Range header when it fetches the address itself, and every stream it
    answers is the payload of the first descriptor of the service with
    that itag: the stream the service handed over for it, or the body of
    the direct fetch of its address. *)
Theorem X7_proxy_round_trip (videoId : string) (itag : Z) (svc : Services) :
  safeInteger itag →
  let r := GET (proxyRequest videoId itag) svc in
  (∀ i format hs, r.2 !! i = Some (CallDownloadFromInfo format hs) →
     y_itag format = itag) ∧
  (∀ i address hs, r.2 !! i = Some (CallFetch address hs) → hs = fetchHeaders) ∧
  (∀ bytes, body r.1 = Stream bytes →
     ∃ info format,
       getInfo svc videoId = inr info ∧
       Js.find (λ f, bool_decide (y_itag f = itag)) (y_formats info) = Some format ∧
       (downloadFromInfo svc info format downloadFromInfoHeaders = inr bytes ∨
        ∃ response,
          fetch svc (default "" (y_url format)) fetchHeaders = inr response ∧
          f_body response = bytes)).
Proof.
  intros _ r. subst r. unfold proxyRequest.
  relay_cases {| r_videoId := Some videoId; r_itag := Some (Js.numToString itag);
                 r_range := None |} svc;
    cbn [fst snd r_videoId r_itag r_range from_option id Js.truthyStr] in *;
    try rewrite find_by_itag in Hfind.
  all: split_and!;
    [intros [|[|[|i]]] ? ? ?; simplify_eq/=; try done
    |intros [|[|[|i]]] ? ? ?; simplify_eq/=; try done
    |intros bytes Hb; try discriminate Hb].
  all: try (apply find_some in Hfind as [_ Hf%bool_decide_eq_true]; done).
  - (* the direct fetch was answered *)
    exists info, format. split_and!; [done..|]. right. exists response.
    split; [done|]. unfold fallbackResponse in Hb.
    destruct (f_ok response); simpl in Hb; by simplify_eq.
  - (* the service handed over the stream *)
    exists info, format. split_and!; [done..|]. left.
    unfold primaryResponse in Hb. simpl in Hb. by simplify_eq.
Qed.

Lemma X7_proxy_round_trip_witness :
  ∃ info format,
    getInfo Samples.streamingServices "dQw4w9WgXcQ" = inr info ∧
    Js.find (λ f, bool_decide (y_itag f = 18%Z)) (y_formats info) = Some format ∧
    (downloadFromInfo Samples.streamingServices info format downloadFromInfoHeaders =
       inr [Byte.x01; Byte.x02; Byte.x03; Byte.x04] ∨
     ∃ response,
       fetch Samples.streamingServices (default "" (y_url format)) fetchHeaders =
         inr response ∧
       f_body response = [Byte.x01; Byte.x02; Byte.x03; Byte.x04]).
Proof.
  assert (Hsafe : safeInteger 18) by (unfold safeInteger; lia).
  apply (proj2 (proj2 (X7_proxy_round_trip "dQw4w9WgXcQ" 18
                         Samples.streamingServices Hsafe))).
  vm_compute. reflexivity.
Defined.

End RelayMore.

(** ** More on the downloader component *)

Module DownloaderMore.
Import Video Downloader CatalogSpec Observers DownloaderFacts.

Section Merge.
Context {E : Type} (eng : Engine E).
Local Abbreviation State := (Component (E := E)).

(** Every way through [mergeWithFFmpeg]. *)
Lemma bind_assoc {A B C} (m : M A) (f : A → M B) (k : B → M C) (st : State) :
  ((m ≫= f) ≫= k) st = (m ≫= (λ x, f x ≫= k)) st.
Proof. unfold mbind, M_bind. by destruct (m st) as [[?|?] ?]. Qed.

Lemma bind_setProgress {B} (s : Stage) (p : QArith_base.Q) (msg : option string)
    (k : unit → M B) (st : State) :
  (setProgress s p msg ≫= k) st =
  k () (mkComponent (mkProgress s p msg) (c_error st) (abortControllerRef st)
          (ffmpegRef st) (engine st) (engineCalls st) (networkCalls st) (saves st)).
Proof. reflexivity. Qed.

Lemma bind_setFfmpegRef {B} (b : bool) (k : unit → M B) (st : State) :
  (setFfmpegRef b ≫= k) st =
  k () (mkComponent (c_progress st) (c_error st) (abortControllerRef st) b
          (engine st) (engineCalls st) (networkCalls st) (saves st)).
Proof. reflexivity. Qed.

Lemma bind_clickSave {B} (s : Save) (k : unit → M B) (st : State) :
  (clickSave s ≫= k) st =
  k () (mkComponent (c_progress st) (c_error st) (abortControllerRef st)
          (ffmpegRef st) (engine st) (engineCalls st) (networkCalls st)
          (saves st ++ [s])).
Proof. reflexivity. Qed.

Lemma bind_callEngine {A B} (c : EngineCall) (op : E → (JsError + A) * E)
    (k : A → M B) (st : State) :
  (callEngine c op ≫= k) st =
  let st' e' :=
    mkComponent (c_progress st) (c_error st) (abortControllerRef st)
      (ffmpegRef st) e' (engineCalls st ++ [c]) (networkCalls st) (saves st) in
  match op (engine st) with
  | (inr x, e') => k x (st' e')
  | (inl err, e') => (inl err, st' e')
  end.
Proof.
  unfold mbind, M_bind, callEngine. by destruct (op (engine st)) as [[?|?] ?].
Qed.

Lemma bind_initFFmpeg {B} (k : unit → M B) (st : State) :
  (initFFmpeg eng ≫= k) st =
  if ffmpegRef st then k () st
  else
    (setProgress merging (num 0) (Some "Loading FFmpeg...") ≫= λ _,
     setFfmpegRef true ≫= λ _,
     callEngine Load (λ e, unitResult (load eng e)) ≫= k) st.
Proof.
  unfold initFFmpeg, mbind, M_bind, setProgress, setFfmpegRef, callEngine.
  destruct (ffmpegRef st); [reflexivity|]. cbn [engine].
  by destruct (unitResult (load eng (engine st))) as [[?|?] ?].
Qed.

Ltac engine_projections :=
  cbn [fst snd ffmpegRef networkCalls c_error abortControllerRef
       engineCalls saves c_progress engine stage] in *.

Lemma merge_run (videoBlob audioBlob : Blob) (outputFilename : string)
    (st st' : State) (res : JsError + unit) :
  mergeWithFFmpeg eng videoBlob audioBlob outputFilename st = (res, st') →
  ffmpegRef st' = true ∧
  networkCalls st' = networkCalls st ∧
  c_error st' = c_error st ∧
  abortControllerRef st' = abortControllerRef st ∧
  List.filter isLoad (engineCalls st') =
    List.filter isLoad (engineCalls st) ++ (if ffmpegRef st then [] else [Load]) ∧
  (∀ err, res = inl err →
     saves st' = saves st ∧ stage (c_progress st') = merging) ∧
  (res = inr () →
     (∃ data, saves st' = saves st ++ [SaveBlob data outputFilename]) ∧
     c_progress st' = mkProgress complete (num 100) (Some "Download complete!") ∧
     engineCalls st' =
       engineCalls st ++ (if ffmpegRef st then [] else [Load]) ++ mergeCalls).
Proof.
  destruct st as [p er ab ff en ec nc sv].
  unfold mergeWithFFmpeg. intros H.
  rewrite bind_initFFmpeg in H. engine_projections.
  destruct ff.
  all: repeat first
    [ rewrite bind_setProgress in H
    | rewrite bind_setFfmpegRef in H
    | rewrite bind_clickSave in H
    | rewrite bind_callEngine in H; cbv zeta in H; unfold unitResult in H;
      engine_projections;
      match type of H with
      | context [load eng ?e] => destruct (load eng e) as [[?|] ?]
      | context [writeFile eng ?p ?b ?e] =>
          destruct (writeFile eng p b e) as [[?|] ?]
      | context [exec eng ?a ?e] => destruct (exec eng a e) as [[?|] ?]
      | context [readFile eng ?p ?e] =>
          destruct (readFile eng p e) as [[?|?] ?]
      | context [deleteFile eng ?p ?e] =>
          destruct (deleteFile eng p e) as [[?|] ?]
      end
    | progress engine_projections ].
  all: unfold setProgress in H; injection H as <- <-; engine_projections.
  all: rewrite ?List.filter_app, ?app_nil_r; cbn [List.filter isLoad app].
  all: rewrite ?app_nil_r.
  all: split_and!; try done.
  all: try (intros _; split_and!; [by eexists|done|by rewrite <- ?app_assoc]).
Qed.
(** X16. A merge that fails, at whatever step, hands no file to the
    user: no save is clicked; the stage stays merging for the caller to
    reset, the error shown is not touched, and the engine instance is
    kept. *)
Theorem X16_failed_merge_saves_nothing (videoBlob audioBlob : Blob)
    (outputFilename : string) (st st' : State) (err : JsError) :
  mergeWithFFmpeg eng videoBlob audioBlob outputFilename st = (inl err, st') →
  saves st' = saves st ∧ stage (c_progress st') = merging ∧
  c_error st' = c_error st ∧ ffmpegRef st' = true.
Proof.
  intros Hrun.
  destruct (merge_run _ _ _ _ _ _ Hrun) as (Href & _ & Herr & _ & _ & Hfail & _).
  destruct (Hfail err eq_refl) as [Hs Hst]. done.
Qed.

(** X17. The engine is loaded at most once: a merge issues the load
    exactly when the component holds no engine instance yet, and holds one
    afterwards whatever the outcome, also when the load itself failed; so
    over two merges in a row the second never loads. *)
Theorem X17_engine_loaded_once (v1 a1 v2 a2 : Blob) (n1 n2 : string) (st : State) :
  let st1 := (mergeWithFFmpeg eng v1 a1 n1 st).2 in
  let st2 := (mergeWithFFmpeg eng v2 a2 n2 st1).2 in
  ffmpegRef st1 = true ∧
  List.filter isLoad (engineCalls st1) =
    List.filter isLoad (engineCalls st) ++ (if ffmpegRef st then [] else [Load]) ∧
  List.filter isLoad (engineCalls st2) = List.filter isLoad (engineCalls st1).
Proof.
  intros st1 st2.
  destruct (merge_run v1 a1 n1 st st1 _ (surjective_pairing _))
    as (Href1 & _ & _ & _ & Hload1 & _).
  destruct (merge_run v2 a2 n2 st1 st2 _ (surjective_pairing _))
    as (_ & _ & _ & _ & Hload2 & _).
  rewrite Href1, app_nil_r in Hload2. done.
Qed.

(** What a merge that returns has read and left behind: the read of the
    output follows the load, the two writes and the combine, the
    deletions follow the read, and the save is on what was read. *)
Lemma merge_reads (videoBlob audioBlob : Blob) (outputFilename : string)
    (st st' : State) :
  mergeWithFFmpeg eng videoBlob audioBlob outputFilename st = (inr (), st') →
  let e0 := if ffmpegRef st then engine st else (load eng (engine st)).2 in
  let e1 := (writeFile eng "video.mp4" videoBlob e0).2 in
  let e2 := (writeFile eng "audio.mp4" audioBlob e1).2 in
  let e3 := (exec eng execArgs e2).2 in
  let e4 := (readFile eng "output.mp4" e3).2 in
  let e5 := (deleteFile eng "video.mp4" e4).2 in
  let e6 := (deleteFile eng "audio.mp4" e5).2 in
  ∃ data,
    (readFile eng "output.mp4" e3).1 = inr data ∧
    saves st' = saves st ++ [SaveBlob data outputFilename] ∧
    engine st' = (deleteFile eng "output.mp4" e6).2.
Proof.
  destruct st as [p er ab ff en ec nc sv].
  unfold mergeWithFFmpeg. intros H. cbv zeta.
  rewrite bind_initFFmpeg in H. engine_projections.
  destruct ff.
  all: repeat first
    [ rewrite bind_setProgress in H
    | rewrite bind_setFfmpegRef in H
    | rewrite bind_clickSave in H
    | rewrite bind_callEngine in H; cbv zeta in H; unfold unitResult in H;
      engine_projections;
      match type of H with
      | context [load eng ?e] => destruct (load eng e) as [[?|] ?]
      | context [writeFile eng ?p ?b ?e] =>
          destruct (writeFile eng p b e) as [[?|] ?]
      | context [exec eng ?a ?e] => destruct (exec eng a e) as [[?|] ?]
      | context [readFile eng ?p ?e] =>
          destruct (readFile eng p e) as [[?|?] ?]
      | context [deleteFile eng ?p ?e] =>
          destruct (deleteFile eng p e) as [[?|] ?]
      end
    | progress engine_projections ].
  all: unfold setProgress in H; try discriminate H.
  all: injection H as <-; engine_projections; by eexists.
Qed.

(** X18. A merge that returns has called the engine in exactly this
    order: the load if no instance was held, the two writes, the combine,
    the read of the output, then the three deletions. It has clicked one
    save, under the file name it was given, on the very data the engine
    answered to the read of the output, a read made on the engine as the
    load, the writes of the two payloads and the combine have left it;
    the engine is left as the three deletions leave it, and the merge
    ends with stage complete at 100. *)
Theorem X18_merge_sequence (videoBlob audioBlob : Blob) (outputFilename : string)
    (st st' : State) :
  mergeWithFFmpeg eng videoBlob audioBlob outputFilename st = (inr (), st') →
  engineCalls st' =
    engineCalls st ++ (if ffmpegRef st then [] else [Load]) ++ mergeCalls ∧
  (let e0 := if ffmpegRef st then engine st else (load eng (engine st)).2 in
   let e1 := (writeFile eng "video.mp4" videoBlob e0).2 in
   let e2 := (writeFile eng "audio.mp4" audioBlob e1).2 in
   let e3 := (exec eng execArgs e2).2 in
   let e4 := (readFile eng "output.mp4" e3).2 in
   let e5 := (deleteFile eng "video.mp4" e4).2 in
   let e6 := (deleteFile eng "audio.mp4" e5).2 in
   ∃ data,
     (readFile eng "output.mp4" e3).1 = inr data ∧
     saves st' = saves st ++ [SaveBlob data outputFilename] ∧
     engine st' = (deleteFile eng "output.mp4" e6).2) ∧
  c_progress st' = mkProgress complete (num 100) (Some "Download complete!").
Proof.
  intros Hrun.
  destruct (merge_run _ _ _ _ _ _ Hrun) as (_ & _ & _ & _ & _ & _ & Hok).
  destruct (Hok eq_refl) as (_ & Hp & Hc).
  split; [exact Hc|]. split; [exact (merge_reads _ _ _ _ _ Hrun) | exact Hp].
Qed.

End Merge.

Lemma X16_failed_merge_saves_nothing_witness :
  (MoreSamples.failedMerge).1 = inl (newError "Conversion failed") ∧
  saves (MoreSamples.failedMerge).2 = [] ∧
  stage (c_progress (MoreSamples.failedMerge).2) = merging.
Proof.
  assert (Hrun :
    mergeWithFFmpeg (Samples.failingEngine (newError "Conversion failed"))
      [Byte.x01] [Byte.x02] "out.mp4"
      (Samples.freshComponent (∅ : gmap string Blob)) =
    (inl (newError "Conversion failed"), (MoreSamples.failedMerge).2))
    by (vm_compute; reflexivity).
  pose proof (X16_failed_merge_saves_nothing _ _ _ _ _ _ _ Hrun) as H.
  split; [vm_compute; reflexivity|].
  split; [exact (proj1 H) | exact (proj1 (proj2 H))].
Defined.

Lemma X18_merge_sequence_witness :
  (MoreSamples.workingMerge).1 = inr () ∧
  engineCalls (MoreSamples.workingMerge).2 = Load :: mergeCalls.
Proof.
  assert (Hrun :
    mergeWithFFmpeg (MoreSamples.workingEngine [Byte.x03])
      [Byte.x01] [Byte.x02] "out.mp4"
      (Samples.freshComponent (∅ : gmap string Blob)) =
    (inr (), (MoreSamples.workingMerge).2))
    by (vm_compute; reflexivity).
  pose proof (X18_merge_sequence _ _ _ _ _ _ Hrun) as H.
  split; [vm_compute; reflexivity|]. exact (proj1 H).
Defined.

Lemma safeChar_underscored (c : ascii) :
  safeChar (if isAlnum c then Js.lowerChar c else "_"%char) = true ∧
  (let d := if isAlnum c then Js.lowerChar c else "_"%char in
   (if isAlnum d then Js.lowerChar d else "_"%char) = d).
Proof. destruct c as [[] [] [] [] [] [] [] []]; vm_compute; done. Qed.

(** X19. The file name of a download has the length of the title, then a
    dot and the container; the part before the dot holds lower-case
    letters, digits and underscores only, and a title that is already
    such a name is left as it is. *)
Theorem X19_filename_safe (title container : string) :
  ∃ name,
    filename title container = name +:+ "." +:+ container ∧
    String.length name = String.length title ∧
    InfoRoute.allChars safeChar name = true ∧
    filename name container = filename title container.
Proof.
  exists (underscored title). unfold filename. rewrite !sanitized_underscored.
  split_and!; [done|apply underscored_length| |f_equal].
  - unfold underscored. induction title as [|c title IH]; [done|]. simpl.
    by rewrite (proj1 (safeChar_underscored c)), IH.
  - unfold underscored. induction title as [|c title IH]; [done|]. simpl.
    by rewrite (proj2 (safeChar_underscored c)), IH.
Qed.

Section Start.
Context {E : Type}.
Local Abbreviation State := (Component (E := E)).

Lemma no_audio_filter (formats : list VideoFormat) :
  (∀ f, f ∈ formats → hasAudio f = false ∨ hasVideo f = true) →
  List.filter (λ f, hasAudio f && negb (hasVideo f)) formats = [].
Proof.
  intros Hall.
  destruct (List.filter _ formats) as [|x l] eqn:El; [done|].
  assert (Hx : x ∈ List.filter (λ f, hasAudio f && negb (hasVideo f)) formats)
    by (rewrite El; left).
  apply SelectorFacts.elem_of_filter in Hx as [Hx Hxa].
  destruct (Hall x Hx) as [H|H]; rewrite H in Hxa; [done|].
  by destruct (hasAudio x).
Qed.

(** The messages the [catch] of [downloadVideo] appends a tip to. *)
Lemma catch_plain (selectedFormat : option VideoFormat) (msg : string)
    (st : State) :
  msg ≠ "" → hinted msg = false →
  catchDownload selectedFormat (newError msg) st =
  (inr (),
   mkComponent (mkProgress idle (num 0) None) (Some msg) (abortControllerRef st)
     (ffmpegRef st) (engine st) (engineCalls st) (networkCalls st) (saves st)).
Proof.
  intros Hne Hh. unfold catchDownload, newError. cbn [name message].
  change (String.eqb "Error" "AbortError") with false. cbv iota.
  replace (Js.orStr (Some msg) "Failed to download video. Please try again.")
    with msg by (by destruct msg).
  cbv zeta. unfold hinted in Hh.
  repeat (apply orb_false_iff in Hh as [Hh ?]).
  repeat match goal with
         | H : Js.includes _ _ = false |- _ => rewrite H; clear H
         end.
  reflexivity.
Qed.

Lemma catch_no_audio (selectedFormat : option VideoFormat) (st : State) :
  catchDownload selectedFormat (newError "No audio stream available for merging") st =
  (inr (),
   mkComponent (mkProgress idle (num 0) None)
     (Some "No audio stream available for merging") (abortControllerRef st)
     (ffmpegRef st) (engine st) (engineCalls st) (networkCalls st) (saves st)).
Proof. apply catch_plain; [discriminate | vm_compute; reflexivity]. Qed.

(** X20. A video-only format cannot be downloaded from a catalog that has
    no audio-only descriptor: the download ends at once with the error
    No audio stream available for merging and stage idle, having started
    no transfer, called the engine for nothing and saved nothing. *)
Theorem X20_no_audio_for_merge (st : State) (format : VideoFormat)
    (info : VideoInfo) :
  hasVideo format = true → hasAudio format = false →
  (∀ f, f ∈ formats info → hasAudio f = false ∨ hasVideo f = true) →
  ∃ st',
    downloadVideo (Some format) (Some info) st = (inr Done, st') ∧
    c_error st' = Some "No audio stream available for merging" ∧
    stage (c_progress st') = idle ∧
    networkCalls st' = networkCalls st ∧
    engineCalls st' = engineCalls st ∧
    saves st' = saves st.
Proof.
  intros Hv Ha Hall. unfold downloadVideo.
  rewrite Hv, Ha, (no_audio_filter _ Hall). cbn [andb negb length Nat.eqb].
  unfold tryCatch, mbind, M_bind, mret, M_ret, setError, setProgress,
    setAbortController, throw. cbn [fst snd].
  rewrite catch_no_audio. cbn.
  eexists. split; [reflexivity|]. split_and!; reflexivity.
Qed.

Lemma best_audio_offered (formats : list VideoFormat) :
  head (Js.sort byBitrate
          (List.filter (λ f, hasAudio f && negb (hasVideo f)) formats)) =
  SelectorSpec.highestBitrate (List.filter SelectorSpec.audioOnly formats).
Proof. apply SelectorFacts.head_sort_byBitrate. Qed.

(** X21. Downloading an option the selector offers goes the way its
    merge flag says. Without the flag, the descriptor is handed to the
    browser at once: one save on its address under the sanitised title
    and its container, stage complete, no transfer. With the flag, nothing
    is saved yet: either the video transfer of the descriptor starts, to
    be followed by the audio of the very descriptor the selector offers as
    its audio option, or the selector shows no audio option and the
    download ends with the error No audio stream available for merging. *)
Theorem X21_offered_option_download (st : State) (info : VideoInfo)
    (o : QualityOption) :
  o ∈ QualitySelector.qualityOptions (formats info) →
  let name := filename (title info) (container (format o)) in
  ∃ flow st',
    downloadVideo (Some (format o)) (Some info) st = (inr flow, st') ∧
    if requiresMerge o then
      saves st' = saves st ∧
      ((∃ a, head (QualitySelector.qualityOptions (formats info)) = Some a ∧
             group a = audio ∧
             flow = AwaitVideo true XhrPending (format o) (Some (format a)) info name ∧
             networkCalls st' =
               networkCalls st ++
               [DownloadBlob (url (format o)) "video" (videoId info)
                  (itag (format o))]) ∨
       ((∀ a, a ∈ QualitySelector.qualityOptions (formats info) → group a = video) ∧
        flow = Done ∧
        c_error st' = Some "No audio stream available for merging" ∧
        networkCalls st' = networkCalls st))
    else
      flow = Done ∧
      saves st' = saves st ++ [SaveUrl (url (format o)) name] ∧
      networkCalls st' = networkCalls st ∧
      stage (c_progress st') = complete ∧
      c_error st' = None.
Proof.
  intros Ho name.
  destruct (SelectorMore.options_from_catalog _ _ Ho) as (Hin & Hgrp & Hrm).
  unfold downloadVideo. fold name.
  destruct (requiresMerge o) eqn:Er.
  - destruct (proj1 Hrm eq_refl) as [Hv Ha]. rewrite Hv, Ha.
    cbn [andb negb]. rewrite best_audio_offered.
    rewrite SelectorMore.options_by_group.
    destruct (SelectorSpec.highestBitrate
                (List.filter SelectorSpec.audioOnly (formats info)))
      as [best|] eqn:Eb.
    + apply SelectorFacts.highestBitrate_Some in Eb as [Hbest _].
      change (List.filter (λ f, hasAudio f && negb (hasVideo f)) (formats info))
        with (List.filter SelectorSpec.audioOnly (formats info)).
      destruct (List.filter SelectorSpec.audioOnly (formats info)) as [|x l];
        [by apply elem_of_nil in Hbest|].
      cbn [length Nat.eqb].
      eexists _, _. split; [reflexivity|]. cbn.
      split; [done|]. left. exists (QualitySelector.audioOption best).
      by split_and!.
    + apply SelectorFacts.highestBitrate_None in Eb.
      change (List.filter (λ f, hasAudio f && negb (hasVideo f)) (formats info))
        with (List.filter SelectorSpec.audioOnly (formats info)).
      rewrite Eb. cbn [length Nat.eqb app].
      unfold tryCatch, mbind, M_bind, mret, M_ret, setError, setProgress,
        setAbortController, throw. cbn [fst snd].
      rewrite catch_no_audio. cbn.
      eexists _, _. split; [reflexivity|]. cbn.
      split; [done|]. right. split_and!; [|done..].
      intros a (f & -> & _)%list_elem_of_fmap. done.
  - assert (Hsave : hasVideo (format o) && hasAudio (format o) = true ∨
                    hasVideo (format o) = false ∧ hasAudio (format o) = true).
    { destruct Hgrp as [(_ & Ha & Hv & _)|(_ & Hv & Hr)].
      - right. done.
      - left. rewrite Hv. by destruct (hasAudio (format o)). }
    destruct Hsave as [->|[-> ->]]; cbn [andb negb];
      (eexists _, _; split; [reflexivity|]; cbn; by split_and!).
Qed.

End Start.

Lemma X20_no_audio_for_merge_witness :
  ∃ st',
    downloadVideo (Some Samples.videoOnly1080)
      (Some (Samples.sampleVideoInfo [Samples.videoOnly1080; Samples.muxed720]))
      (Samples.freshComponent (∅ : gmap string Blob)) = (inr Done, st') ∧
    c_error st' = Some "No audio stream available for merging".
Proof.
  destruct (X20_no_audio_for_merge (Samples.freshComponent (∅ : gmap string Blob))
              Samples.videoOnly1080
              (Samples.sampleVideoInfo [Samples.videoOnly1080; Samples.muxed720])
              eq_refl eq_refl) as (st' & Hrun & Herr & _).
  - intros f Hf. right.
    apply elem_of_cons in Hf as [->|Hf]; [reflexivity|].
    apply elem_of_cons in Hf as [->|Hf]; [reflexivity|].
    by apply elem_of_nil in Hf.
  - exists st'. split; [exact Hrun | exact Herr].
Defined.

Lemma X21_offered_option_download_witness :
  ∃ flow st',
    downloadVideo (Some Samples.videoOnly1080)
      (Some (Samples.sampleVideoInfo Samples.catalog))
      (Samples.freshComponent (∅ : gmap string Blob)) = (inr flow, st') ∧
    saves st' = [].
Proof.
  assert (Hin : QualitySelector.videoOption Samples.videoOnly1080 ∈
                QualitySelector.qualityOptions
                  (formats (Samples.sampleVideoInfo Samples.catalog)))
    by (vm_compute; do 2 right; left).
  destruct (X21_offered_option_download
              (Samples.freshComponent (∅ : gmap string Blob))
              (Samples.sampleVideoInfo Samples.catalog) _ Hin)
    as (flow & st' & Hrun & Hs & _).
  exists flow, st'. split; [exact Hrun | exact Hs].
Defined.

Section Transfer.
Context {E : Type} (eng : Engine E).
Local Abbreviation State := (Component (E := E)).


(** X23. When the direct request of the video transfer fails, by a
    network error or with status 0, the download falls back to the proxy
    of the server exactly when it has a video identifier and a non-zero
    itag to ask it with: then one proxy request is made with them and the
    transfer stays in flight, the error untouched. Otherwise no request is
    made and the download ends, stage idle, with the error Network error
    (or CORS error, for status 0): Video ID and itag are required for
    server proxy fallback. Nothing is saved either way. *)
Theorem X23_direct_request_failure (signal : bool) (format : VideoFormat)
    (bestAudio : option VideoFormat) (info : VideoInfo) (name : string)
    (ev : TransferEvent) (what : string) (st : State) :
  ev = XhrError ∧ what = "Network error" ∨
  (∃ statusText response, ev = XhrLoad 0 statusText response) ∧
  what = "CORS error" →
  ∃ flow st',
    deliver eng (AwaitVideo signal XhrPending format bestAudio info name) ev st =
      (inr flow, st') ∧
    saves st' = saves st ∧ engineCalls st' = engineCalls st ∧
    if noProxyKey (videoId info) (itag format) then
      flow = Done ∧
      c_error st' =
        Some (what +:+
              ": Video ID and itag are required for server proxy fallback.") ∧
      stage (c_progress st') = idle ∧
      networkCalls st' = networkCalls st
    else
      flow = AwaitVideo signal ProxyPending format bestAudio info name ∧
      c_error st' = c_error st ∧
      networkCalls st' = networkCalls st ++ [ProxyFetch (videoId info) (itag format)].
Proof.
  intros [[-> ->]|[(statusText & response & ->) ->]];
    unfold deliver, transferStep, proxyFallback; cbn [Z.leb Z.ltb Z.eqb andb Z.compare].
  all: destruct (noProxyKey (videoId info) (itag format)).
  all: try (eexists _, _; split; [reflexivity|]; by split_and!).
Qed.

End Transfer.


Lemma X23_direct_request_failure_witness :
  ∃ flow st',
    deliver (Samples.failingEngine (newError "Conversion failed"))
      (AwaitVideo true XhrPending Samples.videoOnly1080 (Some Samples.audio128)
         (Samples.sampleVideoInfo Samples.catalog) "sample.mp4")
      XhrError (Samples.freshComponent (∅ : gmap string Blob)) = (inr flow, st') ∧
    saves st' = [].
Proof.
  destruct (X23_direct_request_failure
              (Samples.failingEngine (newError "Conversion failed"))
              true Samples.videoOnly1080 (Some Samples.audio128)
              (Samples.sampleVideoInfo Samples.catalog) "sample.mp4"
              XhrError "Network error"
              (Samples.freshComponent (∅ : gmap string Blob)))
    as (flow & st' & Hrun & Hs & _); [left; split; reflexivity|].
  exists flow, st'. split; [exact Hrun | exact Hs].
Defined.

Section Flows.
Context {E : Type} (eng : Engine E).
Local Abbreviation State := (Component (E := E)).

(** The [catch] of [downloadVideo] returns with stage idle and an error
    set, and leaves the requests, the engine and the saves alone. *)
Lemma catchDownload_frame (selectedFormat : option VideoFormat) (err : JsError)
    (st : State) :
  ∃ st', catchDownload selectedFormat err st = (inr (), st') ∧
         stage (c_progress st') = idle ∧
         (∃ msg, c_error st' = Some msg) ∧
         (name err = "AbortError" → c_error st' = Some "Download cancelled") ∧
         networkCalls st' = networkCalls st ∧
         abortControllerRef st' = abortControllerRef st ∧
         untouched st st'.
Proof.
  unfold catchDownload, mbind, M_bind, setError, setProgress, untouched.
  destruct (String.eqb_spec (name err) "AbortError") as [Hn|Hn].
  - eexists. split; [reflexivity|]. cbn. split_and!; by eauto.
  - repeat match goal with
           | |- context [if ?b then _ else _] => destruct b
           | |- context [match ?o with Some _ => _ | None => _ end] => destruct o
           end; (eexists; split; [reflexivity|]; cbn; split_and!; by eauto).
Qed.

Lemma tryCatch_throw (selectedFormat : option VideoFormat) (body : M Flow)
    (err : JsError) (st st1 : State) :
  body st = (inl err, st1) →
  ∃ st', tryCatch selectedFormat body st = (inr Done, st') ∧
         catchDownload selectedFormat err st1 = (inr (), st').
Proof.
  intros Hb. unfold tryCatch. rewrite Hb.
  destruct (catchDownload_frame selectedFormat err st1) as (st' & Hc & _).
  exists st'. unfold mbind, M_bind. by rewrite Hc.
Qed.

Lemma tryCatch_return (selectedFormat : option VideoFormat) (body : M Flow)
    (flow : Flow) (st st1 : State) :
  body st = (inr flow, st1) → tryCatch selectedFormat body st = (inr flow, st1).
Proof. intros Hb. unfold tryCatch. by rewrite Hb. Qed.

Lemma tryCatch_inv (selectedFormat : option VideoFormat) (body : M Flow)
    (st st' : State) (r : JsError + Flow) :
  tryCatch selectedFormat body st = (r, st') →
  (r = inr Done ∧
   ∃ err st1, body st = (inl err, st1) ∧
              catchDownload selectedFormat err st1 = (inr (), st')) ∨
  (∃ flow, r = inr flow ∧ body st = (inr flow, st')).
Proof.
  destruct (body st) as [[err|flow] st1] eqn:Eb.
  - destruct (tryCatch_throw selectedFormat _ _ _ _ Eb) as (st2 & -> & Hc).
    intros [= <- <-]. left. split; [done|]. by exists err, st1.
  - rewrite (tryCatch_return selectedFormat _ _ _ _ Eb). intros [= <- <-]. right. by exists flow.
Qed.

(** Every event handler of a transfer returns; it touches neither the
    engine nor the saves, nor the error or the controller, and makes at
    most the one request of the fallback. *)
Lemma transferStep_frame (onProgress : QArith_base.Q → M unit)
    (videoId : string) (itag : Z) (t : Transfer) (ev : TransferEvent) (st : State) :
  (∀ p s, ∃ s1, onProgress p s = (inr (), s1) ∧
                networkCalls s1 = networkCalls s ∧ c_error s1 = c_error s ∧
                abortControllerRef s1 = abortControllerRef s ∧ untouched s s1) →
  ∃ t' st',
    transferStep onProgress videoId itag t ev st = (inr t', st') ∧
    c_error st' = c_error st ∧
    abortControllerRef st' = abortControllerRef st ∧
    untouched st st' ∧
    (networkCalls st' = networkCalls st ∧ (t' = t ∨ ∃ o, t' = Settled o) ∨
     t = XhrPending ∧ t' = ProxyPending ∧
     networkCalls st' = networkCalls st ++ [ProxyFetch videoId itag]).
Proof.
  intros Hp. unfold transferStep, proxyFallback, untouched.
  destruct t, ev;
    repeat match goal with
           | |- context [if ?b then _ else _] => destruct b
           end;
    unfold mbind, M_bind, mret, M_ret, logNetwork;
    try match goal with
        | |- context [onProgress ?p ?s] =>
            destruct (Hp p s) as (s1 & -> & Hn & He & Ha & Hu)
        end;
    eexists _, _; (split; [reflexivity|]); cbn; split_and!;
    try done; try (apply Hu); eauto 6.
Qed.

Lemma onVideoProgress_frame (p : QArith_base.Q) (s : State) :
  ∃ s1, onVideoProgress p s = (inr (), s1) ∧
        networkCalls s1 = networkCalls s ∧ c_error s1 = c_error s ∧
        abortControllerRef s1 = abortControllerRef s ∧ untouched s s1.
Proof. eexists. split; [reflexivity|]. by split_and!. Qed.

Lemma onAudioProgress_frame (p : QArith_base.Q) (s : State) :
  ∃ s1, onAudioProgress p s = (inr (), s1) ∧
        networkCalls s1 = networkCalls s ∧ c_error s1 = c_error s ∧
        abortControllerRef s1 = abortControllerRef s ∧ untouched s s1.
Proof. eexists. split; [reflexivity|]. by split_and!. Qed.

(** After the video transfer: the download ends in the [catch], or the
    audio transfer of [bestAudio] starts. *)
Lemma afterVideo_frame (format : VideoFormat) (bestAudio : option VideoFormat)
    (info : VideoInfo) (filename : string) (outcome : JsError + Blob)
    (st : State) :
  ∃ flow st',
    afterVideo format bestAudio info filename outcome st = (inr flow, st') ∧
    untouched st st' ∧
    abortControllerRef st' = abortControllerRef st ∧
    (flow = Done ∧ networkCalls st' = networkCalls st ∧
     stage (c_progress st') = idle ∧ (∃ msg, c_error st' = Some msg) ∧
     (outcome = inl abortError → c_error st' = Some "Download cancelled") ∨
     ∃ best videoBlob,
       bestAudio = Some best ∧ outcome = inr videoBlob ∧
       flow = AwaitAudio (abortControllerRef st) XhrPending format best info
                filename videoBlob ∧
       c_error st' = c_error st ∧
       networkCalls st' =
         networkCalls st ++
         [DownloadBlob (url best) "audio" (videoId info) (itag best)]).
Proof.
  unfold afterVideo.
  destruct outcome as [err|videoBlob].
  - edestruct (tryCatch_throw (Some format)) as (st' & -> & Hc);
      [reflexivity|].
    destruct (catchDownload_frame (Some format) err st)
      as (st2 & Hc2 & Hs & Hm & Hab & Hn & Ha & Hu).
    rewrite Hc2 in Hc. injection Hc as <-.
    exists Done, st2. split_and!; [done..|]. left. split_and!; [done..|].
    intros [= ->]. by apply Hab.
  - destruct bestAudio as [best|].
    + erewrite tryCatch_return by reflexivity.
      eexists _, _. split; [reflexivity|]. cbn.
      split_and!; [done..|]. right. exists best, videoBlob. by split_and!.
    + edestruct (tryCatch_throw (Some format)) as (st' & -> & Hc);
        [reflexivity|].
      match type of Hc with
      | catchDownload ?f ?e ?s = _ =>
          destruct (catchDownload_frame f e s)
            as (st2 & Hc2 & Hs & Hm & Hab & Hn & Ha & Hu)
      end.
      rewrite Hc2 in Hc. injection Hc as <-.
      exists Done, st2. split_and!; [done|exact Hu|exact Ha|].
      left. split_and!; [done|exact Hn|done..|]. intros [=].
Qed.

(** After the audio transfer: the download is finished, and has made no
    request; when the transfer failed, the engine was not called and
    nothing was saved. *)
Lemma afterAudio_frame (format : VideoFormat) (filename : string)
    (videoBlob : Blob) (outcome : JsError + Blob) (st : State) :
  ∃ st',
    afterAudio eng format filename videoBlob outcome st = (inr Done, st') ∧
    networkCalls st' = networkCalls st ∧
    (∀ err, outcome = inl err →
       untouched st st' ∧ stage (c_progress st') = idle ∧
       (∃ msg, c_error st' = Some msg) ∧
       (name err = "AbortError" → c_error st' = Some "Download cancelled")).
Proof.
  unfold afterAudio. destruct outcome as [err|audioBlob].
  - edestruct (tryCatch_throw (Some format)) as (st' & -> & Hc);
      [reflexivity|].
    destruct (catchDownload_frame (Some format) err st)
      as (st2 & Hc2 & Hs & Hm & Hab & Hn & Ha & Hu).
    rewrite Hc2 in Hc. injection Hc as <-.
    exists st2. split_and!; [done..|]. intros ? [= <-]. by split_and!.
  - destruct (mergeWithFFmpeg eng videoBlob audioBlob filename st)
      as [[err|[]] st1] eqn:Em.
    + destruct (merge_run _ _ _ _ _ _ _ Em) as (_ & Hn1 & _).
      edestruct (tryCatch_throw (Some format)) as (st' & -> & Hc).
      { unfold mbind, M_bind, await, mret, M_ret. rewrite Em. reflexivity. }
      destruct (catchDownload_frame (Some format) err st1)
        as (st2 & Hc2 & Hs & Hm & Hab & Hn & Ha & Hu).
      rewrite Hc2 in Hc. injection Hc as <-.
      exists st2. split_and!; [done|congruence|]. intros ? [=].
    + destruct (merge_run _ _ _ _ _ _ _ Em) as (_ & Hn1 & _).
      erewrite tryCatch_return.
      2:{ unfold mbind, M_bind, await, mret, M_ret. rewrite Em. reflexivity. }
      exists st1. split_and!; [done..|]. intros ? [=].
Qed.

(** What one stretch of a download may add to the requests: within the
    budgets of the flow it started from, less those of the flow it
    reached. *)
Local Abbreviation within flow st flow' st' :=
  (∃ added,
     networkCalls st' = networkCalls st ++ added ∧
     length (List.filter isDownloadBlob added) + directBudget flow' ≤
       directBudget flow ∧
     length (List.filter isProxyFetch added) + proxyBudget flow' ≤
       proxyBudget flow).

Lemma afterVideo_budget (signal : bool) (t : Transfer) (format : VideoFormat)
    (bestAudio : option VideoFormat) (info : VideoInfo) (filename : string)
    (outcome : JsError + Blob) (st : State) :
  ∃ flow' st',
    afterVideo format bestAudio info filename outcome st = (inr flow', st') ∧
    within (AwaitVideo signal t format bestAudio info filename) st flow' st'.
Proof.
  destruct (afterVideo_frame format bestAudio info filename outcome st)
    as (flow' & st' & Hrun & _ & _ & [(-> & Hn & _)|(b & vb & _ & _ & -> & _ & Hn)]).
  - exists Done, st'. split; [done|]. exists [].
    rewrite app_nil_r. split; [done|]. cbn. lia.
  - eexists _, st'. split; [done|]. eexists. split; [exact Hn|].
    destruct t; cbn; lia.
Qed.

Lemma deliver_budget (flow : Flow) (ev : TransferEvent) (st : State) :
  ∃ flow' st', deliver eng flow ev st = (inr flow', st') ∧ within flow st flow' st'.
Proof.
  destruct flow as [|signal t format best info fn|signal t format best info fn vb].
  - exists Done, st. split; [done|]. exists []. by rewrite app_nil_r.
  - destruct (transferStep_frame onVideoProgress (videoId info) (itag format)
                t ev st onVideoProgress_frame)
      as (t' & st1 & Ht & _ & _ & _ & Hnet).
    unfold deliver, mbind, M_bind. rewrite Ht.
    destruct t' as [| |o].
    + eexists _, st1. split; [reflexivity|].
      destruct Hnet as [[Hn [<-|[o [=]]]]|(_ & [=] & _)].
      exists []. rewrite app_nil_r. split; [done|]. cbn. lia.
    + eexists _, st1. split; [reflexivity|].
      destruct Hnet as [[Hn [<-|[o [=]]]]|(-> & _ & Hn)].
      * exists []. rewrite app_nil_r. split; [done|]. cbn. lia.
      * eexists. split; [exact Hn|]. cbn. lia.
    + destruct Hnet as [[Hn _]|(_ & [=] & _)].
      destruct (afterVideo_budget signal t format best info fn o st1)
        as (flow' & st' & Hrun & added & Hadd & Hb).
      exists flow', st'. split; [done|]. exists added.
      split; [congruence|done].
  - destruct (transferStep_frame onAudioProgress (videoId info) (itag best)
                t ev st onAudioProgress_frame)
      as (t' & st1 & Ht & _ & _ & _ & Hnet).
    unfold deliver, mbind, M_bind. rewrite Ht.
    destruct t' as [| |o].
    + eexists _, st1. split; [reflexivity|].
      destruct Hnet as [[Hn [<-|[o [=]]]]|(_ & [=] & _)].
      exists []. rewrite app_nil_r. split; [done|]. cbn. lia.
    + eexists _, st1. split; [reflexivity|].
      destruct Hnet as [[Hn [<-|[o [=]]]]|(-> & _ & Hn)].
      * exists []. rewrite app_nil_r. split; [done|]. cbn. lia.
      * eexists. split; [exact Hn|]. cbn. lia.
    + destruct Hnet as [[Hn _]|(_ & [=] & _)].
      destruct (afterAudio_frame format fn vb o st1) as (st' & Hrun & Hn' & _).
      exists Done, st'. split; [done|]. exists [].
      rewrite app_nil_r. split; [congruence|]. cbn. lia.
Qed.

Lemma abortFlow_budget (flow : Flow) (st : State) :
  ∃ flow' st', abortFlow eng flow st = (inr flow', st') ∧ within flow st flow' st'.
Proof.
  destruct flow as [|signal t format best info fn|signal t format best info fn vb];
    cbn [abortFlow].
  - exists Done, st. split; [done|]. exists []. by rewrite app_nil_r.
  - destruct (if signal then abortTransfer t else t) as [| |o].
    + eexists _, st. split; [reflexivity|]. exists [].
      rewrite app_nil_r. split; [done|]. cbn. lia.
    + eexists _, st. split; [reflexivity|]. exists [].
      rewrite app_nil_r. split; [done|]. cbn. lia.
    + apply afterVideo_budget.
  - destruct (if signal then abortTransfer t else t) as [| |o].
    + eexists _, st. split; [reflexivity|]. exists [].
      rewrite app_nil_r. split; [done|]. cbn. lia.
    + eexists _, st. split; [reflexivity|]. exists [].
      rewrite app_nil_r. split; [done|]. cbn. lia.
    + destruct (afterAudio_frame format fn vb o st) as (st' & Hrun & Hn' & _).
      exists Done, st'. split; [done|]. exists [].
      rewrite app_nil_r. split; [congruence|]. cbn. lia.
Qed.

Lemma cancelDownload_eq (flow : Flow) (st : State) :
  cancelDownload eng flow st =
  if abortControllerRef st then
    abortFlow eng flow
      (mkComponent (mkProgress idle (num 0) None) (c_error st) false
         (ffmpegRef st) (engine st) (engineCalls st) (networkCalls st) (saves st))
  else
    (inr flow,
     mkComponent (mkProgress idle (num 0) None) (c_error st) false
       (ffmpegRef st) (engine st) (engineCalls st) (networkCalls st) (saves st)).
Proof.
  unfold cancelDownload. destruct (abortControllerRef st) eqn:Ha; [done|].
  unfold mbind, M_bind, mret, M_ret, setProgress. cbn. by rewrite Ha.
Qed.

Lemma step_budget (flow : Flow) (ev : Event) (st : State) :
  ∃ flow' st', step eng flow ev st = (inr flow', st') ∧ within flow st flow' st'.
Proof.
  destruct ev as [ev|]; cbn [step]; [apply deliver_budget|].
  rewrite cancelDownload_eq. destruct (abortControllerRef st).
  - match goal with
    | |- context [abortFlow eng flow ?s] =>
        destruct (abortFlow_budget flow s) as (flow' & st' & Hrun & Hb)
    end.
    by exists flow', st'.
  - eexists _, _. split; [reflexivity|]. exists [].
    rewrite app_nil_r. split; [done|]. cbn. lia.
Qed.

Lemma run_budget (evs : list Event) (flow : Flow) (st : State) :
  ∃ flow' st', run eng flow evs st = (inr flow', st') ∧ within flow st flow' st'.
Proof.
  revert flow st. induction evs as [|ev evs IH]; intros flow st.
  - exists flow, st. split; [done|]. exists [].
    rewrite app_nil_r. split; [done|]. cbn. lia.
  - destruct (step_budget flow ev st) as (flow1 & st1 & Hs & a1 & Hn1 & Hd1 & Hp1).
    destruct (IH flow1 st1) as (flow2 & st2 & Hr & a2 & Hn2 & Hd2 & Hp2).
    exists flow2, st2. rewrite run_cons, Hs. split; [done|].
    exists (a1 ++ a2). rewrite Hn2, Hn1, <- app_assoc. split; [done|].
    rewrite !List.filter_app, !length_app. lia.
Qed.

(** The click on the download button: the download is finished without a
    request, or suspended on the video transfer it has just requested. *)
Lemma downloadVideo_budget (selectedFormat : option VideoFormat)
    (videoInfo : option VideoInfo) (st : State) :
  ∃ flow st' added,
    downloadVideo selectedFormat videoInfo st = (inr flow, st') ∧
    networkCalls st' = networkCalls st ++ added ∧
    length (List.filter isDownloadBlob added) + directBudget flow ≤ 2 ∧
    length (List.filter isProxyFetch added) + proxyBudget flow ≤ 2.
Proof.
  unfold downloadVideo.
  destruct selectedFormat as [format|], videoInfo as [info|];
    try (eexists Done, _, []; split; [reflexivity|]; cbn;
         rewrite app_nil_r; split; [done|lia]).
  unfold mbind at 1 2 3, M_bind at 1 2 3. cbn [setError setProgress setAbortController].
  match goal with
  | |- context [tryCatch ?f ?body ?s] =>
      destruct (tryCatch f body s) as [r st'] eqn:Et
  end.
  apply tryCatch_inv in Et as [(-> & err & st1 & Eb & Hc)|(flow & -> & Eb)].
  - destruct (catchDownload_frame (Some format) err st1)
      as (st2 & Hc2 & _ & _ & _ & Hn & _).
    rewrite Hc2 in Hc. injection Hc as <-.
    exists Done, st2, []. split; [done|]. rewrite app_nil_r.
    split; [|cbn; lia]. rewrite Hn.
    unfold nativeSave, downloadBlob, throw, mbind, M_bind, mret, M_ret in Eb.
    repeat match type of Eb with
           | context [if ?b then _ else _] => destruct b
           end; cbn in Eb; by simplify_eq.
  - unfold nativeSave, downloadBlob, throw, mbind, M_bind, mret, M_ret in Eb.
    repeat match type of Eb with
           | context [if ?b then _ else _] => destruct b
           end; cbn in Eb; try discriminate Eb; injection Eb as <- <-.
    all: first
      [ eexists _, _, []; split; [reflexivity|]; cbn [networkCalls];
        rewrite app_nil_r; split; [reflexivity|cbn; lia]
      | eexists _, _, [_]; split; [reflexivity|]; cbn [networkCalls];
        split; [reflexivity|cbn; lia] ].
Qed.

(** X24. Whatever events reach it, a download comes back, and has made at
    most two direct requests and at most two requests to the proxy of the
    server: one of each for the video, one of each for the audio. *)
Theorem X24_request_bound (selectedFormat : option VideoFormat)
    (videoInfo : option VideoInfo) (evs : list Event) (st : State) :
  ∃ flow st' added,
    download eng selectedFormat videoInfo evs st = (inr flow, st') ∧
    networkCalls st' = networkCalls st ++ added ∧
    length (List.filter isDownloadBlob added) ≤ 2 ∧
    length (List.filter isProxyFetch added) ≤ 2 ∧
    length added ≤ 4.
Proof.
  destruct (downloadVideo_budget selectedFormat videoInfo st)
    as (flow0 & st0 & a0 & Hd & Hn0 & Hd0 & Hp0).
  destruct (run_budget evs flow0 st0) as (flow & st' & Hr & a1 & Hn1 & Hd1 & Hp1).
  exists flow, st', (a0 ++ a1). unfold download, mbind, M_bind. rewrite Hd.
  split; [exact Hr|]. rewrite Hn1, Hn0, <- app_assoc. split; [done|].
  assert (Hlen : ∀ l : list NetworkCall,
            length l = length (List.filter isDownloadBlob l) +
                       length (List.filter isProxyFetch l)).
  { induction l as [|[] l IHl]; cbn; lia. }
  rewrite (Hlen (a0 ++ a1)), !List.filter_app, !length_app. lia.
Qed.

(** Once the download is finished, no event does anything but reset the
    progress. *)
Lemma run_Done_quiet (evs : list Event) (st : State) :
  ∃ st', run eng Done evs st = (inr Done, st') ∧
         c_error st' = c_error st ∧
         networkCalls st' = networkCalls st ∧
         untouched st st' ∧
         (stage (c_progress st) = idle → stage (c_progress st') = idle).
Proof.
  revert st. induction evs as [|[ev|] evs IH]; intros st.
  - by exists st.
  - rewrite run_cons. cbn [step deliver]. apply IH.
  - rewrite run_cons. cbn [step]. rewrite cancelDownload_eq.
    destruct (abortControllerRef st); cbn [abortFlow];
      unfold mret, M_ret;
      match goal with
      | |- context [run eng Done evs ?s] =>
          destruct (IH s) as (st' & -> & He & Hn & Hu & Hs)
      end;
      exists st'; split_and!; try done; intros _; by apply Hs.
Qed.

(** The cancellation of a well-formed download suspended on its audio
    transfer. *)
Lemma cancel_audio_in_flight (signal : bool) (t : Transfer) (format best : VideoFormat)
    (info : VideoInfo) (filename : string) (videoBlob : Blob) (st : State) :
  FlowSpec.wellFormed
    (AwaitAudio signal t format best info filename videoBlob) st →
  ∃ st',
    cancelDownload eng (AwaitAudio signal t format best info filename videoBlob) st =
      (inr Done, st') ∧
    stage (c_progress st') = idle ∧
    c_error st' = Some "Download cancelled" ∧
    networkCalls st' = networkCalls st ∧
    untouched st st'.
Proof.
  intros (-> & Href & Hpend). rewrite cancelDownload_eq, Href. cbn [abortFlow].
  destruct t as [| |o]; [| |done]; cbn [abortTransfer];
    match goal with
    | |- context [afterAudio eng ?f ?n ?v ?o ?s] =>
        destruct (afterAudio_frame f n v o s) as (st' & -> & Hn & Hall);
        destruct (Hall _ eq_refl) as (Hu & Hs & _ & Hab)
    end;
    exists st'; split_and!; try done; by apply Hab.
Qed.

(** X25. When a download is cancelled while its audio transfer is in
    flight, whatever happened before and whatever happens afterwards, the
    download ends with stage idle and the error Download cancelled; from
    the cancellation on no request is made, the engine is not called, so
    nothing is merged, and nothing is saved: the video already fetched is
    dropped. *)
Theorem X25_cancel_during_audio_fetch (format : VideoFormat) (info : VideoInfo)
    (st0 st1 : State) (before after : list Event)
    (signal : bool) (t : Transfer) (selected bestAudio : VideoFormat)
    (videoInfo : VideoInfo) (filename : string) (videoBlob : Blob) :
  download eng (Some format) (Some info) before st0 =
    (inr (AwaitAudio signal t selected bestAudio videoInfo filename videoBlob), st1) →
  ∃ st2,
    download eng (Some format) (Some info) (before ++ Cancel :: after) st0 =
      (inr Done, st2) ∧
    stage (c_progress st2) = idle ∧
    c_error st2 = Some "Download cancelled" ∧
    networkCalls st2 = networkCalls st1 ∧
    engineCalls st2 = engineCalls st1 ∧
    saves st2 = saves st1.
Proof.
  unfold download, mbind, M_bind. intros Hrun.
  destruct (downloadVideo (Some format) (Some info) st0) as [r0 sta] eqn:Ed.
  destruct (downloadVideo_wellFormed _ _ _ _ _ Ed) as (flow0 & -> & Hwf0).
  destruct (run_wellFormed _ _ _ _ _ _ Hwf0 Hrun) as (flow1 & [= <-] & Hwf1).
  rewrite run_app. unfold mbind, M_bind. rewrite Hrun.
  destruct (cancel_audio_in_flight _ _ _ _ _ _ _ _ Hwf1)
    as (stc & Hc & Hstage & Herr & Hnet & Hec & Hsv & _).
  rewrite run_cons. change (step eng ?f Cancel st1) with (cancelDownload eng f st1).
  rewrite Hc.
  destruct (run_Done_quiet after stc) as (st2 & Hdone & He & Hn & (Hec2 & Hsv2 & _) & Hs).
  exists st2. split_and!; [done|by apply Hs|congruence..].
Qed.

(** A video-only format with an audio-only descriptor in the catalog: the
    click starts the video transfer. *)
Lemma downloadVideo_merge_start (format best : VideoFormat) (info : VideoInfo)
    (st : State) :
  hasVideo format = true → hasAudio format = false →
  SelectorSpec.highestBitrate
    (List.filter SelectorSpec.audioOnly (formats info)) = Some best →
  downloadVideo (Some format) (Some info) st =
  (inr (AwaitVideo true XhrPending format (Some best) info
          (filename (title info) (container format))),
   mkComponent
     (mkProgress downloading (num 0) (Some "Downloading video stream..."))
     None true (ffmpegRef st) (engine st) (engineCalls st)
     (networkCalls st ++
      [DownloadBlob (url format) "video" (videoId info) (itag format)])
     (saves st)).
Proof.
  intros Hv Ha Hbest. unfold downloadVideo. rewrite Hv, Ha. cbn [andb negb].
  rewrite best_audio_offered, Hbest.
  apply SelectorFacts.highestBitrate_Some in Hbest as [Hbest _].
  change (List.filter (λ f, hasAudio f && negb (hasVideo f)) (formats info))
    with (List.filter SelectorSpec.audioOnly (formats info)).
  destruct (List.filter SelectorSpec.audioOnly (formats info)) as [|x l];
    [by apply elem_of_nil in Hbest|].
  reflexivity.
Qed.

Lemma status_ok (status : Z) :
  (200 ≤ status < 300)%Z → (200 <=? status)%Z && (status <? 300)%Z = true.
Proof.
  intros ?. apply andb_true_iff. split; [apply Z.leb_le|apply Z.ltb_lt]; lia.
Qed.

(** The direct request of the video succeeds: the audio transfer
    starts. *)
Lemma deliver_video_loaded (signal : bool) (format best : VideoFormat)
    (info : VideoInfo) (name : string) (status : Z) (statusText : string)
    (videoBlob : Blob) (st : State) :
  (200 ≤ status < 300)%Z →
  deliver eng (AwaitVideo signal XhrPending format (Some best) info name)
    (XhrLoad status statusText videoBlob) st =
  (inr (AwaitAudio (abortControllerRef st) XhrPending format best info name
          videoBlob),
   mkComponent
     (mkProgress downloading (num 50) (Some "Downloading audio stream..."))
     (c_error st) (abortControllerRef st) (ffmpegRef st) (engine st)
     (engineCalls st)
     (networkCalls st ++
      [DownloadBlob (url best) "audio" (videoId info) (itag best)])
     (saves st)).
Proof.
  intros Hs. unfold deliver, transferStep. rewrite (status_ok _ Hs). reflexivity.
Qed.

(** The direct request of the audio succeeds: the merge is next. *)
Lemma deliver_audio_loaded (signal : bool) (format best : VideoFormat)
    (info : VideoInfo) (name : string) (status : Z) (statusText : string)
    (videoBlob audioBlob : Blob) (st : State) :
  (200 ≤ status < 300)%Z →
  deliver eng (AwaitAudio signal XhrPending format best info name videoBlob)
    (XhrLoad status statusText audioBlob) st =
  afterAudio eng format name videoBlob (inr audioBlob) st.
Proof.
  intros Hs. unfold deliver, transferStep. rewrite (status_ok _ Hs). reflexivity.
Qed.

Lemma afterAudio_merge (format : VideoFormat) (name : string)
    (videoBlob audioBlob : Blob) (st st3 : State) (res : JsError + unit) :
  mergeWithFFmpeg eng videoBlob audioBlob name st = (res, st3) →
  afterAudio eng format name videoBlob (inr audioBlob) st =
  match res with
  | inr _ => (inr Done, st3)
  | inl err => (catchDownload (Some format) err ;; mret Done) st3
  end.
Proof.
  intros Em. unfold afterAudio, tryCatch, await.
  change ((mret audioBlob ≫= λ audioBlob0,
             mergeWithFFmpeg eng videoBlob audioBlob0 name ;; mret Done) st)
    with (match mergeWithFFmpeg eng videoBlob audioBlob name st with
          | (inr _, st') => (inr Done, st')
          | (inl e, st') => (inl e, st')
          end).
  rewrite Em. by destruct res as [err|[]].
Qed.

(** X26. The download of a video-only format whose two direct requests
    succeed: it requests the video of the format, then the audio of the
    audio-only descriptor of highest bitrate, and merges the two payloads
    once, under the sanitised title and the container of the format, the
    engine and the saves untouched until then. When the merge goes
    through, its output is the one file saved and the download ends
    complete, without error; when it fails, nothing is saved and the
    download ends idle with an error. *)
Theorem X26_merged_download (format best : VideoFormat) (info : VideoInfo)
    (videoBlob audioBlob : Blob) (s1 s2 : Z) (t1 t2 : string) (st : State) :
  hasVideo format = true → hasAudio format = false →
  SelectorSpec.highestBitrate
    (List.filter SelectorSpec.audioOnly (formats info)) = Some best →
  (200 ≤ s1 < 300)%Z → (200 ≤ s2 < 300)%Z →
  let name := filename (title info) (container format) in
  let evs := [OnTransfer (XhrLoad s1 t1 videoBlob);
              OnTransfer (XhrLoad s2 t2 audioBlob)] in
  ∃ st2 res st3 st',
    mergeWithFFmpeg eng videoBlob audioBlob name st2 = (res, st3) ∧
    untouched st st2 ∧
    download eng (Some format) (Some info) evs st = (inr Done, st') ∧
    networkCalls st' =
      networkCalls st ++
      [DownloadBlob (url format) "video" (videoId info) (itag format);
       DownloadBlob (url best) "audio" (videoId info) (itag best)] ∧
    match res with
    | inr _ =>
        st' = st3 ∧ (∃ data, saves st' = saves st ++ [SaveBlob data name]) ∧
        c_progress st' = mkProgress complete (num 100) (Some "Download complete!") ∧
        c_error st' = None
    | inl err =>
        saves st' = saves st ∧ stage (c_progress st') = idle ∧
        ∃ msg, c_error st' = Some msg
    end.
Proof.
  intros Hv Ha Hbest Hs1 Hs2 name evs.
  unfold download, mbind at 1, M_bind at 1.
  rewrite (downloadVideo_merge_start format best info st Hv Ha Hbest). fold name.
  subst evs. rewrite run_cons. cbn [step].
  rewrite deliver_video_loaded by done.
  rewrite run_cons. cbn [step].
  rewrite deliver_audio_loaded by done.
  cbn [abortControllerRef c_error ffmpegRef engine engineCalls networkCalls saves].
  match goal with
  | |- context [afterAudio eng format name videoBlob (inr audioBlob) ?s] =>
      set (st2 := s)
  end.
  destruct (mergeWithFFmpeg eng videoBlob audioBlob name st2) as [res st3] eqn:Em.
  destruct (merge_run _ _ _ _ _ _ _ Em) as (_ & Hn & He & _ & _ & Hfail & Hok).
  exists st2, res, st3. rewrite (afterAudio_merge _ _ _ _ _ _ _ Em).
  destruct res as [err|[]].
  - destruct (catchDownload_frame (Some format) err st3)
      as (st4 & Hc4 & Hst & Hm & _ & Hn4 & _ & Hec & Hsv & _).
    unfold mbind, M_bind. rewrite Hc4.
    exists st4. split; [done|]. split; [done|]. split; [done|]. split.
    + rewrite Hn4, Hn. subst st2. cbn [networkCalls]. by rewrite <- app_assoc.
    + destruct (Hfail err eq_refl) as [Hsv3 _].
      split; [|done]. rewrite Hsv, Hsv3. done.
  - exists st3. destruct (Hok eq_refl) as (Hsv & Hp & _).
    split; [done|]. split; [done|]. split; [done|]. split.
    + rewrite Hn. subst st2. cbn [networkCalls]. by rewrite <- app_assoc.
    + split; [done|]. split; [exact Hsv|]. split; [done|]. by rewrite He.
Qed.

End Flows.

Lemma X25_cancel_during_audio_fetch_witness :
  ∃ st2,
    download (Samples.failingEngine (newError "Conversion failed"))
      (Some Samples.videoOnly1080) (Some (Samples.sampleVideoInfo Samples.catalog))
      ([OnTransfer (XhrLoad 200 "OK" [Byte.x01])] ++ Cancel :: [])
      (Samples.freshComponent (∅ : gmap string Blob)) = (inr Done, st2) ∧
    c_error st2 = Some "Download cancelled" ∧
    saves st2 = saves (MoreSamples.audioInFlight).2.
Proof.
  assert (Hrun :
    download (Samples.failingEngine (newError "Conversion failed"))
      (Some Samples.videoOnly1080) (Some (Samples.sampleVideoInfo Samples.catalog))
      [OnTransfer (XhrLoad 200 "OK" [Byte.x01])]
      (Samples.freshComponent (∅ : gmap string Blob)) =
    (inr (AwaitAudio true XhrPending Samples.videoOnly1080 Samples.audio128
            (Samples.sampleVideoInfo Samples.catalog)
            (filename "Sample  Title!" "mp4") [Byte.x01]),
     (MoreSamples.audioInFlight).2))
    by (vm_compute; reflexivity).
  destruct (X25_cancel_during_audio_fetch _ _ _ _ _ _ [] _ _ _ _ _ _ _ Hrun)
    as (st2 & Hdone & _ & Herr & _ & _ & Hsaves).
  exists st2. split; [exact Hdone|]. split; [exact Herr | exact Hsaves].
Defined.

Lemma X26_merged_download_witness :
  ∃ st',
    download (MoreSamples.workingEngine [Byte.x03])
      (Some Samples.videoOnly1080) (Some (Samples.sampleVideoInfo Samples.catalog))
      [OnTransfer (XhrLoad 200 "OK" [Byte.x01]);
       OnTransfer (XhrLoad 200 "OK" [Byte.x02])]
      (Samples.freshComponent (∅ : gmap string Blob)) = (inr Done, st') ∧
    networkCalls st' =
      networkCalls (Samples.freshComponent (∅ : gmap string Blob)) ++
      [DownloadBlob (url Samples.videoOnly1080) "video"
         (videoId (Samples.sampleVideoInfo Samples.catalog))
         (itag Samples.videoOnly1080);
       DownloadBlob (url Samples.audio128) "audio"
         (videoId (Samples.sampleVideoInfo Samples.catalog))
         (itag Samples.audio128)].
Proof.
  assert (Hbest :
    SelectorSpec.highestBitrate
      (List.filter SelectorSpec.audioOnly
         (formats (Samples.sampleVideoInfo Samples.catalog))) =
    Some Samples.audio128) by (vm_compute; reflexivity).
  destruct (X26_merged_download (MoreSamples.workingEngine [Byte.x03])
              Samples.videoOnly1080 Samples.audio128
              (Samples.sampleVideoInfo Samples.catalog) [Byte.x01] [Byte.x02]
              200 200 "OK" "OK" (Samples.freshComponent (∅ : gmap string Blob))
              eq_refl eq_refl Hbest)
    as (st2 & res & st3 & st' & _ & _ & Hrun & Hn & _); [lia|lia|].
  exists st'. split; [exact Hrun | exact Hn].
Defined.

End DownloaderMore.

(** ** From the endpoint to the selector and the panel *)

Module PipelineMore.
Import Video InfoRoute CatalogSpec InfoPanel.

(** X27. Whatever the endpoint hands to the page, every option the
    selector offers on it stands on a descriptor that has a playable
    address, does not indicate WebP and carries video or audio: nothing
    that the endpoint filters out, and no descriptor without an address,
    can be selected. *)
Theorem X27_offered_options_playable (input : option string)
    (getInfo : string → YtdlError + YtdlInfo) (catalog : VideoInfo)
    (o : QualityOption) :
  data (body (GET input getInfo)) = Some catalog →
  o ∈ QualitySelector.qualityOptions (formats catalog) →
  playable (format o) ∧ ¬ indicatesWebP (format o) ∧ carriesMedia (format o).
Proof.
  intros Hdata Ho.
  destruct (InfoMore.response_shape input getInfo)
    as [(_ & _ & (info & catalog' & Hd & Hf) & _)|(_ & _ & Hd & _)];
    [|congruence].
  rewrite Hd in Hdata. injection Hdata as ->.
  destruct (SelectorMore.options_from_catalog _ _ Ho) as (Hin & Hgrp & _).
  rewrite Hf in Hin. apply SelectorFacts.elem_of_filter in Hin as [_ Hkeep].
  apply InfoFacts.keepFormat_spec in Hkeep as [Hw Hp].
  split_and!; [done..|]. unfold carriesMedia.
  destruct Hgrp as [(_ & Ha & _)|(_ & Hv & _)]; [by right | by left].
Qed.

Lemma X27_offered_options_playable_witness :
  ∃ catalog o,
    data (body (GET (Some "https://youtu.be/dQw4w9WgXcQ")
                  (Samples.serviceWith [Samples.muxedStream]))) = Some catalog ∧
    o ∈ QualitySelector.qualityOptions (formats catalog) ∧
    playable (format o).
Proof.
  pose (catalog :=
    default (Samples.sampleVideoInfo [])
      (data (body (GET (Some "https://youtu.be/dQw4w9WgXcQ")
                     (Samples.serviceWith [Samples.muxedStream]))))).
  pose (o := QualitySelector.videoOption (parseFormat Samples.muxedStream)).
  assert (Hdata :
    data (body (GET (Some "https://youtu.be/dQw4w9WgXcQ")
                  (Samples.serviceWith [Samples.muxedStream]))) = Some catalog)
    by (vm_compute; reflexivity).
  assert (Hin : o ∈ QualitySelector.qualityOptions (formats catalog))
    by (vm_compute; left).
  exists catalog, o. split; [exact Hdata|]. split; [exact Hin|].
  exact (proj1 (X27_offered_options_playable _ _ _ _ Hdata Hin)).
Defined.

Lemma orStr_not_empty (x : option string) (d : string) :
  d ≠ "" → Js.orStr x d ≠ "".
Proof. intros Hd. by destruct x as [[|c s]|]. Qed.

(** X28. A fetch of the video information on a blank address asks
    nothing and only sets the error Please enter a YouTube URL. On any
    other address it asks once, for that address, untrimmed; while the
    answer is awaited the panel is loading, with no information, no
    selection and no error; once the answer is in, the panel is no longer
    loading, the stage is idle, nothing is selected, and exactly one of
    the information and the error is set, the error being a message that
    is not empty. *)
Theorem X28_fetch_outcome (axiosGet : string → AxiosResult) (st : Panel) :
  let '(pending, final, requests) := fetchVideoInfo axiosGet st in
  if isBlank (p_url st) then
    pending = None ∧ requests = [] ∧
    final = mkPanel (p_url st) (p_videoInfo st) (p_selectedFormat st)
              (p_progress st) (Some "Please enter a YouTube URL") (p_isLoading st)
  else
    requests = [p_url st] ∧
    (∃ p, pending = Some p ∧ p_isLoading p = true ∧ p_videoInfo p = None ∧
          p_selectedFormat p = None ∧ p_error p = None ∧
          Downloader.stage (p_progress p) = fetching) ∧
    p_url final = p_url st ∧ p_isLoading final = false ∧
    p_selectedFormat final = None ∧ p_progress final = idleProgress ∧
    ((∃ info, p_videoInfo final = Some info ∧ p_error final = None) ∨
     (∃ msg, p_videoInfo final = None ∧ p_error final = Some msg ∧ msg ≠ "")).
Proof.
  unfold fetchVideoInfo. destruct (isBlank (p_url st)); [done|]. cbv zeta.
  assert (Hd : "Failed to fetch video information. Please check the URL and try again." ≠ "")
    by discriminate.
  destruct (axiosGet (p_url st)) as [answer|responseMessage message].
  - destruct (success answer), (data answer) as [info|];
      (split; [done|]); (split; [by eexists|]);
      cbn [p_url p_isLoading p_selectedFormat p_progress p_videoInfo p_error];
      (split; [done|]); (split; [done|]); (split; [done|]); (split; [done|]).
    + left. by eexists.
    + right. eexists. split_and!; [done..|by apply orStr_not_empty].
    + right. eexists. split_and!; [done..|by apply orStr_not_empty].
    + right. eexists. split_and!; [done..|by apply orStr_not_empty].
  - split; [done|]. split; [by eexists|].
    cbn [p_url p_isLoading p_selectedFormat p_progress p_videoInfo p_error].
    split_and!; [done..|].
    right. eexists. split_and!; [done..|by apply orStr_not_empty].
Qed.

(** X29. Behind a transport that resolves an answer with a success status
    to its body and rejects any other with that body, a fetch on an
    address that is not blank ends with the panel holding what the
    endpoint answered for that address: its video information, if any,
    and its message as the error, if any. *)
Theorem X29_panel_shows_endpoint (getInfo : string → YtdlError + YtdlInfo)
    (st : Panel) :
  isBlank (p_url st) = false →
  let answer := GET (Some (p_url st)) getInfo in
  let final := (fetchVideoInfo (axiosOver (λ input, GET input getInfo)) st).1.2 in
  p_videoInfo final = data (body answer) ∧
  p_error final = message (body answer) ∧
  p_isLoading final = false.
Proof.
  intros Hb answer final. subst final. unfold fetchVideoInfo. rewrite Hb.
  cbv zeta. unfold axiosOver. cbv zeta. fold answer.
  destruct (InfoMore.response_shape (Some (p_url st)) getInfo)
    as [(Hs & Hst & (info & catalog & Hd & _) & He & Hm)|
        (Hs & Hst & Hd & He & msg & Hm & Hne)];
    cbv zeta in *; fold answer in Hs, Hst, Hd, He, Hm.
  - rewrite Hst. cbn [Z.leb Z.ltb Z.compare andb Pos.compare Pos.compare_cont].
    rewrite Hs, Hd, Hm. done.
  - assert (Hrej : (200 <=? status answer)%Z && (status answer <? 300)%Z = false).
    { repeat (apply elem_of_cons in Hst as [->|Hst]); try done.
      by apply elem_of_nil in Hst. }
    rewrite Hrej, Hd, Hm. cbn.
    split_and!; [done| |done]. by destruct msg.
Qed.

Lemma X29_panel_shows_endpoint_witness :
  p_isLoading
    (fetchVideoInfo
       (axiosOver (λ input, GET input Samples.serviceDown))
       (mkPanel "https://youtu.be/dQw4w9WgXcQ" None None idleProgress None false)).1.2
  = false.
Proof.
  apply (X29_panel_shows_endpoint Samples.serviceDown
           (mkPanel "https://youtu.be/dQw4w9WgXcQ" None None idleProgress None false)).
  reflexivity.
Defined.

End PipelineMore.

(** ** The progress bar *)

Module ProgressMore.
Import ProgressBar.

(** X30. The bar is never drawn outside its track: the width is between 0
    and 100 whatever the progress passed, it is the progress itself when
    that is between 0 and 100, and the percentage written under the bar is
    an integer between 0 and 100. *)
Theorem X30_bar_within_track (progress : QArith_base.Q) :
  QArith_base.Qle (Downloader.num 0) (clampedProgress progress) ∧
  QArith_base.Qle (clampedProgress progress) (Downloader.num 100) ∧
  (0 ≤ shownPercent progress ≤ 100)%Z ∧
  (QArith_base.Qle (Downloader.num 0) progress →
   QArith_base.Qle progress (Downloader.num 100) →
   QArith_base.Qeq (clampedProgress progress) progress).
Proof.
  unfold shownPercent, round, clampedProgress.
  assert (H0 : QArith_base.Qle (Downloader.num 0)
                 (Qminmax.Qmin (Downloader.num 100)
                    (Qminmax.Qmax (Downloader.num 0) progress))).
  { apply Qminmax.Q.min_glb; [done|apply Qminmax.Q.le_max_l]. }
  assert (H100 : QArith_base.Qle
                   (Qminmax.Qmin (Downloader.num 100)
                      (Qminmax.Qmax (Downloader.num 0) progress))
                   (Downloader.num 100)) by apply Qminmax.Q.le_min_l.
  split_and!; [done|done| | |].
  - change 0%Z with (Qround.Qfloor (QArith_base.inject_Z 0)).
    apply Qround.Qfloor_resp_le.
    eapply QArith_base.Qle_trans; [exact H0|].
    rewrite <- (QArith_base.Qplus_0_r
                  (Qminmax.Qmin (Downloader.num 100)
                     (Qminmax.Qmax (Downloader.num 0) progress))) at 1.
    apply QArith_base.Qplus_le_r. done.
  - change 100%Z with
      (Qround.Qfloor (QArith_base.Qplus (Downloader.num 100) (QArith_base.Qmake 1 2))).
    apply Qround.Qfloor_resp_le. by apply QArith_base.Qplus_le_l.
  - intros Hlo Hhi.
    rewrite (Qminmax.Q.max_r _ _ Hlo). by apply Qminmax.Q.min_r.
Qed.

End ProgressMore.
